(** * Customer Account API authentication (OAuth 2.0 authorization code + PKCE)

    A shallow embedding of the three route loaders of the storefront example
    (authorization initiation, provider callback, order list), of the PKCE
    helpers they use and of the session helpers, together with the platform
    functions of Node they call (crypto hashing, Buffer encodings, URL and
    URLSearchParams). *)

From Stdlib Require Import ZArith Lia List Ascii String.
From Stdlib.Strings Require Import Byte.
From stdpp Require Import gmap strings pretty.
Import ListNotations.

Local Open Scope string_scope.
Local Open Scope list_scope.
Local Open Scope Z_scope.

(* ===================================================================== *)
(** ** Buffers and their encodings (Node's [Buffer]) *)
(* ===================================================================== *)

Module Buffer.

(** A buffer is a sequence of octets. *)
Definition t := list byte.

Definition byte_to_Z (b : byte) : Z := Z.of_N (Byte.to_N b).

Definition byte_of_Z (z : Z) : byte :=
  match Byte.of_N (Z.to_N (z mod 256)) with
  | Some b => b
  | None => x00
  end.

(** [Buffer.from(s, "utf8")]: a string is represented by its UTF-8 octets,
    one [ascii] per octet. *)
Definition from_string (s : string) : t := list_byte_of_string s.

(** The URL-safe base64 alphabet of RFC 4648, section 5. *)
Definition alphabet : string :=
  "ABCDEFGHIJKLMNOPQRSTUVWXYZabcdefghijklmnopqrstuvwxyz0123456789-_".

Definition sextet (n : Z) : ascii :=
  match String.get (Z.to_nat (Z.land n 63)) alphabet with
  | Some c => c
  | None => "A"%char
  end.

(** [buf.toString("base64url")]: three octets give four characters; a
    tail of one octet gives two characters and a tail of two octets gives
    three; no padding character is written. *)
Fixpoint to_base64url (bs : t) : string :=
  match bs with
  | [] => EmptyString
  | [a] =>
      let x := byte_to_Z a in
      String (sextet (Z.shiftr x 2))
        (String (sextet (Z.shiftl (Z.land x 3) 4)) EmptyString)
  | [a; b] =>
      let x := byte_to_Z a in
      let y := byte_to_Z b in
      String (sextet (Z.shiftr x 2))
        (String (sextet (Z.lor (Z.shiftl (Z.land x 3) 4) (Z.shiftr y 4)))
           (String (sextet (Z.shiftl (Z.land y 15) 2)) EmptyString))
  | a :: b :: c :: rest =>
      let x := byte_to_Z a in
      let y := byte_to_Z b in
      let z := byte_to_Z c in
      String (sextet (Z.shiftr x 2))
        (String (sextet (Z.lor (Z.shiftl (Z.land x 3) 4) (Z.shiftr y 4)))
           (String (sextet (Z.lor (Z.shiftl (Z.land y 15) 2) (Z.shiftr z 6)))
              (String (sextet (Z.land z 63)) (to_base64url rest))))
  end.

Definition hexdigit (n : Z) : ascii :=
  match String.get (Z.to_nat (Z.land n 15)) "0123456789abcdef" with
  | Some c => c
  | None => "0"%char
  end.

(** [buf.toString("hex")]. *)
Fixpoint to_hex (bs : t) : string :=
  match bs with
  | [] => EmptyString
  | a :: rest =>
      let x := byte_to_Z a in
      String (hexdigit (Z.shiftr x 4)) (String (hexdigit x) (to_hex rest))
  end.

End Buffer.

(* ===================================================================== *)
(** ** SHA-256 as FIPS 180-4 defines it, on a message given at once *)
(* ===================================================================== *)

Module SHA256.

Definition word := Z.

Definition wrap (x : Z) : word := x mod 2 ^ 32.
Definition add (x y : word) : word := wrap (x + y).
Definition rotr (n : Z) (x : word) : word :=
  Z.lor (Z.shiftr x n) (wrap (Z.shiftl x (32 - n))).
Definition shr (n : Z) (x : word) : word := Z.shiftr x n.
Definition lnot32 (x : word) : word := Z.lxor x 0xffffffff.

Definition Ch (x y z : word) : word :=
  Z.lxor (Z.land x y) (Z.land (lnot32 x) z).
Definition Maj (x y z : word) : word :=
  Z.lxor (Z.lxor (Z.land x y) (Z.land x z)) (Z.land y z).
Definition Sigma0 (x : word) : word :=
  Z.lxor (Z.lxor (rotr 2 x) (rotr 13 x)) (rotr 22 x).
Definition Sigma1 (x : word) : word :=
  Z.lxor (Z.lxor (rotr 6 x) (rotr 11 x)) (rotr 25 x).
Definition sigma0 (x : word) : word :=
  Z.lxor (Z.lxor (rotr 7 x) (rotr 18 x)) (shr 3 x).
Definition sigma1 (x : word) : word :=
  Z.lxor (Z.lxor (rotr 17 x) (rotr 19 x)) (shr 10 x).

(** The constants are defined as the standard defines them.  [K] holds the
    first 32 bits of the fractional parts of the cube roots of the first 64
    primes, [H0] those of the square roots of the first 8 primes. *)
Definition is_prime (n : nat) : bool :=
  forallb (fun d => negb (Nat.eqb (n mod d) 0)) (seq 2 (n - 2)).

Definition primes : list Z :=
  map Z.of_nat (List.filter is_prime (seq 2 310)).

(** The largest [x] in [lo, hi) with [x ^ 3 <= n], by bisection. *)
Fixpoint cube_root (fuel : nat) (n lo hi : Z) : Z :=
  match fuel with
  | O => lo
  | S fuel' =>
      let mid := (lo + hi) / 2 in
      if mid * mid * mid <=? n then cube_root fuel' n mid hi
      else cube_root fuel' n lo mid
  end.

Definition K : list word :=
  Eval vm_compute in
    map (fun p => wrap (cube_root 40 (p * 2 ^ 96) 0 (2 ^ 36))) primes.

Definition H0 : list word :=
  Eval vm_compute in
    map (fun p => wrap (Z.sqrt (p * 2 ^ 64))) (firstn 8 primes).

(** Padding: the bit 1, zero bits up to 56 modulo 64 octets, then the
    length of the message in bits as a 64-bit big-endian integer. *)
Definition be_bytes (n : nat) (x : Z) : list Z :=
  map (fun i => Z.land (Z.shiftr x (8 * Z.of_nat i)) 255) (rev (seq 0 n)).

Definition pad (msg : list Z) : list Z :=
  let len := Z.of_nat (length msg) in
  let zeros := Z.to_nat ((55 - len) mod 64) in
  msg ++ [128] ++ repeat 0 zeros ++ be_bytes 8 (8 * len).

Fixpoint words_of_bytes (bs : list Z) : list word :=
  match bs with
  | a :: b :: c :: d :: rest =>
      Z.lor (Z.shiftl a 24) (Z.lor (Z.shiftl b 16) (Z.lor (Z.shiftl c 8) d))
        :: words_of_bytes rest
  | _ => []
  end.

Definition word_at (ws : list word) (i : nat) : word := nth i ws 0.

(** The message schedule, grown from the 16 words of a block to 64. *)
Fixpoint schedule (n : nat) (w : list word) : list word :=
  match n with
  | O => w
  | S n' =>
      let t := length w in
      let x :=
        add (add (sigma1 (word_at w (t - 2))) (word_at w (t - 7)))
            (add (sigma0 (word_at w (t - 15))) (word_at w (t - 16))) in
      schedule n' (w ++ [x])
  end.

Record regs := Regs
  { ra : word; rb : word; rc : word; rd : word;
    re : word; rf : word; rg : word; rh : word }.

Definition round (s : regs) (kw : word * word) : regs :=
  let '(k, w) := kw in
  let t1 := add (add (add (rh s) (Sigma1 (re s))) (add (Ch (re s) (rf s) (rg s)) k)) w in
  let t2 := add (Sigma0 (ra s)) (Maj (ra s) (rb s) (rc s)) in
  Regs (add t1 t2) (ra s) (rb s) (rc s) (add (rd s) t1) (re s) (rf s) (rg s).

Definition regs_of (h : list word) : regs :=
  Regs (word_at h 0) (word_at h 1) (word_at h 2) (word_at h 3)
       (word_at h 4) (word_at h 5) (word_at h 6) (word_at h 7).

Definition compress (h : list word) (block : list word) : list word :=
  let s := fold_left round (combine K (schedule 48 block)) (regs_of h) in
  [ add (word_at h 0) (ra s); add (word_at h 1) (rb s);
    add (word_at h 2) (rc s); add (word_at h 3) (rd s);
    add (word_at h 4) (re s); add (word_at h 5) (rf s);
    add (word_at h 6) (rg s); add (word_at h 7) (rh s) ].

Fixpoint blocks (n : nat) (h : list word) (ws : list word) : list word :=
  match n with
  | O => h
  | S n' => blocks n' (compress h (firstn 16 ws)) (skipn 16 ws)
  end.

Definition digest (msg : Buffer.t) : Buffer.t :=
  let ws := words_of_bytes (pad (map Buffer.byte_to_Z msg)) in
  let h := blocks (length ws / 16) H0 ws in
  map Buffer.byte_of_Z (flat_map (be_bytes 4) h).

End SHA256.

(* ===================================================================== *)
(** ** Node's [crypto] module, as far as the PKCE helpers use it *)
(* ===================================================================== *)

Module crypto.

Inductive Algorithm := sha256.
Inductive Encoding := base64url | hex.

(** A hash object holds the chaining value of the blocks absorbed so far,
    the octets of the block that is being filled, fewer than 64, and the
    number of octets given to [update] in all. *)
Record Hash := {
  algorithm : Algorithm;
  chaining : list SHA256.word;
  buffered : Buffer.t;
  absorbed : Z
}.

Definition createHash (a : Algorithm) : Hash :=
  {| algorithm := a; chaining := SHA256.H0; buffered := []; absorbed := 0 |}.

(** One more octet: it goes to the block being filled, and a block that
    is full is compressed into the chaining value. *)
Definition absorb (h : Hash) (b : byte) : Hash :=
  let block := buffered h ++ [b] in
  if (length block =? 64)%nat then
    {| algorithm := algorithm h;
       chaining :=
         SHA256.compress (chaining h)
           (SHA256.words_of_bytes (map Buffer.byte_to_Z block));
       buffered := [];
       absorbed := absorbed h + 1 |}
  else
    {| algorithm := algorithm h;
       chaining := chaining h;
       buffered := block;
       absorbed := absorbed h + 1 |}.

(** [hash.update(data)] with a string argument absorbs its UTF-8 octets. *)
Definition update (h : Hash) (data : string) : Hash :=
  fold_left absorb (Buffer.from_string data) h.

(** What is compressed last: the octets left in the block being filled,
    the octet 0x80, zero octets up to the last 8 octets of the block (of
    the next block when these octets no longer fit), and the number of
    bits absorbed. *)
Definition last_blocks (h : Hash) : list Z :=
  let tail := map Buffer.byte_to_Z (buffered h) ++ [128] in
  let room :=
    if (length tail <=? 56)%nat then (56 - length tail)%nat
    else (120 - length tail)%nat in
  tail ++ repeat 0 room ++ SHA256.be_bytes 8 (8 * absorbed h).

Definition finish (h : Hash) : Buffer.t :=
  let ws := SHA256.words_of_bytes (last_blocks h) in
  let final :=
    if (length ws <=? 16)%nat then SHA256.compress (chaining h) ws
    else SHA256.compress (SHA256.compress (chaining h) (firstn 16 ws)) (skipn 16 ws) in
  map Buffer.byte_of_Z (flat_map (SHA256.be_bytes 4) final).

Definition encode (e : Encoding) (b : Buffer.t) : string :=
  match e with
  | base64url => Buffer.to_base64url b
  | hex => Buffer.to_hex b
  end.

(** [hash.digest(encoding)]. *)
Definition digest (h : Hash) (e : Encoding) : string :=
  match algorithm h with
  | sha256 => encode e (finish h)
  end.

End crypto.

(* ===================================================================== *)
(** ** JavaScript values, objects and errors *)
(* ===================================================================== *)

(** The primitive values found in the JSON documents the loaders read and
    in the objects they return.  Numbers are integers. *)
Inductive JsVal :=
| JUndefined
| JNull
| JBool (b : bool)
| JNum (n : Z)
| JStr (s : string).

(** An object literal: its properties in the order they are written. *)
Definition JsObject := list (string * JsVal).

(** [o.k]: the value of property [k], [undefined] when there is none. *)
Fixpoint get_prop (o : JsObject) (k : string) : JsVal :=
  match o with
  | [] => JUndefined
  | (k', v) :: rest => if String.eqb k' k then v else get_prop rest k
  end.

Definition has_prop (o : JsObject) (k : string) : bool :=
  existsb (fun kv => String.eqb (fst kv) k) o.

(** ToBoolean. *)
Definition truthy (v : JsVal) : bool :=
  match v with
  | JUndefined | JNull => false
  | JBool b => b
  | JNum n => negb (Z.eqb n 0)
  | JStr s => negb (String.eqb s "")
  end.

(** ToString, as applied to the argument of [fetch] and of [new URL]. *)
Definition js_to_string (v : JsVal) : string :=
  match v with
  | JUndefined => "undefined"
  | JNull => "null"
  | JBool true => "true"
  | JBool false => "false"
  | JNum n => pretty n
  | JStr s => s
  end.

(** A thrown [Error]; the loaders read only its [message]. *)
Record JsError := Error { message : string }.

(** A [Date] is its time value in milliseconds since the epoch; [None] is
    the Invalid Date (time value NaN). *)
Definition JsDate := option Z.

(** [new Date(t)] for a number [t] ([None] standing for NaN): time values
    beyond 8.64e15 ms in magnitude give the Invalid Date. *)
Definition new_Date (t : option Z) : JsDate :=
  match t with
  | Some v => if Z.abs v <=? 8640000000000000 then Some v else None
  | None => None
  end.

(* ===================================================================== *)
(** ** URL and URLSearchParams *)
(* ===================================================================== *)

Module URLSearchParams.

Definition t := list (string * string).

(** [params.get(name)]: the value of the first pair named [name], [null]
    when there is none. *)
Fixpoint get (name : string) (l : t) : option string :=
  match l with
  | [] => None
  | (n, v) :: rest => if String.eqb n name then Some v else get name rest
  end.

(** [params.getAll(name)]: the values of all pairs named [name]. *)
Definition getAll (name : string) (l : t) : list string :=
  map snd (List.filter (fun p => String.eqb (fst p) name) l).

Definition remove (name : string) (l : t) : t :=
  List.filter (fun p => negb (String.eqb (fst p) name)) l.

(** [params.set(name, value)]: the first pair named [name] takes the new
    value and the other pairs of that name are removed; when there is
    none the pair is appended. *)
Fixpoint set (name value : string) (l : t) : t :=
  match l with
  | [] => [(name, value)]
  | (n, v) :: rest =>
      if String.eqb n name then (n, value) :: remove name rest
      else (n, v) :: set name value rest
  end.

Definition unreserved (c : ascii) : bool :=
  let n := nat_of_ascii c in
  ((48 <=? n) && (n <=? 57) || (65 <=? n) && (n <=? 90)
   || (97 <=? n) && (n <=? 122)
   || (n =? 42) || (n =? 45) || (n =? 46) || (n =? 95))%nat.

Definition upper_hex (n : nat) : ascii :=
  match String.get n "0123456789ABCDEF" with
  | Some c => c
  | None => "0"%char
  end.

(** The application/x-www-form-urlencoded byte serializer. *)
Fixpoint encode (s : string) : string :=
  match s with
  | EmptyString => EmptyString
  | String c rest =>
      if unreserved c then String c (encode rest)
      else if Ascii.eqb c " "%char then String "+"%char (encode rest)
      else
        let n := nat_of_ascii c in
        String "%"%char
          (String (upper_hex (n / 16)%nat)
             (String (upper_hex (n mod 16)%nat) (encode rest)))
  end.

Fixpoint toString (l : t) : string :=
  match l with
  | [] => EmptyString
  | [(n, v)] => encode n +:+ "=" +:+ encode v
  | (n, v) :: rest => encode n +:+ "=" +:+ encode v +:+ "&" +:+ toString rest
  end.

End URLSearchParams.

(** A parsed URL. [protocol] ends with its colon and [host] holds the
    port when there is one, as the properties of the same names do.
    [authority] tells whether the URL has a host at all: a URL such as
    [mailto:a@b] has none and [host] is then empty.  [hash] is the
    fragment as the serializer writes it: empty when there is none, else
    the number sign and the fragment.  The query is held as the list of
    pairs of [searchParams]. *)
Record URL := {
  protocol : string;
  username : string;
  password : string;
  authority : bool;
  host : string;
  pathname : string;
  searchParams : URLSearchParams.t;
  hash : string
}.

Definition URL_set_param (name value : string) (u : URL) : URL :=
  {| protocol := protocol u;
     username := username u;
     password := password u;
     authority := authority u;
     host := host u;
     pathname := pathname u;
     searchParams := URLSearchParams.set name value (searchParams u);
     hash := hash u |}.

(** The URL serializer up to the path: the scheme; for a URL with a host,
    two slashes, the credentials when there are any and the host; for a
    URL without a host whose path starts with two slashes, a slash and a
    dot; then the path. *)
Definition URL_before_query (u : URL) : string :=
  protocol u
  +:+ (if authority u then
         "//"
         +:+ (if String.eqb (username u) "" && String.eqb (password u) ""
              then EmptyString
              else username u
                   +:+ (if String.eqb (password u) "" then EmptyString
                        else ":" +:+ password u)
                   +:+ "@")
         +:+ host u
       else if String.prefix "//" (pathname u) then "/." else EmptyString)
  +:+ pathname u.

(** [url.toString()] of a URL whose [searchParams] have been written to:
    the query is then the serialization of the list, and there is none
    when the list is empty. *)
Definition URL_toString (u : URL) : string :=
  URL_before_query u
  +:+ match searchParams u with
      | [] => EmptyString
      | ps => "?" +:+ URLSearchParams.toString ps
      end
  +:+ hash u.

(* ===================================================================== *)
(** ** The world around a loader *)
(* ===================================================================== *)

(** An argument of [fetch]. *)
Record FetchRequest := {
  fr_url : string;
  fr_method : string;
  fr_headers : list (string * string);
  fr_body : option string
}.

Definition GET (u : string) : FetchRequest :=
  {| fr_url := u; fr_method := "GET"; fr_headers := []; fr_body := None |}.

(** An HTTP response.  [body_text] is what [text()] resolves to;
    [body_json] is what reading the body with [json()] and reading a
    property of the result gives: the properties of the parsed document
    (none for a primitive other than [null]), or the error thrown when the
    body is not JSON or is [null]. *)
Record FetchResponse := {
  status : Z;
  statusText : string;
  body_text : string;
  body_json : JsError + JsObject
}.

(** [response.ok]: the status is in the range 200-299. *)
Definition ok (r : FetchResponse) : bool :=
  (200 <=? status r) && (status r <=? 299).

Inductive FetchOutcome :=
| Rejected (e : JsError)
| Responded (r : FetchResponse).

(** The session data of [createCookieSessionStorage]. *)
Definition Session := gmap string string.

(** What a loader is given by its surroundings and cannot change:
    the configuration in [process.env], the network, the clock, the
    random source, and the platform functions whose results the loaders
    only pass on. *)
Record Env := {
  SHOP_STOREFRONT_DOMAIN : string;
  SHOPIFY_API_KEY : string;
  network : FetchRequest -> FetchOutcome;
  entropy : nat -> byte;
  Date_now : Z;
  (** [new URL(s)]; [None] when it throws *)
  parse_URL : string -> option URL;
  (** ToNumber of a string; [None] is NaN *)
  string_to_number : string -> option Z;
  (** [date.toISOString()] of a valid date *)
  toISOString : Z -> string;
  (** the default value of an [id] column *)
  generate_id : nat -> string;
  (** [getSession(cookieHeader)] *)
  getSession : option string -> Session;
  (** [commitSession(session)]: the Set-Cookie header value, or the error
      it rejects with when the cookie would be longer than 4096 characters *)
  commitSession : Session -> JsError + string;
  (** [destroySession(session)] *)
  destroySession : Session -> string
}.

(** An incoming request: its URL and its Cookie header. *)
Record Request := {
  req_url : URL;
  req_cookie : option string
}.

(** Rows of the two tables, with the columns the loaders write or read. *)
Record CodeVerifier := {
  cv_state : string;
  cv_verifier : string
}.

Record CustomerAccessToken := {
  tok_id : string;
  tok_shop : string;
  tok_accessToken : string;
  tok_expiresAt : option Z
}.

(** What a loader does that can be observed from outside, in order. *)
Inductive Event :=
| EFetch (req : FetchRequest)
| ECodeVerifierCreate (state verifier : string)
| ECodeVerifierFindUnique (state : string)
| ECodeVerifierDelete (state : string)
| ETokenCreate (shop : string) (accessToken : JsVal) (expiresAt : option JsDate)
| ETokenFindUnique (id : string)
| EConsoleError (label : string) (e : JsError).

(** The mutable state: the CodeVerifier table through its unique index on
    [state], the CustomerAccessToken table through its primary key, how
    much of the random source and of the id supply has been used, and the
    events so far. *)
Record World := {
  codeVerifier : gmap string CodeVerifier;
  customerAccessToken : gmap string CustomerAccessToken;
  entropy_used : nat;
  ids_used : nat;
  trace : list Event
}.

Definition log (ev : Event) (w : World) : World :=
  {| codeVerifier := codeVerifier w;
     customerAccessToken := customerAccessToken w;
     entropy_used := entropy_used w;
     ids_used := ids_used w;
     trace := trace w ++ [ev] |}.

(** The events a run from [w] to [w'] has added. *)
Definition events_since (w w' : World) : list Event :=
  skipn (length (trace w)) (trace w').

Definition is_database_event (ev : Event) : bool :=
  match ev with
  | ECodeVerifierCreate _ _ | ECodeVerifierFindUnique _ | ECodeVerifierDelete _
  | ETokenCreate _ _ _ | ETokenFindUnique _ => true
  | EFetch _ | EConsoleError _ _ => false
  end.

Definition is_fetch_event (ev : Event) : bool :=
  match ev with
  | EFetch _ => true
  | _ => false
  end.

Definition is_token_create_event (ev : Event) : bool :=
  match ev with
  | ETokenCreate _ _ _ => true
  | _ => false
  end.

Definition is_verifier_delete_event (ev : Event) : bool :=
  match ev with
  | ECodeVerifierDelete _ => true
  | _ => false
  end.

(** What a loader returns: a redirect response or data for its component. *)
Inductive Response :=
| Redirect (location : string) (headers : list (string * string))
| Data (obj : JsObject).

(* ===================================================================== *)
(** ** Computations that change the world and may throw *)
(* ===================================================================== *)

Inductive Outcome (A : Type) :=
| Return (a : A)
| Throw (e : JsError).
Arguments Return {A} a.
Arguments Throw {A} e.

Definition M (A : Type) : Type := World -> Outcome A * World.

Definition ret {A} (a : A) : M A := fun w => (Return a, w).

Definition throw {A} (msg : string) : M A := fun w => (Throw (Error msg), w).

Definition bind {A B} (m : M A) (k : A -> M B) : M B :=
  fun w =>
    match m w with
    | (Return a, w') => k a w'
    | (Throw e, w') => (Throw e, w')
    end.

Notation "'let*' x ':=' m 'in' k" := (bind m (fun x => k))
  (at level 10, x name, m at level 100, k at level 200).

(** [try { body } catch (error) { handler }] around a whole function body. *)
Definition try_catch (body : M Response) (handler : JsError -> World -> Response * World)
  : World -> Response * World :=
  fun w =>
    match body w with
    | (Return r, w') => (r, w')
    | (Throw e, w') => handler e w'
    end.

(** [P] holds of every response the computation can return. *)
Definition returns_only (P : Response -> Prop) (m : M Response) : Prop :=
  forall (w : World) (r : Response) (w' : World), m w = (Return r, w') -> P r.

(** [console.error(label, error)]. *)
Definition console_error (label : string) (e : JsError) (w : World) : World :=
  log (EConsoleError label e) w.

(** [await fetch(request)]: a rejected promise is a thrown error. *)
Definition fetch (env : Env) (req : FetchRequest) : M FetchResponse :=
  fun w =>
    match network env req with
    | Rejected e => (Throw e, log (EFetch req) w)
    | Responded r => (Return r, log (EFetch req) w)
    end.

(** [await response.json()], for a document whose properties are then read. *)
Definition response_json (r : FetchResponse) : M JsObject :=
  fun w =>
    match body_json r with
    | inl e => (Throw e, w)
    | inr o => (Return o, w)
    end.

(** [crypto.randomBytes(n)]. *)
Definition randomBytes (env : Env) (n : nat) : M Buffer.t :=
  fun w =>
    (Return (map (entropy env) (seq (entropy_used w) n)),
     {| codeVerifier := codeVerifier w;
        customerAccessToken := customerAccessToken w;
        entropy_used := (entropy_used w + n)%nat;
        ids_used := ids_used w;
        trace := trace w |}).

(** [new URL(v)]. *)
Definition new_URL (env : Env) (v : JsVal) : M URL :=
  fun w =>
    match parse_URL env (js_to_string v) with
    | Some u => (Return u, w)
    | None => (Throw (Error "Invalid URL"), w)
    end.

(* ===================================================================== *)
(** ** The database client *)
(* ===================================================================== *)

(** The tables are those of the migration: CodeVerifier with a unique
    index on [state], CustomerAccessToken with the primary key [id].  A
    loader runs from its request to its response with the store to
    itself. *)

(** [prisma.codeVerifier.create({ data: { state, verifier } })]: refused
    when a row with this [state] exists (unique index). *)
Definition codeVerifier_create (state verifier : string) : M CodeVerifier :=
  fun w =>
    let w := log (ECodeVerifierCreate state verifier) w in
    match codeVerifier w !! state with
    | Some _ =>
        (Throw (Error "Unique constraint failed on the fields: (`state`)"), w)
    | None =>
        let row := {| cv_state := state; cv_verifier := verifier |} in
        (Return row,
         {| codeVerifier := <[state := row]> (codeVerifier w);
            customerAccessToken := customerAccessToken w;
            entropy_used := entropy_used w;
            ids_used := ids_used w;
            trace := trace w |})
    end.

(** [prisma.codeVerifier.findUnique({ where: { state } })]. *)
Definition codeVerifier_findUnique (state : string) : M (option CodeVerifier) :=
  fun w =>
    let w := log (ECodeVerifierFindUnique state) w in
    (Return (codeVerifier w !! state), w).

(** [prisma.codeVerifier.delete({ where: { state } })]: refused when there
    is no such row. *)
Definition codeVerifier_delete (state : string) : M CodeVerifier :=
  fun w =>
    let w := log (ECodeVerifierDelete state) w in
    match codeVerifier w !! state with
    | None => (Throw (Error "Record to delete does not exist."), w)
    | Some row =>
        (Return row,
         {| codeVerifier := delete state (codeVerifier w);
            customerAccessToken := customerAccessToken w;
            entropy_used := entropy_used w;
            ids_used := ids_used w;
            trace := trace w |})
    end.

(** [prisma.customerAccessToken.create({ data: { shop, accessToken,
    expiresAt } })].  The client refuses an [accessToken] that is not a
    string and an [expiresAt] that is an invalid date before it reaches
    the database; the database refuses an [id] already present. *)
Definition customerAccessToken_create (env : Env) (shop : string)
    (accessToken : JsVal) (expiresAt : option JsDate) : M CustomerAccessToken :=
  fun w =>
    let w := log (ETokenCreate shop accessToken expiresAt) w in
    match accessToken, expiresAt with
    | JStr secret, (None | Some (Some _)) =>
        let id := generate_id env (ids_used w) in
        let w :=
          {| codeVerifier := codeVerifier w;
             customerAccessToken := customerAccessToken w;
             entropy_used := entropy_used w;
             ids_used := S (ids_used w);
             trace := trace w |} in
        match customerAccessToken w !! id with
        | Some _ =>
            (Throw (Error "Unique constraint failed on the fields: (`id`)"), w)
        | None =>
            let row :=
              {| tok_id := id; tok_shop := shop; tok_accessToken := secret;
                 tok_expiresAt := match expiresAt with
                                  | Some d => d
                                  | None => None
                                  end |} in
            (Return row,
             {| codeVerifier := codeVerifier w;
                customerAccessToken := <[id := row]> (customerAccessToken w);
                entropy_used := entropy_used w;
                ids_used := ids_used w;
                trace := trace w |})
        end
    | _, _ =>
        (Throw (Error "Invalid `prisma.customerAccessToken.create()` invocation"), w)
    end.

(** [prisma.customerAccessToken.findUnique({ where: { id } })]. *)
Definition customerAccessToken_findUnique (id : string)
  : M (option CustomerAccessToken) :=
  fun w =>
    let w := log (ETokenFindUnique id) w in
    (Return (customerAccessToken w !! id), w).

(* ===================================================================== *)
(** ** app/sessions.server.js *)
(* ===================================================================== *)

Definition getCustomerTokenId (env : Env) (request : Request) : option string :=
  let session := getSession env (req_cookie request) in
  session !! "customerTokenId".

(** The session of the request with the token id set. *)
Definition session_with_token (env : Env) (request : Request) (tokenId : string)
  : Session :=
  let session := getSession env (req_cookie request) in
  <["customerTokenId" := tokenId]> session.

(** The promise returned is the one of [commitSession]: it is rejected
    when [commitSession] rejects. *)
Definition setCustomerTokenId (env : Env) (request : Request) (tokenId : string)
  : M string :=
  fun w =>
    match commitSession env (session_with_token env request tokenId) with
    | inl e => (Throw e, w)
    | inr header => (Return header, w)
    end.

Definition destroyCustomerSession (env : Env) (request : Request) : string :=
  let session := getSession env (req_cookie request) in
  destroySession env session.

(** Truthiness of a string that may be [null] or [undefined]. *)
Definition present (o : option string) : bool :=
  match o with
  | Some s => negb (String.eqb s "")
  | None => false
  end.

(** The string itself once [present] has been checked. *)
Definition the_string (o : option string) : string :=
  match o with
  | Some s => s
  | None => EmptyString
  end.

(* ===================================================================== *)
(** ** The PKCE helpers *)
(* ===================================================================== *)

Definition generateCodeVerifier (env : Env) : M string :=
  let* bytes := randomBytes env 32 in
  ret (crypto.encode crypto.base64url bytes).

Definition generateCodeChallenge (verifier : string) : string :=
  crypto.digest
    (crypto.update (crypto.createHash crypto.sha256) verifier)
    crypto.base64url.

Definition generateState (env : Env) : M string :=
  let* bytes := randomBytes env 16 in
  ret (crypto.encode crypto.base64url bytes).

(** Base64 as RFC 4648 words it, with the alphabet of its section 5 and
    without padding characters. *)
Module RFC4648.

(** The eight bits of an octet, the most significant first. *)
Definition bits_of_octet (b : byte) : list bool :=
  map (Z.testbit (Buffer.byte_to_Z b)) [7; 6; 5; 4; 3; 2; 1; 0].

(** The bit stream cut into groups of six bits; zero bits are added on
    the right of a last group that is short. *)
Fixpoint groups (bits : list bool) : list (list bool) :=
  match bits with
  | [] => []
  | b0 :: b1 :: b2 :: b3 :: b4 :: b5 :: rest =>
      [b0; b1; b2; b3; b4; b5] :: groups rest
  | short => [firstn 6 (short ++ repeat false 5)]
  end.

(** The number a group stands for, its first bit the most significant. *)
Definition value (group : list bool) : nat :=
  fold_left (fun n (bit : bool) => (2 * n + if bit then 1 else 0)%nat) group 0%nat.

(** Table 2, the URL and filename safe alphabet: the letters A to Z for
    0 to 25, a to z for 26 to 51, the digits for 52 to 61, the minus for
    62 and the underline for 63. *)
Definition char (v : nat) : ascii :=
  if (v <? 26)%nat then ascii_of_nat (nat_of_ascii "A" + v)
  else if (v <? 52)%nat then ascii_of_nat (nat_of_ascii "a" + (v - 26))
  else if (v <? 62)%nat then ascii_of_nat (nat_of_ascii "0" + (v - 52))
  else if (v =? 62)%nat then "-"%char
  else "_"%char.

Definition base64url (data : list byte) : string :=
  string_of_list_ascii
    (map (fun group => char (value group)) (groups (flat_map bits_of_octet data))).

End RFC4648.

(** The challenge as the specification words it: the URL-safe base64
    encoding, as RFC 4648 defines it, of the SHA-256 digest, as FIPS 180-4
    defines it, of the verifier's octets. *)
Definition challenge_spec (verifier : string) : string :=
  RFC4648.base64url (SHA256.digest (Buffer.from_string verifier)).

(* ===================================================================== *)
(** ** Route /customer-account-api/auth: authorization initiation *)
(* ===================================================================== *)

(** The route comes in two copies that differ in their comments only. *)

Definition openid_configuration_url (env : Env) : string :=
  "https://" +:+ SHOP_STOREFRONT_DOMAIN env +:+ "/.well-known/openid-configuration".

Definition callback_url (url : URL) : string :=
  "https://" +:+ host url +:+ "/customer-account-api/callback".

(** The query parameters of the authorization request as the
    specification lists them. *)
Definition authorization_parameters (env : Env) (request : Request)
    (state challenge : string) : URLSearchParams.t :=
  [ ("client_id", SHOPIFY_API_KEY env);
    ("response_type", "code");
    ("redirect_uri",
     "https://" +:+ host (req_url request) +:+ "/customer-account-api/callback");
    ("scope", "openid email customer-account-api:full");
    ("state", state);
    ("code_challenge", challenge);
    ("code_challenge_method", "S256") ].

Module Auth.

Definition body (env : Env) (request : Request) : M Response :=
  (* Fetch OpenID configuration *)
  let openidConfigUrl := openid_configuration_url env in
  let* openidResponse := fetch env (GET openidConfigUrl) in
  if negb (ok openidResponse) then
    throw ("Failed to fetch OpenID configuration: " +:+ statusText openidResponse)
  else
  let* openidConfig := response_json openidResponse in
  let authorizationEndpoint := get_prop openidConfig "authorization_endpoint" in
  (* Generate PKCE parameters *)
  let* codeVerifier := generateCodeVerifier env in
  let codeChallenge := generateCodeChallenge codeVerifier in
  let* state := generateState env in
  (* Store code verifier in database *)
  let* _ := codeVerifier_create state codeVerifier in
  (* Get the callback URL from the request *)
  let url := req_url request in
  let callbackUrl := callback_url url in
  let clientId := SHOPIFY_API_KEY env in
  (* Build authorization URL *)
  let* authUrl := new_URL env authorizationEndpoint in
  let authUrl := URL_set_param "client_id" clientId authUrl in
  let authUrl := URL_set_param "response_type" "code" authUrl in
  let authUrl := URL_set_param "redirect_uri" callbackUrl authUrl in
  let authUrl := URL_set_param "scope" "openid email customer-account-api:full" authUrl in
  let authUrl := URL_set_param "state" state authUrl in
  let authUrl := URL_set_param "code_challenge" codeChallenge authUrl in
  let authUrl := URL_set_param "code_challenge_method" "S256" authUrl in
  ret (Redirect (URL_toString authUrl) []).

Definition handler (error : JsError) (w : World) : Response * World :=
  (Data [("error", JStr (message error))],
   console_error "Error generating auth URL:" error w).

Definition loader (env : Env) (request : Request) : World -> Response * World :=
  try_catch (body env request) handler.

End Auth.

(* ===================================================================== *)
(** ** Route /customer-account-api/callback: code for token exchange *)
(* ===================================================================== *)

(** ToNumber of a truthy value; [None] is NaN. *)
Definition to_number (env : Env) (v : JsVal) : option Z :=
  match v with
  | JUndefined => None
  | JNull => Some 0
  | JBool b => Some (if b then 1 else 0)
  | JNum n => Some n
  | JStr s => string_to_number env s
  end.

(** [tokenData.expires_in ? new Date(Date.now() + tokenData.expires_in * 1000) : null];
    the outer [None] is [null]. *)
Definition calculate_expiration (env : Env) (tokenData : JsObject) : option JsDate :=
  if truthy (get_prop tokenData "expires_in") then
    Some (new_Date
            (match to_number env (get_prop tokenData "expires_in") with
             | Some n => Some (Date_now env + n * 1000)
             | None => None
             end))
  else None.

(** The body of the token request. *)
Definition token_request (env : Env) (tokenEndpoint : JsVal)
    (callbackUrl code verifier : string) : FetchRequest :=
  {| fr_url := js_to_string tokenEndpoint;
     fr_method := "POST";
     fr_headers := [("Content-Type", "application/x-www-form-urlencoded")];
     fr_body :=
       Some (URLSearchParams.toString
               [ ("grant_type", "authorization_code");
                 ("client_id", SHOPIFY_API_KEY env);
                 ("redirect_uri", callbackUrl);
                 ("code", code);
                 ("code_verifier", verifier) ]) |}.

Module Callback.

Definition body (env : Env) (request : Request) : M Response :=
  let url := req_url request in
  let code := URLSearchParams.get "code" (searchParams url) in
  let state := URLSearchParams.get "state" (searchParams url) in
  if negb (present code) || negb (present state) then
    throw "Missing code or state parameter"
  else
  let code := the_string code in
  let state := the_string state in
  (* Retrieve the code verifier from the database *)
  let* codeVerifierRecord := codeVerifier_findUnique state in
  match codeVerifierRecord with
  | None => throw "Invalid state parameter or code verifier not found"
  | Some codeVerifierRecord =>
  (* Fetch OpenID configuration to get token endpoint *)
  let openidConfigUrl := openid_configuration_url env in
  let* openidResponse := fetch env (GET openidConfigUrl) in
  if negb (ok openidResponse) then
    throw ("Failed to fetch OpenID configuration: " +:+ statusText openidResponse)
  else
  let* openidConfig := response_json openidResponse in
  let tokenEndpoint := get_prop openidConfig "token_endpoint" in
  let callbackUrl := callback_url url in
  (* Exchange authorization code for access token *)
  let* tokenResponse :=
    fetch env
      (token_request env tokenEndpoint callbackUrl code
         (cv_verifier codeVerifierRecord)) in
  if negb (ok tokenResponse) then
    let errorText := body_text tokenResponse in
    throw ("Token exchange failed: " +:+ statusText tokenResponse
           +:+ " - " +:+ errorText)
  else
  let* tokenData := response_json tokenResponse in
  (* Calculate token expiration *)
  let expiresAt := calculate_expiration env tokenData in
  (* Store the access token in the database *)
  let* customerAccessToken :=
    customerAccessToken_create env (SHOP_STOREFRONT_DOMAIN env)
      (get_prop tokenData "access_token") expiresAt in
  (* Clean up the used code verifier *)
  let* _ := codeVerifier_delete state in
  (* Store tokenId in session cookie and redirect to order list *)
  let* setCookieHeader :=
    setCustomerTokenId env request (tok_id customerAccessToken) in
  ret (Redirect "/customer-account-api/order-list"
         [("Set-Cookie", setCookieHeader)])
  end.

Definition handler (error : JsError) (w : World) : Response * World :=
  (Data [("success", JBool false); ("error", JStr (message error))],
   console_error "Error in callback:" error w).

Definition loader (env : Env) (request : Request)
  : World -> Response * World :=
  try_catch (body env request) handler.

End Callback.

(** What the loader answers once the token is stored and the verifier
    deleted: the redirect that carries the cookie, or, when the cookie
    cannot be written, the object of the catch block. *)
Definition callback_answer (env : Env) (request : Request) (tokenId : string)
  : Response :=
  match commitSession env (session_with_token env request tokenId) with
  | inr setCookieHeader =>
      Redirect "/customer-account-api/order-list" [("Set-Cookie", setCookieHeader)]
  | inl error =>
      Data [("success", JBool false); ("error", JStr (message error))]
  end.

(** What the console holds after it: nothing more, or the error caught. *)
Definition callback_report (env : Env) (request : Request) (tokenId : string)
  : list Event :=
  match commitSession env (session_with_token env request tokenId) with
  | inr _ => []
  | inl error => [EConsoleError "Error in callback:" error]
  end.

(* ===================================================================== *)
(** ** Route /customer-account-api/order-list: the token's consumer *)
(* ===================================================================== *)

Definition customer_account_api_url (env : Env) : string :=
  "https://" +:+ SHOP_STOREFRONT_DOMAIN env +:+ "/.well-known/customer-account-api".

(** [customerAccessToken.expiresAt && new Date() > customerAccessToken.expiresAt] *)
Definition expired (env : Env) (t : CustomerAccessToken) : bool :=
  match tok_expiresAt t with
  | Some expiresAt => Date_now env >? expiresAt
  | None => false
  end.

Definition expired_error : JsError := Error "Access token has expired".

(** The object returned when the token is handed to the component. *)
Definition order_list_data (env : Env) (customerAccessToken : CustomerAccessToken)
    (graphqlApiUrl : JsVal) : JsObject :=
  [ ("success", JBool true);
    ("tokenId", JStr (tok_id customerAccessToken));
    ("accessToken", JStr (tok_accessToken customerAccessToken));
    ("shop", JStr (tok_shop customerAccessToken));
    ("graphqlApiUrl", graphqlApiUrl);
    ("expiresAt",
     match tok_expiresAt customerAccessToken with
     | Some d => JStr (toISOString env d)
     | None => JUndefined
     end) ].

Module OrderList.

Definition body (env : Env) (request : Request) : M Response :=
  (* Get tokenId from session cookie *)
  let tokenId := getCustomerTokenId env request in
  if negb (present tokenId) then
    throw "No customer authentication found. Please authenticate first."
  else
  let tokenId := the_string tokenId in
  (* Fetch the access token from the database *)
  let* customerAccessToken := customerAccessToken_findUnique tokenId in
  match customerAccessToken with
  | None => throw "Access token not found"
  | Some customerAccessToken =>
  (* Check if token is expired *)
  if expired env customerAccessToken then
    throw "Access token has expired"
  else
  (* Fetch Customer Account API configuration *)
  let wellKnownUrl := customer_account_api_url env in
  let* wellKnownResponse := fetch env (GET wellKnownUrl) in
  if negb (ok wellKnownResponse) then
    throw ("Failed to fetch Customer Account API configuration: "
           +:+ statusText wellKnownResponse)
  else
  let* wellKnownConfig := response_json wellKnownResponse in
  let graphqlApiUrl := get_prop wellKnownConfig "graphql_api" in
  ret (Data (order_list_data env customerAccessToken graphqlApiUrl))
  end.

Definition handler (error : JsError) (w : World) : Response * World :=
  (Data [("success", JBool false); ("error", JStr (message error))],
   console_error "Error loading access token:" error w).

Definition loader (env : Env) (request : Request)
  : World -> Response * World :=
  try_catch (body env request) handler.

End OrderList.

(* ===================================================================== *)
(** ** A provider, a shop and a browser to run the loaders against *)
(* ===================================================================== *)

Module Scenario.

Definition authorize : string := "https://shopify.com/authentication/1/oauth/authorize".
Definition token : string := "https://shopify.com/authentication/1/oauth/token".

Definition authorize_url : URL :=
  {| protocol := "https:"; username := EmptyString; password := EmptyString;
     authority := true; host := "shopify.com";
     pathname := "/authentication/1/oauth/authorize";
     searchParams := []; hash := EmptyString |}.

Definition openid_document : JsObject :=
  [ ("authorization_endpoint", JStr authorize); ("token_endpoint", JStr token) ].

Definition respond (st : Z) (txt body : string) (doc : JsError + JsObject)
  : FetchOutcome :=
  Responded {| status := st; statusText := txt; body_text := body; body_json := doc |}.

(** A provider whose discovery documents are served and whose token
    endpoint answers [exchange]. *)
Definition provider (exchange : FetchOutcome) (req : FetchRequest) : FetchOutcome :=
  if String.eqb (fr_url req) "https://shop.example.com/.well-known/openid-configuration"
  then respond 200 "OK" EmptyString (inr openid_document)
  else if String.eqb (fr_url req) "https://shop.example.com/.well-known/customer-account-api"
  then respond 200 "OK" EmptyString
         (inr [("graphql_api", JStr "https://shopify.com/1/account/customer/api/graphql")])
  else if String.eqb (fr_url req) token then exchange
  else Rejected (Error "fetch failed").

(** A provider whose discovery endpoint is down. *)
Definition provider_down (req : FetchRequest) : FetchOutcome :=
  respond 500 "Internal Server Error" EmptyString (inl (Error "Unexpected end of JSON input")).

Definition env (net : FetchRequest -> FetchOutcome) (now : Z) : Env :=
  {| SHOP_STOREFRONT_DOMAIN := "shop.example.com";
     SHOPIFY_API_KEY := "client-1";
     network := net;
     entropy := fun n => Buffer.byte_of_Z (Z.of_nat n * 37 + 11);
     Date_now := now;
     parse_URL := fun s => if String.eqb s authorize then Some authorize_url else None;
     string_to_number := fun _ => None;
     toISOString := fun t => pretty t;
     generate_id := fun n => "token-" +:+ pretty n;
     getSession := fun c =>
       match c with
       | Some v => {[ "customerTokenId" := v ]}
       | None => ∅
       end;
     commitSession :=
       fun s => inr ("__customer_session=" +:+ the_string (s !! "customerTokenId"));
     destroySession := fun _ => "__customer_session=" |}.

(** The same shop when the session cookie would be too long to write. *)
Definition cookie_overflow : JsError :=
  Error "Cookie length will exceed browser maximum. Length: 4097".

Definition env_cookie_overflow (net : FetchRequest -> FetchOutcome) (now : Z) : Env :=
  {| SHOP_STOREFRONT_DOMAIN := SHOP_STOREFRONT_DOMAIN (env net now);
     SHOPIFY_API_KEY := SHOPIFY_API_KEY (env net now);
     network := net;
     entropy := entropy (env net now);
     Date_now := now;
     parse_URL := parse_URL (env net now);
     string_to_number := string_to_number (env net now);
     toISOString := toISOString (env net now);
     generate_id := generate_id (env net now);
     getSession := getSession (env net now);
     commitSession := fun _ => inl cookie_overflow;
     destroySession := destroySession (env net now) |}.





Definition request (path : string) (query : URLSearchParams.t)
    (cookie : option string) : Request :=
  {| req_url := {| protocol := "https:"; username := EmptyString;
                   password := EmptyString; authority := true;
                   host := "storefront.example.com";
                   pathname := path; searchParams := query; hash := EmptyString |};
     req_cookie := cookie |}.

Definition world (verifiers : gmap string CodeVerifier)
    (tokens : gmap string CustomerAccessToken) : World :=
  {| codeVerifier := verifiers; customerAccessToken := tokens;
     entropy_used := 0; ids_used := 0; trace := [] |}.

Definition pending : CodeVerifier := {| cv_state := "S"; cv_verifier := "V" |}.

Definition stored (expiresAt : option Z) : CustomerAccessToken :=
  {| tok_id := "token-0"; tok_shop := "shop.example.com";
     tok_accessToken := "tok1"; tok_expiresAt := expiresAt |}.

(** The provider's answers to the token request. *)
Definition refused : FetchOutcome :=
  respond 400 "Bad Request" "invalid_grant" (inr [("error", JStr "invalid_grant")]).

Definition granted (fields : JsObject) : FetchOutcome :=
  respond 200 "OK" EmptyString (inr (("access_token", JStr "tok1") :: fields)).

(** The provider's redirect back with [code=abc&state=S]. *)
Definition callback : Request :=
  request "/customer-account-api/callback" [("code", "abc"); ("state", "S")] None.

(** The store after an initiation under the state [S]. *)
Definition initiated : World := world {[ "S" := pending ]} ∅.

Definition exchange : FetchRequest :=
  {| fr_url := token;
     fr_method := "POST";
     fr_headers := [("Content-Type", "application/x-www-form-urlencoded")];
     fr_body :=
       Some ("grant_type=authorization_code&client_id=client-1"
             +:+ "&redirect_uri=https%3A%2F%2Fstorefront.example.com%2Fcustomer-account-api%2Fcallback"
             +:+ "&code=abc&code_verifier=V") |}.

End Scenario.

(* ===================================================================== *)
(** ** The order-list component: the query sent from the browser *)
(* ===================================================================== *)

(** A JSON document, as [response.json()] resolves it. *)
Unset Elimination Schemes.
Inductive Json :=
| JsonNull
| JsonBool (b : bool)
| JsonNum (n : Z)
| JsonStr (s : string)
| JsonArr (items : list Json)
| JsonObj (fields : list (string * Json)).
Set Elimination Schemes.

(** [v.k] for a value that is not [null]: the property of an object,
    [undefined] ([None]) otherwise. *)
Definition json_member (v : Json) (k : string) : option Json :=
  match v with
  | JsonObj fields =>
      (fix find (l : list (string * Json)) : option Json :=
         match l with
         | [] => None
         | (k', x) :: rest => if String.eqb k' k then Some x else find rest
         end) fields
  | _ => None
  end.

(** ToBoolean of a value that may be [undefined]. *)
Definition json_truthy (v : option Json) : bool :=
  match v with
  | None | Some JsonNull => false
  | Some (JsonBool b) => b
  | Some (JsonNum n) => negb (Z.eqb n 0)
  | Some (JsonStr s) => negb (String.eqb s EmptyString)
  | Some (JsonArr _) | Some (JsonObj _) => true
  end.

(** The response of the API as the browser sees it. *)
Record ApiResponse := {
  api_status : Z;
  api_text : string;
  api_json : JsError + Json
}.

Definition api_ok (r : ApiResponse) : bool :=
  (200 <=? api_status r) && (api_status r <=? 299).

Inductive ApiOutcome :=
| ApiRejected (e : JsError)
| ApiResponded (r : ApiResponse).

(** What the component is given by the browser: its network and
    [JSON.stringify], without and with an indentation of 2. *)
Record Browser := {
  browser_fetch : FetchRequest -> ApiOutcome;
  JSON_stringify : Json -> string;
  JSON_stringify_indented : Json -> string
}.

(** What the component does that can be observed in the browser. *)
Inductive BrowserEvent :=
| BFetch (req : FetchRequest)
| BConsoleLog (v : Json)
| BConsoleError (label : string) (e : JsError).

(** The three state variables of the component. *)
Record OrderListState := {
  customerData : option Json;
  customerApiError : option string;
  isLoadingCustomerData : bool
}.

Module CustomerAccountApiOrderList.

Definition newline : string := String (ascii_of_nat 10) EmptyString.

(** The query of the template literal, line by line. *)
Definition query : string :=
  String.concat newline
    [ EmptyString;
      "                query {";
      "                  customer {";
      "                    id";
      "                    emailAddress {";
      "                      emailAddress";
      "                    }";
      "                    firstName";
      "                    lastName";
      "                    orders(first: 10) {";
      "                      edges {";
      "                        node {";
      "                          id";
      "                          name";
      "                        }";
      "                      }";
      "                    }";
      "                  }";
      "                }";
      "              " ].

Definition setCustomerData (v : Json) (st : OrderListState) : OrderListState :=
  {| customerData := Some v;
     customerApiError := customerApiError st;
     isLoadingCustomerData := isLoadingCustomerData st |}.

Definition setCustomerApiError (msg : string) (st : OrderListState) : OrderListState :=
  {| customerData := customerData st;
     customerApiError := Some msg;
     isLoadingCustomerData := isLoadingCustomerData st |}.

Definition setIsLoadingCustomerData (b : bool) (st : OrderListState) : OrderListState :=
  {| customerData := customerData st;
     customerApiError := customerApiError st;
     isLoadingCustomerData := b |}.

(** The request of [queryCustomerApi]. *)
Definition api_request (browser : Browser) (data : JsObject) : FetchRequest :=
  {| fr_url := js_to_string (get_prop data "graphqlApiUrl");
     fr_method := "POST";
     fr_headers :=
       [ ("Content-Type", "application/json");
         ("Authorization", js_to_string (get_prop data "accessToken")) ];
     fr_body := Some (JSON_stringify browser (JsonObj [("query", JsonStr query)])) |}.

(** [apiResult.data?.customer], for an [apiResult] that is not [null]. *)
Definition optional_customer (apiResult : Json) : option Json :=
  match json_member apiResult "data" with
  | None | Some JsonNull => None
  | Some data => json_member data "customer"
  end.

(** The [catch] block. *)
Definition failed (error : JsError) (st : OrderListState)
  : OrderListState * list BrowserEvent :=
  (setCustomerApiError ("Failed to query Customer Account API: " +:+ message error) st,
   [BConsoleError "Customer API query error:" error]).

(** The [try] block, with the [catch] block applied where it throws. *)
Definition attempt (browser : Browser) (data : JsObject) (st : OrderListState)
  : OrderListState * list BrowserEvent :=
  match browser_fetch browser (api_request browser data) with
  | ApiRejected error => failed error st
  | ApiResponded response =>
      if api_ok response then
        match api_json response with
        | inl error => failed error st
        | inr JsonNull =>
            failed (Error "Cannot read properties of null (reading 'data')") st
        | inr apiResult =>
            let customer := optional_customer apiResult in
            if json_truthy customer then
              match customer with
              | Some c => (setCustomerData c st, [BConsoleLog c])
              | None => (st, [])
              end
            else if json_truthy (json_member apiResult "errors") then
              match json_member apiResult "errors" with
              | Some errors =>
                  (setCustomerApiError (JSON_stringify_indented browser errors) st, [])
              | None => (st, [])
              end
            else (st, [])
        end
      else
        let errorText := api_text response in
        (setCustomerApiError
           ("API request failed: " +:+ pretty (api_status response)
            +:+ " - " +:+ errorText) st,
         [])
  end.

(** [queryCustomerApi]: the request, what the [try] and [catch] blocks do
    with its outcome, and the [finally] block. *)
Definition queryCustomerApi (browser : Browser) (data : JsObject) (st : OrderListState)
  : OrderListState * list BrowserEvent :=
  let '(st', events) := attempt browser data st in
  (setIsLoadingCustomerData false st', BFetch (api_request browser data) :: events).

(** The effect: it runs the query when the loader's data has a truthy
    [success] and a truthy [accessToken]. *)
Definition effect (browser : Browser) (data : JsObject) (st : OrderListState)
  : OrderListState * list BrowserEvent :=
  if truthy (get_prop data "success") && truthy (get_prop data "accessToken") then
    queryCustomerApi browser data (setIsLoadingCustomerData true st)
  else (st, []).

(** The state of [useState(null)], [useState(null)], [useState(false)]. *)
Definition initial : OrderListState :=
  {| customerData := None; customerApiError := None; isLoadingCustomerData := false |}.

End CustomerAccountApiOrderList.

(** A browser for the scenario: its network gives [outcome] to every
    request. *)
Module Page.

Definition browser (outcome : ApiOutcome) : Browser :=
  {| browser_fetch := fun _ => outcome;
     JSON_stringify := fun _ => "{..}";
     JSON_stringify_indented := fun _ => "[..]" |}.

Definition answered (st : Z) (text : string) (doc : Json) : ApiOutcome :=
  ApiResponded {| api_status := st; api_text := text; api_json := inr doc |}.

Definition customer : Json :=
  JsonObj [("id", JsonStr "gid://shopify/Customer/1"); ("firstName", JsonStr "Ada")].

(** The data of a successful order-list loader. *)
Definition data : JsObject :=
  [ ("success", JBool true); ("tokenId", JStr "token-0");
    ("accessToken", JStr "tok1"); ("shop", JStr "shop.example.com");
    ("graphqlApiUrl", JStr "https://shopify.com/1/account/customer/api/graphql");
    ("expiresAt", JUndefined) ].

End Page.

Definition is_browser_fetch (ev : BrowserEvent) : bool :=
  match ev with
  | BFetch _ => true
  | _ => false
  end.

(* ===================================================================== *)
(** ** Notions used to state what the loaders keep and what they emit *)
(* ===================================================================== *)

(** A character of the URL-safe base64 alphabet: a letter, a digit, the
    hyphen or the underscore. *)
Definition is_base64url_char (c : ascii) : bool :=
  let n := nat_of_ascii c in
  ((48 <=? n) && (n <=? 57) || (65 <=? n) && (n <=? 90)
   || (97 <=? n) && (n <=? 122) || (n =? 45) || (n =? 95))%nat.

Fixpoint base64url_string (s : string) : bool :=
  match s with
  | EmptyString => true
  | String c rest => is_base64url_char c && base64url_string rest
  end.

(** An event that asks the database to add or remove a row. *)
Definition is_database_write_event (ev : Event) : bool :=
  match ev with
  | ECodeVerifierCreate _ _ | ECodeVerifierDelete _ | ETokenCreate _ _ _ => true
  | _ => false
  end.

(** The provider grants the exchange of a callback: the request carries
    a code and a state, the state has a row in the store, the discovery
    document and the token endpoint both answer with a success status and
    a JSON document, the token document [tokenData] holds the string
    [secret] as its [access_token], and the next id is not in use. *)
Definition exchange_granted (env : Env) (request : Request) (w : World)
    (code state : string) (record : CodeVerifier)
    (tokenData : JsObject) (secret : string) : Prop :=
  URLSearchParams.get "code" (searchParams (req_url request)) = Some code
  /\ code <> EmptyString
  /\ URLSearchParams.get "state" (searchParams (req_url request)) = Some state
  /\ state <> EmptyString
  /\ codeVerifier w !! state = Some record
  /\ (exists (r1 r2 : FetchResponse) (cfg : JsObject),
        network env (GET (openid_configuration_url env)) = Responded r1
        /\ ok r1 = true
        /\ body_json r1 = inr cfg
        /\ network env
             (token_request env (get_prop cfg "token_endpoint")
                (callback_url (req_url request)) code (cv_verifier record))
           = Responded r2
        /\ ok r2 = true
        /\ body_json r2 = inr tokenData)
  /\ get_prop tokenData "access_token" = JStr secret
  /\ customerAccessToken w !! generate_id env (ids_used w) = None.

(** What a hash object holds once the octets [msg] have been given to it. *)
Definition holds (h : crypto.Hash) (msg : Buffer.t) : Prop :=
  exists (k : nat) (full : Buffer.t),
    msg = full ++ crypto.buffered h
    /\ length full = (64 * k)%nat
    /\ (length (crypto.buffered h) < 64)%nat
    /\ crypto.chaining h
       = SHA256.blocks k SHA256.H0
           (SHA256.words_of_bytes (map Buffer.byte_to_Z full))
    /\ crypto.absorbed h = Z.of_nat (length msg).

(** The 256 values of an octet. *)
Definition octets : list Z := map Z.of_nat (seq 0 256).

(* ===================================================================== *)
(** * Properties *)
(* ===================================================================== *)

(** ** The platform functions on known inputs *)

Example sha256_abc :
  Buffer.to_hex (SHA256.digest (Buffer.from_string "abc"))
  = "ba7816bf8f01cfea414140de5dae2223b00361a396177a9cb410ff61f20015ad".
Proof. vm_compute. reflexivity. Qed.

Example sha256_two_blocks :
  Buffer.to_hex
    (SHA256.digest
       (Buffer.from_string "abcdbcdecdefdefgefghfghighijhijkijkljklmklmnlmnomnopnopq"))
  = "248d6a61d20638b8e5c026930c3e6039a33ce45964ff2167f6ecedd419db06c1".
Proof. vm_compute. reflexivity. Qed.

Example base64url_tails :
  Buffer.to_base64url (Buffer.from_string "f") = "Zg"
  /\ Buffer.to_base64url (Buffer.from_string "fo") = "Zm8"
  /\ Buffer.to_base64url (Buffer.from_string "foo") = "Zm9v"
  /\ Buffer.to_base64url (Buffer.from_string "foob") = "Zm9vYg".
Proof. repeat split. Qed.

(** The verifier and challenge of RFC 7636, appendix B. *)
Example rfc7636_appendix_B :
  generateCodeChallenge "dBjftJeZ4CVP-mB92K27uhbUJU1p1r_wW1gFWFOEjXk"
  = "E9Melhoa2OwvFrEMTJguCHaoeK1t8URWbuGJSstw-cM".
Proof. vm_compute. reflexivity. Qed.

Example set_replaces_first_and_drops_others :
  URLSearchParams.set "a" "9" [("a", "1"); ("b", "2"); ("a", "3")]
  = [("a", "9"); ("b", "2")].
Proof. reflexivity. Qed.

Example encode_form :
  URLSearchParams.toString
    [("scope", "openid email customer-account-api:full"); ("redirect_uri", "https://h/cb")]
  = "scope=openid+email+customer-account-api%3Afull&redirect_uri=https%3A%2F%2Fh%2Fcb".
Proof. reflexivity. Qed.

(** ** Running a loader step by step *)

Lemma present_Some (s : string) : s <> EmptyString -> present (Some s) = true.
Proof.
  intros Hs. simpl. destruct (String.eqb_spec s EmptyString); [contradiction | reflexivity].
Qed.

Lemma events_since_log (w : World) (evs : list Event) (w' : World) :
  trace w' = trace w ++ evs -> events_since w w' = evs.
Proof.
  unfold events_since. intros ->.
  rewrite skipn_app, skipn_all, Nat.sub_diag. reflexivity.
Qed.

(** The events of a run whose final world is written out. *)
Ltac events_of_run :=
  apply events_since_log;
  cbn [console_error log trace];
  repeat rewrite <- app_assoc;
  reflexivity.

Lemma events_since_console_error (w : World) (label : string) (e : JsError) :
  events_since w (console_error label e w) = [EConsoleError label e].
Proof. apply events_since_log. reflexivity. Qed.

Lemma fetch_responded (env : Env) (req : FetchRequest) (r : FetchResponse) (w : World) :
  network env req = Responded r ->
  fetch env req w = (Return r, log (EFetch req) w).
Proof. intros H. unfold fetch. rewrite H. reflexivity. Qed.

Lemma fetch_rejected (env : Env) (req : FetchRequest) (e : JsError) (w : World) :
  network env req = Rejected e ->
  fetch env req w = (Throw e, log (EFetch req) w).
Proof. intros H. unfold fetch. rewrite H. reflexivity. Qed.

(** ** The callback's guards *)

Lemma callback_not_present (env : Env) (request : Request) (w : World) :
  present (URLSearchParams.get "code" (searchParams (req_url request))) = false
  \/ present (URLSearchParams.get "state" (searchParams (req_url request))) = false ->
  Callback.loader env request w
  = (Data [("success", JBool false); ("error", JStr "Missing code or state parameter")],
     console_error "Error in callback:" (Error "Missing code or state parameter") w).
Proof.
  intros H. unfold Callback.loader, try_catch, Callback.body.
  destruct H as [-> | ->]; simpl.
  - reflexivity.
  - rewrite orb_true_r. reflexivity.
Qed.

(** C8. A callback request without the [code] parameter or without the
    [state] parameter returns [{success:false, error:"Missing code or state
    parameter"}]; the run leaves both tables as they were and its only
    event is the [console.error] of the handler: no verifier is looked up
    or deleted and no token is created. *)
Theorem callback_missing_parameter (env : Env) (request : Request) (w : World) :
  URLSearchParams.get "code" (searchParams (req_url request)) = None
  \/ URLSearchParams.get "state" (searchParams (req_url request)) = None ->
  let '(response, w') := Callback.loader env request w in
  response
  = Data [("success", JBool false); ("error", JStr "Missing code or state parameter")]
  /\ codeVerifier w' = codeVerifier w
  /\ customerAccessToken w' = customerAccessToken w
  /\ events_since w w'
     = [EConsoleError "Error in callback:" (Error "Missing code or state parameter")]
  /\ List.filter is_database_event (events_since w w') = [].
Proof.
  intros H. rewrite callback_not_present.
  - rewrite events_since_console_error. repeat split; reflexivity.
  - destruct H as [-> | ->]; [left | right]; reflexivity.
Qed.

Lemma callback_missing_parameter_witness :
  let '(response, w') :=
    Callback.loader (Scenario.env Scenario.provider_down 0)
      (Scenario.request "/customer-account-api/callback" [("state", "S")] None)
      (Scenario.world {[ "S" := Scenario.pending ]} ∅) in
  response
  = Data [("success", JBool false); ("error", JStr "Missing code or state parameter")]
  /\ codeVerifier w' = {[ "S" := Scenario.pending ]}
  /\ customerAccessToken w' = ∅
  /\ events_since (Scenario.world {[ "S" := Scenario.pending ]} ∅) w'
     = [EConsoleError "Error in callback:" (Error "Missing code or state parameter")]
  /\ List.filter is_database_event
       (events_since (Scenario.world {[ "S" := Scenario.pending ]} ∅) w') = [].
Proof.
  exact (callback_missing_parameter (Scenario.env Scenario.provider_down 0)
           (Scenario.request "/customer-account-api/callback" [("state", "S")] None)
           (Scenario.world {[ "S" := Scenario.pending ]} ∅)
           (or_introl eq_refl)).
Defined.

(** C2. A callback request that carries a code and a state for which the
    CodeVerifier table has no row fails with the invalid-state error; the
    run creates no CustomerAccessToken row, and after the verifier lookup
    its only event is the handler's [console.error]: no request is sent to
    the provider and no token is persisted. *)
Theorem callback_unknown_state (env : Env) (request : Request) (w : World)
    (code state : string) :
  URLSearchParams.get "code" (searchParams (req_url request)) = Some code ->
  code <> EmptyString ->
  URLSearchParams.get "state" (searchParams (req_url request)) = Some state ->
  state <> EmptyString ->
  codeVerifier w !! state = None ->
  let '(response, w') := Callback.loader env request w in
  response
  = Data [ ("success", JBool false);
           ("error", JStr "Invalid state parameter or code verifier not found") ]
  /\ customerAccessToken w' = customerAccessToken w
  /\ codeVerifier w' = codeVerifier w
  /\ events_since w w'
     = [ ECodeVerifierFindUnique state;
         EConsoleError "Error in callback:"
           (Error "Invalid state parameter or code verifier not found") ]
  /\ List.filter is_fetch_event (events_since w w') = []
  /\ List.filter is_token_create_event (events_since w w') = [].
Proof.
  intros Hcode Hc Hstate Hs Hnone.
  set (e := Error "Invalid state parameter or code verifier not found").
  assert (Hrun : Callback.loader env request w
                 = (Data [("success", JBool false); ("error", JStr (message e))],
                    console_error "Error in callback:" e
                      (log (ECodeVerifierFindUnique state) w))).
  { unfold Callback.loader, try_catch, Callback.body.
    rewrite Hcode, Hstate, (present_Some code Hc), (present_Some state Hs).
    cbn [negb orb the_string].
    unfold bind, codeVerifier_findUnique. cbn [log codeVerifier].
    rewrite Hnone. reflexivity. }
  rewrite Hrun.
  assert (Hev : events_since w
                  (console_error "Error in callback:" e
                     (log (ECodeVerifierFindUnique state) w))
                = [ECodeVerifierFindUnique state; EConsoleError "Error in callback:" e]).
  { events_of_run. }
  rewrite Hev. repeat split; reflexivity.
Qed.

Lemma callback_unknown_state_witness :
  let '(response, w') :=
    Callback.loader (Scenario.env (Scenario.provider (Rejected (Error "fetch failed"))) 0)
      (Scenario.request "/customer-account-api/callback"
         [("code", "abc"); ("state", "forged")] None)
      (Scenario.world {[ "S" := Scenario.pending ]} ∅) in
  response
  = Data [ ("success", JBool false);
           ("error", JStr "Invalid state parameter or code verifier not found") ]
  /\ customerAccessToken w' = ∅
  /\ codeVerifier w' = {[ "S" := Scenario.pending ]}
  /\ events_since (Scenario.world {[ "S" := Scenario.pending ]} ∅) w'
     = [ ECodeVerifierFindUnique "forged";
         EConsoleError "Error in callback:"
           (Error "Invalid state parameter or code verifier not found") ]
  /\ List.filter is_fetch_event
       (events_since (Scenario.world {[ "S" := Scenario.pending ]} ∅) w') = []
  /\ List.filter is_token_create_event
       (events_since (Scenario.world {[ "S" := Scenario.pending ]} ∅) w') = [].
Proof.
  refine (callback_unknown_state
            (Scenario.env (Scenario.provider (Rejected (Error "fetch failed"))) 0)
            (Scenario.request "/customer-account-api/callback"
               [("code", "abc"); ("state", "forged")] None)
            (Scenario.world {[ "S" := Scenario.pending ]} ∅)
            "abc" "forged" eq_refl _ eq_refl _ _).
  - discriminate.
  - discriminate.
  - vm_compute. reflexivity.
Defined.

(** ** Initiation when discovery fails *)

(** C7. When the discovery fetch of the initiation answers with a status
    outside 200-299, the loader returns an error payload whose message
    contains the status text of the answer, issues no redirect and leaves
    the CodeVerifier table as it was: the only events are the fetch and
    the handler's [console.error]. *)
Theorem auth_discovery_failure (env : Env) (request : Request) (w : World)
    (r : FetchResponse) :
  network env (GET (openid_configuration_url env)) = Responded r ->
  ok r = false ->
  let '(response, w') := Auth.loader env request w in
  response
  = Data [("error", JStr ("Failed to fetch OpenID configuration: " +:+ statusText r))]
  /\ (forall location headers, response <> Redirect location headers)
  /\ codeVerifier w' = codeVerifier w
  /\ events_since w w'
     = [ EFetch (GET (openid_configuration_url env));
         EConsoleError "Error generating auth URL:"
           (Error ("Failed to fetch OpenID configuration: " +:+ statusText r)) ].
Proof.
  intros Hnet Hok.
  set (e := Error ("Failed to fetch OpenID configuration: " +:+ statusText r)).
  assert (Hrun : Auth.loader env request w
                 = (Data [("error", JStr (message e))],
                    console_error "Error generating auth URL:" e
                      (log (EFetch (GET (openid_configuration_url env))) w))).
  { unfold Auth.loader, try_catch, Auth.body, bind.
    rewrite (fetch_responded _ _ _ _ Hnet), Hok. reflexivity. }
  rewrite Hrun. repeat split; try reflexivity.
  - discriminate.
  - events_of_run.
Qed.

Lemma auth_discovery_failure_witness :
  let '(response, w') :=
    Auth.loader (Scenario.env Scenario.provider_down 0)
      (Scenario.request "/customer-account-api/auth" [] None)
      (Scenario.world ∅ ∅) in
  response
  = Data [("error", JStr "Failed to fetch OpenID configuration: Internal Server Error")]
  /\ (forall location headers, response <> Redirect location headers)
  /\ codeVerifier w' = ∅
  /\ events_since (Scenario.world ∅ ∅) w'
     = [ EFetch (GET "https://shop.example.com/.well-known/openid-configuration");
         EConsoleError "Error generating auth URL:"
           (Error "Failed to fetch OpenID configuration: Internal Server Error") ].
Proof.
  exact (auth_discovery_failure (Scenario.env Scenario.provider_down 0)
           (Scenario.request "/customer-account-api/auth" [] None)
           (Scenario.world ∅ ∅)
           {| status := 500; statusText := "Internal Server Error";
              body_text := EmptyString;
              body_json := inl (Error "Unexpected end of JSON input") |}
           eq_refl eq_refl).
Defined.

(** ** The order list and the token's expiry *)

(** A run of the order-list loader that finds the session's token and
    finds it expired. *)
Lemma order_list_run_expired (env : Env) (request : Request) (w : World)
    (id : string) (t : CustomerAccessToken) :
  getCustomerTokenId env request = Some id ->
  id <> EmptyString ->
  customerAccessToken w !! id = Some t ->
  expired env t = true ->
  OrderList.loader env request w
  = (Data [("success", JBool false); ("error", JStr (message expired_error))],
     console_error "Error loading access token:" expired_error
       (log (ETokenFindUnique id) w)).
Proof.
  intros Hsession Hid Hfound Hexp.
  unfold OrderList.loader, try_catch, OrderList.body.
  rewrite Hsession, (present_Some id Hid). cbn [negb the_string].
  unfold bind, customerAccessToken_findUnique. cbn [log customerAccessToken].
  rewrite Hfound, Hexp. reflexivity.
Qed.

(** A run that finds the token not expired and reaches the provider. *)
Lemma order_list_run_accepted (env : Env) (request : Request) (w : World)
    (id : string) (t : CustomerAccessToken) (r : FetchResponse) (cfg : JsObject) :
  getCustomerTokenId env request = Some id ->
  id <> EmptyString ->
  customerAccessToken w !! id = Some t ->
  network env (GET (customer_account_api_url env)) = Responded r ->
  ok r = true ->
  body_json r = inr cfg ->
  expired env t = false ->
  OrderList.loader env request w
  = (Data (order_list_data env t (get_prop cfg "graphql_api")),
     log (EFetch (GET (customer_account_api_url env))) (log (ETokenFindUnique id) w)).
Proof.
  intros Hsession Hid Hfound Hnet Hok Hjson Hexp.
  unfold OrderList.loader, try_catch, OrderList.body.
  rewrite Hsession, (present_Some id Hid). cbn [negb the_string].
  unfold bind, customerAccessToken_findUnique. cbn [log customerAccessToken].
  rewrite Hfound, Hexp.
  rewrite (fetch_responded _ _ _ _ Hnet), Hok. cbn [negb].
  unfold response_json. rewrite Hjson. reflexivity.
Qed.

Lemma expired_iff (env : Env) (t : CustomerAccessToken) :
  expired env t = true <-> exists e, tok_expiresAt t = Some e /\ e < Date_now env.
Proof.
  unfold expired. destruct (tok_expiresAt t) as [e |].
  - rewrite Z.gtb_lt. split.
    + intros H. exists e. split; [reflexivity | exact H].
    + intros (e' & [= <-] & H). exact H.
  - split; [discriminate | intros (e' & [=] & _)].
Qed.

Lemma not_expired_iff (env : Env) (t : CustomerAccessToken) :
  expired env t = false
  <-> tok_expiresAt t = None \/ exists e, tok_expiresAt t = Some e /\ Date_now env <= e.
Proof.
  unfold expired. destruct (tok_expiresAt t) as [e |].
  - rewrite Z.gtb_ltb, Z.ltb_ge. split.
    + intros H. right. exists e. split; [reflexivity | exact H].
    + intros [[=] | (e' & [= <-] & H)]. exact H.
  - split; [intros _; left; reflexivity | reflexivity].
Qed.

(** C4. When the session's token is in the store with an [expiresAt]
    strictly before the current time, the order-list loader returns
    [{success:false, error:"Access token has expired"}], which carries no
    access token; the provider is not contacted and the row is still in
    the store afterwards. *)
Theorem order_list_rejects_expired (env : Env) (request : Request) (w : World)
    (id : string) (t : CustomerAccessToken) (e : Z) :
  getCustomerTokenId env request = Some id ->
  id <> EmptyString ->
  customerAccessToken w !! id = Some t ->
  tok_expiresAt t = Some e ->
  e < Date_now env ->
  let '(response, w') := OrderList.loader env request w in
  response = Data [("success", JBool false); ("error", JStr "Access token has expired")]
  /\ (forall obj, response = Data obj -> get_prop obj "accessToken" = JUndefined)
  /\ customerAccessToken w' = customerAccessToken w
  /\ customerAccessToken w' !! id = Some t
  /\ events_since w w'
     = [ ETokenFindUnique id;
         EConsoleError "Error loading access token:" (Error "Access token has expired") ].
Proof.
  intros Hsession Hid Hfound Hexp Hlt.
  rewrite (order_list_run_expired env request w id t Hsession Hid Hfound).
  - repeat split.
    + intros obj [= <-]. reflexivity.
    + exact Hfound.
    + events_of_run.
  - apply expired_iff. exists e. split; assumption.
Qed.

Lemma order_list_rejects_expired_witness :
  let '(response, w') :=
    OrderList.loader
      (Scenario.env (Scenario.provider (Rejected (Error "fetch failed"))) 1700000000000)
      (Scenario.request "/customer-account-api/order-list" [] (Some "token-0"))
      (Scenario.world ∅ {[ "token-0" := Scenario.stored (Some 1699999999999) ]}) in
  response = Data [("success", JBool false); ("error", JStr "Access token has expired")]
  /\ (forall obj, response = Data obj -> get_prop obj "accessToken" = JUndefined)
  /\ customerAccessToken w' = {[ "token-0" := Scenario.stored (Some 1699999999999) ]}
  /\ customerAccessToken w' !! "token-0" = Some (Scenario.stored (Some 1699999999999))
  /\ events_since
       (Scenario.world ∅ {[ "token-0" := Scenario.stored (Some 1699999999999) ]}) w'
     = [ ETokenFindUnique "token-0";
         EConsoleError "Error loading access token:" (Error "Access token has expired") ].
Proof.
  refine (order_list_rejects_expired
            (Scenario.env (Scenario.provider (Rejected (Error "fetch failed"))) 1700000000000)
            (Scenario.request "/customer-account-api/order-list" [] (Some "token-0"))
            (Scenario.world ∅ {[ "token-0" := Scenario.stored (Some 1699999999999) ]})
            "token-0" (Scenario.stored (Some 1699999999999)) 1699999999999
            _ _ _ eq_refl _).
  - vm_compute. reflexivity.
  - discriminate.
  - vm_compute. reflexivity.
  - reflexivity.
Defined.

(** C10. The expiry check of the order-list loader is strict.  With the
    session's token in the store and the provider's discovery document
    served: a token whose [expiresAt] is null and a token whose
    [expiresAt] is the current instant are handed to the component;
    the expired-token error is returned exactly when [expiresAt] is not
    null and the current time is strictly greater; in every other case
    the token is handed over. *)
Theorem order_list_expiry_is_strict (env : Env) (request : Request) (w : World)
    (id : string) (t : CustomerAccessToken) (r : FetchResponse) (cfg : JsObject) :
  getCustomerTokenId env request = Some id ->
  id <> EmptyString ->
  customerAccessToken w !! id = Some t ->
  network env (GET (customer_account_api_url env)) = Responded r ->
  ok r = true ->
  body_json r = inr cfg ->
  let '(response, _) := OrderList.loader env request w in
  let handed_over := Data (order_list_data env t (get_prop cfg "graphql_api")) in
  let rejected :=
    Data [("success", JBool false); ("error", JStr "Access token has expired")] in
  (tok_expiresAt t = None -> response = handed_over)
  /\ (tok_expiresAt t = Some (Date_now env) -> response = handed_over)
  /\ (response = rejected
      <-> exists e, tok_expiresAt t = Some e /\ e < Date_now env)
  /\ (response = handed_over
      <-> tok_expiresAt t = None
          \/ exists e, tok_expiresAt t = Some e /\ Date_now env <= e).
Proof.
  intros Hsession Hid Hfound Hnet Hok Hjson.
  destruct (expired env t) eqn:Hexp.
  - rewrite (order_list_run_expired env request w id t Hsession Hid Hfound Hexp).
    cbn zeta.
    pose proof (proj1 (expired_iff env t) Hexp) as (e & He & Hlt).
    repeat split.
    + intros Hnone. rewrite Hnone in He. discriminate.
    + intros Hnow. rewrite Hnow in He. injection He as <-. lia.
    + intros _. exists e. split; assumption.
    + discriminate.
    + intros [Hnone | (e' & He' & Hle)].
      * rewrite Hnone in He. discriminate.
      * rewrite He' in He. injection He as <-. lia.
  - rewrite (order_list_run_accepted env request w id t r cfg
               Hsession Hid Hfound Hnet Hok Hjson Hexp).
    cbn zeta.
    repeat split; try reflexivity.
    + discriminate.
    + intros Hex. apply expired_iff in Hex. rewrite Hex in Hexp. discriminate.
    + intros _. apply not_expired_iff. exact Hexp.
Qed.

Lemma order_list_expiry_is_strict_witness :
  let '(response, _) :=
    OrderList.loader
      (Scenario.env (Scenario.provider (Rejected (Error "fetch failed"))) 1700000000000)
      (Scenario.request "/customer-account-api/order-list" [] (Some "token-0"))
      (Scenario.world ∅ {[ "token-0" := Scenario.stored (Some 1700000000000) ]}) in
  let handed_over :=
    Data [ ("success", JBool true); ("tokenId", JStr "token-0");
           ("accessToken", JStr "tok1"); ("shop", JStr "shop.example.com");
           ("graphqlApiUrl", JStr "https://shopify.com/1/account/customer/api/graphql");
           ("expiresAt", JStr "1700000000000") ] in
  let rejected :=
    Data [("success", JBool false); ("error", JStr "Access token has expired")] in
  (Some 1700000000000 = None -> response = handed_over)
  /\ (Some 1700000000000 = Some 1700000000000 -> response = handed_over)
  /\ (response = rejected
      <-> exists e, Some 1700000000000 = Some e /\ e < 1700000000000)
  /\ (response = handed_over
      <-> Some 1700000000000 = None
          \/ exists e, Some 1700000000000 = Some e /\ 1700000000000 <= e).
Proof.
  refine (order_list_expiry_is_strict
            (Scenario.env (Scenario.provider (Rejected (Error "fetch failed"))) 1700000000000)
            (Scenario.request "/customer-account-api/order-list" [] (Some "token-0"))
            (Scenario.world ∅ {[ "token-0" := Scenario.stored (Some 1700000000000) ]})
            "token-0" (Scenario.stored (Some 1700000000000))
            {| status := 200; statusText := "OK"; body_text := EmptyString;
               body_json :=
                 inr [("graphql_api",
                       JStr "https://shopify.com/1/account/customer/api/graphql")] |}
            [("graphql_api", JStr "https://shopify.com/1/account/customer/api/graphql")]
            _ _ _ eq_refl eq_refl eq_refl).
  - vm_compute. reflexivity.
  - discriminate.
  - vm_compute. reflexivity.
Defined.

(** A token whose [expiresAt] is the current instant is handed over. *)
Example order_list_at_the_instant :
  fst (OrderList.loader
         (Scenario.env (Scenario.provider (Rejected (Error "fetch failed"))) 1700000000000)
         (Scenario.request "/customer-account-api/order-list" [] (Some "token-0"))
         (Scenario.world ∅ {[ "token-0" := Scenario.stored (Some 1700000000000) ]}))
  = Data [ ("success", JBool true); ("tokenId", JStr "token-0");
           ("accessToken", JStr "tok1"); ("shop", JStr "shop.example.com");
           ("graphqlApiUrl", JStr "https://shopify.com/1/account/customer/api/graphql");
           ("expiresAt", JStr "1700000000000") ].
Proof. vm_compute. reflexivity. Qed.

(** ** URLSearchParams *)

Lemma getAll_remove_same (name : string) (l : URLSearchParams.t) :
  URLSearchParams.getAll name (URLSearchParams.remove name l) = [].
Proof.
  unfold URLSearchParams.getAll, URLSearchParams.remove.
  induction l as [| [n v] rest IH]; [reflexivity |].
  cbn [List.filter fst]. destruct (String.eqb n name) eqn:E; cbn [negb].
  - exact IH.
  - cbn [List.filter fst]. rewrite E. exact IH.
Qed.

Lemma getAll_remove_other (name other : string) (l : URLSearchParams.t) :
  String.eqb other name = false ->
  URLSearchParams.getAll name (URLSearchParams.remove other l)
  = URLSearchParams.getAll name l.
Proof.
  intros Hne. unfold URLSearchParams.getAll, URLSearchParams.remove.
  induction l as [| [n v] rest IH]; [reflexivity |].
  cbn [List.filter fst]. destruct (String.eqb n other) eqn:E; cbn [negb].
  - apply String.eqb_eq in E. subst n. rewrite Hne. exact IH.
  - cbn [List.filter fst]. destruct (String.eqb n name); cbn [map snd]; rewrite IH; reflexivity.
Qed.

(** After [set(n, v)] the name [n] has the single value [v] and every
    other name has the values it had. *)
Lemma getAll_set (name n v : string) (l : URLSearchParams.t) :
  URLSearchParams.getAll name (URLSearchParams.set n v l)
  = if String.eqb n name then [v] else URLSearchParams.getAll name l.
Proof.
  induction l as [| [n' v'] rest IH].
  - unfold URLSearchParams.getAll. cbn. destruct (String.eqb n name); reflexivity.
  - cbn [URLSearchParams.set]. destruct (String.eqb n' n) eqn:E.
    + apply String.eqb_eq in E. subst n'.
      destruct (String.eqb n name) eqn:En.
      * apply String.eqb_eq in En. subst n.
        unfold URLSearchParams.getAll at 1. cbn [List.filter fst].
        rewrite String.eqb_refl. cbn [map snd].
        fold (URLSearchParams.getAll name (URLSearchParams.remove name rest)).
        rewrite getAll_remove_same. reflexivity.
      * unfold URLSearchParams.getAll at 1 2. cbn [List.filter fst]. rewrite En.
        fold (URLSearchParams.getAll name (URLSearchParams.remove n rest)).
        fold (URLSearchParams.getAll name rest).
        apply getAll_remove_other. exact En.
    + unfold URLSearchParams.getAll at 1. cbn [List.filter fst].
      destruct (String.eqb n' name) eqn:En'.
      * cbn [map snd].
        fold (URLSearchParams.getAll name (URLSearchParams.set n v rest)).
        rewrite IH. destruct (String.eqb n name) eqn:En.
        -- apply String.eqb_eq in En. apply String.eqb_eq in En'. subst.
           rewrite String.eqb_refl in E. discriminate.
        -- unfold URLSearchParams.getAll. cbn [List.filter fst]. rewrite En'. reflexivity.
      * fold (URLSearchParams.getAll name (URLSearchParams.set n v rest)).
        rewrite IH. destruct (String.eqb n name); [reflexivity |].
        unfold URLSearchParams.getAll. cbn [List.filter fst]. rewrite En'. reflexivity.
Qed.

(** ** The redirect of a successful initiation *)

(** A run of the initiation in which every step succeeds: the verifier is
    drawn from the next 32 octets of the random source and the state from
    the 16 after them. *)
Lemma auth_run_redirect (env : Env) (request : Request) (w : World)
    (r : FetchResponse) (cfg : JsObject) (endpoint : URL) :
  network env (GET (openid_configuration_url env)) = Responded r ->
  ok r = true ->
  body_json r = inr cfg ->
  parse_URL env (js_to_string (get_prop cfg "authorization_endpoint")) = Some endpoint ->
  let verifier := Buffer.to_base64url (map (entropy env) (seq (entropy_used w) 32)) in
  let state := Buffer.to_base64url (map (entropy env) (seq (entropy_used w + 32) 16)) in
  codeVerifier w !! state = None ->
  Auth.loader env request w
  = (Redirect
       (URL_toString
          (fold_left (fun u p => URL_set_param (fst p) (snd p) u)
             (authorization_parameters env request state (generateCodeChallenge verifier))
             endpoint))
       [],
     {| codeVerifier :=
          <[state := {| cv_state := state; cv_verifier := verifier |}]> (codeVerifier w);
        customerAccessToken := customerAccessToken w;
        entropy_used := (entropy_used w + 32 + 16)%nat;
        ids_used := ids_used w;
        trace := trace w ++ [ EFetch (GET (openid_configuration_url env));
                              ECodeVerifierCreate state verifier ] |}).
Proof.
  intros Hnet Hok Hjson Hparse verifier state Hfresh.
  unfold Auth.loader, try_catch, Auth.body, bind.
  rewrite (fetch_responded _ _ _ _ Hnet), Hok. cbn [negb].
  unfold response_json. rewrite Hjson.
  unfold generateCodeVerifier, generateState, bind, randomBytes, ret, crypto.encode.
  cbn [log entropy_used codeVerifier customerAccessToken ids_used trace].
  fold verifier. fold state.
  unfold codeVerifier_create.
  cbn [log entropy_used codeVerifier customerAccessToken ids_used trace].
  rewrite Hfresh.
  unfold new_URL. rewrite Hparse.
  cbn [fold_left authorization_parameters fst snd].
  rewrite <- app_assoc. reflexivity.
Qed.




(** The redirect of the scenario, as the browser receives it. *)
Example auth_redirect_location :
  fst (Auth.loader (Scenario.env (Scenario.provider (Rejected (Error "fetch failed"))) 0)
         (Scenario.request "/customer-account-api/auth" [] None)
         (Scenario.world ∅ ∅))
  = Redirect
      ("https://shopify.com/authentication/1/oauth/authorize"
       +:+ "?client_id=client-1&response_type=code"
       +:+ "&redirect_uri=https%3A%2F%2Fstorefront.example.com%2Fcustomer-account-api%2Fcallback"
       +:+ "&scope=openid+email+customer-account-api%3Afull"
       +:+ "&state=q9D1Gj9kia7T-B1CZ4yx1g"
       +:+ "&code_challenge=F-83crhCIQCO17sRSfkFanE5VeZRT-XclLYfcgKs150"
       +:+ "&code_challenge_method=S256")
      [].
Proof. vm_compute. reflexivity. Qed.

(** An endpoint that comes with a query of its own keeps it, and a
    parameter of the endpoint named as one of the seven is overwritten. *)
Example set_on_endpoint_with_query :
  fold_left (fun l p => URLSearchParams.set (fst p) (snd p) l)
    [("client_id", "client-1"); ("response_type", "code")]
    [("locale", "en"); ("client_id", "other")]
  = [("locale", "en"); ("client_id", "client-1"); ("response_type", "code")].
Proof. reflexivity. Qed.

(** ** The callback from lookup to redirect *)

(** The row that a successful exchange persists. *)
Lemma callback_run_success (env : Env) (request : Request) (w : World)
    (code state secret : string) (record : CodeVerifier)
    (r1 r2 : FetchResponse) (cfg tokenData : JsObject) (expiresAt : option Z) :
  URLSearchParams.get "code" (searchParams (req_url request)) = Some code ->
  code <> EmptyString ->
  URLSearchParams.get "state" (searchParams (req_url request)) = Some state ->
  state <> EmptyString ->
  codeVerifier w !! state = Some record ->
  network env (GET (openid_configuration_url env)) = Responded r1 ->
  ok r1 = true ->
  body_json r1 = inr cfg ->
  network env
    (token_request env (get_prop cfg "token_endpoint") (callback_url (req_url request))
       code (cv_verifier record)) = Responded r2 ->
  ok r2 = true ->
  body_json r2 = inr tokenData ->
  get_prop tokenData "access_token" = JStr secret ->
  calculate_expiration env tokenData = option_map Some expiresAt ->
  customerAccessToken w !! generate_id env (ids_used w) = None ->
  let id := generate_id env (ids_used w) in
  let row := {| tok_id := id; tok_shop := SHOP_STOREFRONT_DOMAIN env;
                tok_accessToken := secret; tok_expiresAt := expiresAt |} in
  Callback.loader env request w
  = (callback_answer env request id,
     {| codeVerifier := delete state (codeVerifier w);
        customerAccessToken := <[id := row]> (customerAccessToken w);
        entropy_used := entropy_used w;
        ids_used := S (ids_used w);
        trace :=
          trace w
          ++ [ ECodeVerifierFindUnique state;
               EFetch (GET (openid_configuration_url env));
               EFetch (token_request env (get_prop cfg "token_endpoint")
                         (callback_url (req_url request)) code (cv_verifier record));
               ETokenCreate (SHOP_STOREFRONT_DOMAIN env) (JStr secret)
                 (option_map Some expiresAt);
               ECodeVerifierDelete state ]
          ++ callback_report env request id |}).
Proof.
  intros Hcode Hc Hstate Hs Hfound Hnet1 Hok1 Hjson1 Hnet2 Hok2 Hjson2 Hsecret Hexp Hfresh
         id row.
  unfold Callback.loader, try_catch, Callback.body.
  rewrite Hcode, Hstate, (present_Some code Hc), (present_Some state Hs).
  cbn [negb orb the_string].
  unfold bind at 1. unfold codeVerifier_findUnique. cbn [log codeVerifier].
  rewrite Hfound.
  unfold bind at 1. rewrite (fetch_responded _ _ _ _ Hnet1), Hok1. cbn [negb].
  unfold bind at 1. unfold response_json at 1. rewrite Hjson1.
  unfold bind at 1. rewrite (fetch_responded _ _ _ _ Hnet2), Hok2. cbn [negb].
  unfold bind at 1. unfold response_json at 1. rewrite Hjson2.
  rewrite Hsecret, Hexp.
  unfold bind, customerAccessToken_create.
  cbn [log codeVerifier customerAccessToken ids_used entropy_used trace].
  subst id row.
  unfold callback_answer, callback_report.
  destruct expiresAt as [e |]; cbn [option_map]; rewrite Hfresh;
    unfold codeVerifier_delete;
    cbn [log codeVerifier customerAccessToken ids_used entropy_used trace];
    rewrite Hfound; unfold setCustomerTokenId, ret;
    cbn [tok_id];
    destruct (commitSession env
                (session_with_token env request (generate_id env (ids_used w))))
      as [err | header];
    unfold Callback.handler, console_error, log;
    cbn [codeVerifier customerAccessToken ids_used entropy_used trace];
    repeat rewrite <- app_assoc; cbn [app]; reflexivity.
Qed.

(** The events of a run, for a final world reached by [log] steps and
    record updates. *)
Ltac events_of_world :=
  erewrite events_since_log
    by (cbn [console_error log trace]; repeat rewrite <- app_assoc; reflexivity).

(** A callback whose state matches a stored row either gets as far as
    writing the cookie, the provider having granted the exchange and the
    row having been deleted as the last database operation, or returns
    data and has left the CodeVerifier table alone. *)
Lemma callback_cleanup_cases (env : Env) (request : Request) (w : World)
    (code state : string) (record : CodeVerifier) :
  URLSearchParams.get "code" (searchParams (req_url request)) = Some code ->
  code <> EmptyString ->
  URLSearchParams.get "state" (searchParams (req_url request)) = Some state ->
  state <> EmptyString ->
  codeVerifier w !! state = Some record ->
  let '(response, w') := Callback.loader env request w in
  (exists (id : string) (exchange : FetchRequest) (granted : FetchResponse)
          (shop : string) (secret : JsVal) (expiresAt : option JsDate),
      response = callback_answer env request id
      /\ codeVerifier w' = delete state (codeVerifier w)
      /\ network env exchange = Responded granted
      /\ ok granted = true
      /\ events_since w w'
         = [ ECodeVerifierFindUnique state;
             EFetch (GET (openid_configuration_url env));
             EFetch exchange;
             ETokenCreate shop secret expiresAt;
             ECodeVerifierDelete state ]
           ++ callback_report env request id)
  \/ (exists msg : string,
        response = Data [("success", JBool false); ("error", JStr msg)]
        /\ codeVerifier w' = codeVerifier w
        /\ List.filter is_verifier_delete_event (events_since w w') = []).
Proof.
  intros Hcode Hc Hstate Hs Hfound.
  unfold Callback.loader, try_catch, Callback.body.
  rewrite Hcode, Hstate, (present_Some code Hc), (present_Some state Hs).
  cbn [negb orb the_string].
  unfold bind at 1. unfold codeVerifier_findUnique. cbn [log codeVerifier].
  rewrite Hfound.
  unfold bind at 1. unfold fetch at 1.
  destruct (network env (GET (openid_configuration_url env))) as [e1 | r1].
  { right. exists (message e1). cbn [Callback.handler].
    events_of_world. repeat split; reflexivity. }
  destruct (ok r1); cbn [negb].
  2: { right. eexists. cbn [throw Callback.handler message].
       events_of_world. repeat split; reflexivity. }
  unfold bind at 1. unfold response_json at 1.
  destruct (body_json r1) as [e2 | cfg].
  { right. exists (message e2). cbn [Callback.handler].
    events_of_world. repeat split; reflexivity. }
  unfold bind at 1. unfold fetch at 1.
  destruct (network env
              (token_request env (get_prop cfg "token_endpoint")
                 (callback_url (req_url request)) code (cv_verifier record)))
    as [e3 | r2] eqn:Hnet2.
  { right. exists (message e3). cbn [Callback.handler].
    events_of_world. repeat split; reflexivity. }
  destruct (ok r2) eqn:Hok2; cbn [negb].
  2: { right. eexists. cbn [throw Callback.handler message].
       events_of_world. repeat split; reflexivity. }
  unfold bind at 1. unfold response_json at 1.
  destruct (body_json r2) as [e4 | tokenData].
  { right. exists (message e4). cbn [Callback.handler].
    events_of_world. repeat split; reflexivity. }
  unfold bind at 1. unfold customerAccessToken_create.
  cbn [log codeVerifier customerAccessToken ids_used entropy_used trace].
  destruct (get_prop tokenData "access_token") as [| | b | n | secret];
    try (right; eexists; cbn [Callback.handler message];
         events_of_world; repeat split; reflexivity).
  destruct (calculate_expiration env tokenData) as [[e |] |];
    try (right; eexists; cbn [Callback.handler message];
         events_of_world; repeat split; reflexivity).
  all: destruct (customerAccessToken w !! generate_id env (ids_used w));
    [ right; eexists; cbn [Callback.handler message];
      events_of_world; repeat split; reflexivity |].
  all: unfold bind, codeVerifier_delete, ret;
    cbn [log codeVerifier customerAccessToken ids_used entropy_used trace];
    rewrite Hfound;
    unfold setCustomerTokenId; cbn [tok_id];
    destruct (commitSession env
                (session_with_token env request (generate_id env (ids_used w))))
      as [err | header] eqn:Hcommit; cbn [Callback.handler];
    left; exists (generate_id env (ids_used w));
    unfold callback_answer, callback_report; rewrite Hcommit;
    eexists; exists r2; do 3 eexists;
    (split; [reflexivity |]); (split; [reflexivity |]);
    (split; [exact Hnet2 |]); (split; [exact Hok2 |]);
    events_of_world; reflexivity.
Qed.

(** A run in which the provider refuses the exchange. *)
Lemma callback_run_exchange_refused (env : Env) (request : Request) (w : World)
    (code state : string) (record : CodeVerifier)
    (r1 r2 : FetchResponse) (cfg : JsObject) :
  URLSearchParams.get "code" (searchParams (req_url request)) = Some code ->
  code <> EmptyString ->
  URLSearchParams.get "state" (searchParams (req_url request)) = Some state ->
  state <> EmptyString ->
  codeVerifier w !! state = Some record ->
  network env (GET (openid_configuration_url env)) = Responded r1 ->
  ok r1 = true ->
  body_json r1 = inr cfg ->
  network env
    (token_request env (get_prop cfg "token_endpoint") (callback_url (req_url request))
       code (cv_verifier record)) = Responded r2 ->
  ok r2 = false ->
  let e := Error ("Token exchange failed: " +:+ statusText r2 +:+ " - " +:+ body_text r2) in
  Callback.loader env request w
  = (Data [("success", JBool false); ("error", JStr (message e))],
     console_error "Error in callback:" e
       (log (EFetch (token_request env (get_prop cfg "token_endpoint")
                       (callback_url (req_url request)) code (cv_verifier record)))
          (log (EFetch (GET (openid_configuration_url env)))
             (log (ECodeVerifierFindUnique state) w)))).
Proof.
  intros Hcode Hc Hstate Hs Hfound Hnet1 Hok1 Hjson1 Hnet2 Hok2 e.
  unfold Callback.loader, try_catch, Callback.body.
  rewrite Hcode, Hstate, (present_Some code Hc), (present_Some state Hs).
  cbn [negb orb the_string].
  unfold bind at 1. unfold codeVerifier_findUnique. cbn [log codeVerifier].
  rewrite Hfound.
  unfold bind at 1. rewrite (fetch_responded _ _ _ _ Hnet1), Hok1. cbn [negb].
  unfold bind at 1. unfold response_json at 1. rewrite Hjson1.
  unfold bind at 1. rewrite (fetch_responded _ _ _ _ Hnet2), Hok2.
  reflexivity.
Qed.

(** The callback's answer is the redirect only when the cookie was
    written, and nothing is reported then. *)
Lemma callback_answer_redirect (env : Env) (request : Request) (id : string)
    (location : string) (headers : list (string * string)) :
  callback_answer env request id = Redirect location headers ->
  callback_report env request id = [].
Proof.
  unfold callback_answer, callback_report.
  destruct (commitSession env (session_with_token env request id));
    [discriminate | reflexivity].
Qed.

(** C1, as the code has it. For a callback whose state matches a stored
    CodeVerifier row, the row is deleted only after the token exchange:
    either the loader returns an error, has attempted no deletion and the
    row is still in the store, or the provider granted the exchange, the
    token was persisted and the row was then deleted as the last database
    operation, after which the loader answers with the redirect or, when
    the session cookie cannot be written, with an error. A callback that
    redirects has deleted the row in this order. A callback whose token
    exchange is answered with a non-success status fails with the
    token-exchange error, attempts no deletion and leaves the row in the
    store. *)
Theorem callback_verifier_deleted_after_exchange (env : Env) (request : Request)
    (w : World) (code state : string) (record : CodeVerifier) :
  URLSearchParams.get "code" (searchParams (req_url request)) = Some code ->
  code <> EmptyString ->
  URLSearchParams.get "state" (searchParams (req_url request)) = Some state ->
  state <> EmptyString ->
  codeVerifier w !! state = Some record ->
  let '(response, w') := Callback.loader env request w in
  ((exists location headers, response = Redirect location headers) ->
     codeVerifier w' !! state = None
     /\ exists exchange shop secret expiresAt,
          events_since w w'
          = [ ECodeVerifierFindUnique state;
              EFetch (GET (openid_configuration_url env));
              EFetch exchange;
              ETokenCreate shop secret expiresAt;
              ECodeVerifierDelete state ])
  /\ (((exists msg, response = Data [("success", JBool false); ("error", JStr msg)])
       /\ codeVerifier w' !! state = Some record
       /\ List.filter is_verifier_delete_event (events_since w w') = [])
      \/ (exists id exchange granted shop secret expiresAt,
            response = callback_answer env request id
            /\ codeVerifier w' !! state = None
            /\ network env exchange = Responded granted
            /\ ok granted = true
            /\ events_since w w'
               = [ ECodeVerifierFindUnique state;
                   EFetch (GET (openid_configuration_url env));
                   EFetch exchange;
                   ETokenCreate shop secret expiresAt;
                   ECodeVerifierDelete state ]
                 ++ callback_report env request id))
  /\ (forall (r1 r2 : FetchResponse) (cfg : JsObject),
        network env (GET (openid_configuration_url env)) = Responded r1 ->
        ok r1 = true ->
        body_json r1 = inr cfg ->
        network env
          (token_request env (get_prop cfg "token_endpoint")
             (callback_url (req_url request)) code (cv_verifier record)) = Responded r2 ->
        ok r2 = false ->
        response
        = Data [ ("success", JBool false);
                 ("error",
                  JStr ("Token exchange failed: " +:+ statusText r2
                        +:+ " - " +:+ body_text r2)) ]
        /\ codeVerifier w' !! state = Some record
        /\ List.filter is_verifier_delete_event (events_since w w') = []).
Proof.
  intros Hcode Hc Hstate Hs Hfound.
  pose proof (callback_cleanup_cases env request w code state record
                Hcode Hc Hstate Hs Hfound) as Hcases.
  pose proof (callback_run_exchange_refused env request w code state record) as Hrefused.
  destruct (Callback.loader env request w) as [response w'].
  split; [| split].
  - intros (location & headers & Hredirect).
    destruct Hcases as [(id & exchange & granted & shop & secret & expiresAt
                         & Hanswer & Htable & _ & _ & Hevents)
                       | (msg & Hdata & _)].
    + split.
      * rewrite Htable. apply lookup_delete_eq.
      * exists exchange, shop, secret, expiresAt.
        rewrite Hevents.
        rewrite (callback_answer_redirect env request id location headers)
          by (rewrite <- Hanswer; exact Hredirect).
        apply app_nil_r.
    + rewrite Hdata in Hredirect. discriminate.
  - destruct Hcases as [(id & exchange & granted & shop & secret & expiresAt
                         & Hanswer & Htable & Hnet & Hok & Hevents)
                       | (msg & Hdata & Htable & Hevents)].
    + right. exists id, exchange, granted, shop, secret, expiresAt.
      repeat split; try assumption.
      rewrite Htable. apply lookup_delete_eq.
    + left. split; [exists msg; exact Hdata |].
      split; [rewrite Htable; exact Hfound | exact Hevents].
  - intros r1 r2 cfg Hnet1 Hok1 Hjson1 Hnet2 Hok2.
    specialize (Hrefused r1 r2 cfg Hcode Hc Hstate Hs Hfound Hnet1 Hok1 Hjson1 Hnet2 Hok2).
    cbn zeta in Hrefused. injection Hrefused as -> ->.
    split; [reflexivity |]. split; [exact Hfound |].
    events_of_world. reflexivity.
Qed.

Lemma callback_verifier_deleted_after_exchange_witness :
  let '(response, w') :=
    Callback.loader
      (Scenario.env_cookie_overflow (Scenario.provider (Scenario.granted [])) 0)
      Scenario.callback Scenario.initiated in
  exists id exchange granted shop secret expiresAt,
    response = Data [ ("success", JBool false);
                      ("error", JStr (message Scenario.cookie_overflow)) ]
    /\ response
       = callback_answer
           (Scenario.env_cookie_overflow (Scenario.provider (Scenario.granted [])) 0)
           Scenario.callback id
    /\ codeVerifier w' !! "S" = None
    /\ network
         (Scenario.env_cookie_overflow (Scenario.provider (Scenario.granted [])) 0)
         exchange = Responded granted
    /\ ok granted = true
    /\ events_since Scenario.initiated w'
       = [ ECodeVerifierFindUnique "S";
           EFetch (GET "https://shop.example.com/.well-known/openid-configuration");
           EFetch exchange;
           ETokenCreate shop secret expiresAt;
           ECodeVerifierDelete "S";
           EConsoleError "Error in callback:" Scenario.cookie_overflow ].
Proof.
  pose proof (callback_verifier_deleted_after_exchange
                (Scenario.env_cookie_overflow (Scenario.provider (Scenario.granted [])) 0)
                Scenario.callback Scenario.initiated "abc" "S" Scenario.pending
                eq_refl ltac:(discriminate) eq_refl ltac:(discriminate)
                ltac:(vm_compute; reflexivity)) as H.
  destruct (Callback.loader
              (Scenario.env_cookie_overflow (Scenario.provider (Scenario.granted [])) 0)
              Scenario.callback Scenario.initiated) as [response w'] eqn:Hrun.
  destruct H as (_ & [(_ & Hkept & _)
                     | (id & exchange & granted & shop & secret & expiresAt
                        & Hanswer & Hgone & Hnet & Hok & Hevents)] & _).
  - exfalso. vm_compute in Hrun. injection Hrun as <- <-.
    vm_compute in Hkept. discriminate.
  - exists id, exchange, granted, shop, secret, expiresAt.
    split; [rewrite Hanswer; reflexivity |].
    split; [exact Hanswer |].
    split; [exact Hgone |].
    split; [exact Hnet |].
    split; [exact Hok | exact Hevents].
Defined.

(** C1 fails on the code: the provider refuses the exchange of a callback
    whose state matches a stored row; the callback fails at the exchange
    step and the row is still in the store, no deletion having been
    attempted. *)
Lemma callback_refused_exchange_keeps_verifier :
  let '(response, w') :=
    Callback.loader (Scenario.env (Scenario.provider Scenario.refused) 0)
      Scenario.callback Scenario.initiated in
  codeVerifier Scenario.initiated !! "S" = Some Scenario.pending
  /\ response
     = Data [ ("success", JBool false);
              ("error", JStr "Token exchange failed: Bad Request - invalid_grant") ]
  /\ codeVerifier w' !! "S" = Some Scenario.pending
  /\ codeVerifier w' !! "S" <> None
  /\ events_since Scenario.initiated w'
     = [ ECodeVerifierFindUnique "S";
         EFetch (GET "https://shop.example.com/.well-known/openid-configuration");
         EFetch Scenario.exchange;
         EConsoleError "Error in callback:"
           (Error "Token exchange failed: Bad Request - invalid_grant") ].
Proof.
  vm_compute. repeat split; discriminate.
Qed.

(** ** The expiry of a persisted token *)

(** No [expires_in] in the token response: no expiry. *)
Lemma calculate_expiration_absent (env : Env) (tokenData : JsObject) :
  get_prop tokenData "expires_in" = JUndefined ->
  calculate_expiration env tokenData = None.
Proof. intros H. unfold calculate_expiration. rewrite H. reflexivity. Qed.

(** A lifetime of [n] seconds, [n] not zero: the current time plus [n]
    seconds, as long as that is a time a [Date] can hold. *)
Lemma calculate_expiration_seconds (env : Env) (tokenData : JsObject) (n : Z) :
  get_prop tokenData "expires_in" = JNum n ->
  n <> 0 ->
  Z.abs (Date_now env + n * 1000) <= 8640000000000000 ->
  calculate_expiration env tokenData = Some (Some (Date_now env + n * 1000)).
Proof.
  intros H Hn Hrange. unfold calculate_expiration. rewrite H. cbn [truthy to_number].
  destruct (Z.eqb_spec n 0) as [-> | _]; [contradiction |].
  cbn [negb new_Date].
  destruct (Z.leb_spec (Z.abs (Date_now env + n * 1000)) 8640000000000000); [reflexivity | lia].
Qed.

(** A lifetime of zero seconds is falsy: no expiry. *)
Lemma calculate_expiration_zero (env : Env) (tokenData : JsObject) :
  get_prop tokenData "expires_in" = JNum 0 ->
  calculate_expiration env tokenData = None.
Proof. intros H. unfold calculate_expiration. rewrite H. reflexivity. Qed.

(** The scenario of a token response [{access_token:"tok1", expires_in:3600}]:
    the persisted row holds the secret and expires 3600 seconds from now. *)
Example callback_persists_token :
  let '(response, w') :=
    Callback.loader
      (Scenario.env (Scenario.provider (Scenario.granted [("expires_in", JNum 3600)]))
         1700000000000)
      Scenario.callback Scenario.initiated in
  response = Redirect "/customer-account-api/order-list"
               [("Set-Cookie", "__customer_session=token-0")]
  /\ customerAccessToken w' !! "token-0"
     = Some {| tok_id := "token-0"; tok_shop := "shop.example.com";
               tok_accessToken := "tok1"; tok_expiresAt := Some 1700003600000 |}
  /\ codeVerifier w' !! "S" = None.
Proof. vm_compute. repeat split. Qed.

(** C5 at a lifetime of zero. A successful token response whose
    [expires_in] is the number 0 contains a relative lifetime, yet the
    persisted row has no expiry at all: its [expiresAt] is null, not the
    current time plus zero seconds. The loader then answers with the
    redirect that carries the session cookie of the new row, or with the
    error of the cookie when it cannot be written. *)
Theorem callback_zero_lifetime_never_expires (env : Env) (request : Request)
    (w : World) (code state secret : string) (record : CodeVerifier)
    (r1 r2 : FetchResponse) (cfg tokenData : JsObject) :
  URLSearchParams.get "code" (searchParams (req_url request)) = Some code ->
  code <> EmptyString ->
  URLSearchParams.get "state" (searchParams (req_url request)) = Some state ->
  state <> EmptyString ->
  codeVerifier w !! state = Some record ->
  network env (GET (openid_configuration_url env)) = Responded r1 ->
  ok r1 = true ->
  body_json r1 = inr cfg ->
  network env
    (token_request env (get_prop cfg "token_endpoint") (callback_url (req_url request))
       code (cv_verifier record)) = Responded r2 ->
  ok r2 = true ->
  body_json r2 = inr tokenData ->
  get_prop tokenData "access_token" = JStr secret ->
  get_prop tokenData "expires_in" = JNum 0 ->
  customerAccessToken w !! generate_id env (ids_used w) = None ->
  let '(response, w') := Callback.loader env request w in
  response = callback_answer env request (generate_id env (ids_used w))
  /\ customerAccessToken w' !! generate_id env (ids_used w)
     = Some {| tok_id := generate_id env (ids_used w);
               tok_shop := SHOP_STOREFRONT_DOMAIN env;
               tok_accessToken := secret;
               tok_expiresAt := None |}
  /\ customerAccessToken w' !! generate_id env (ids_used w)
     <> Some {| tok_id := generate_id env (ids_used w);
                tok_shop := SHOP_STOREFRONT_DOMAIN env;
                tok_accessToken := secret;
                tok_expiresAt := Some (Date_now env + 0 * 1000) |}.
Proof.
  intros Hcode Hc Hstate Hs Hfound Hnet1 Hok1 Hjson1 Hnet2 Hok2 Hjson2 Hsecret Hzero Hfresh.
  rewrite (callback_run_success env request w code state secret record r1 r2 cfg tokenData
             None Hcode Hc Hstate Hs Hfound Hnet1 Hok1 Hjson1 Hnet2 Hok2 Hjson2 Hsecret
             (calculate_expiration_zero env tokenData Hzero) Hfresh).
  cbn [customerAccessToken]. rewrite lookup_insert_eq.
  repeat split. discriminate.
Qed.

Lemma callback_zero_lifetime_never_expires_witness :
  let '(response, w') :=
    Callback.loader
      (Scenario.env (Scenario.provider (Scenario.granted [("expires_in", JNum 0)]))
         1700000000000)
      Scenario.callback Scenario.initiated in
  response = Redirect "/customer-account-api/order-list"
               [("Set-Cookie", "__customer_session=token-0")]
  /\ customerAccessToken w' !! "token-0"
     = Some {| tok_id := "token-0"; tok_shop := "shop.example.com";
               tok_accessToken := "tok1"; tok_expiresAt := None |}
  /\ customerAccessToken w' !! "token-0"
     <> Some {| tok_id := "token-0"; tok_shop := "shop.example.com";
                tok_accessToken := "tok1"; tok_expiresAt := Some 1700000000000 |}.
Proof.
  pose proof (callback_zero_lifetime_never_expires
                (Scenario.env (Scenario.provider (Scenario.granted [("expires_in", JNum 0)]))
                   1700000000000)
                Scenario.callback Scenario.initiated "abc" "S" "tok1" Scenario.pending
                {| status := 200; statusText := "OK"; body_text := EmptyString;
                   body_json := inr Scenario.openid_document |}
                {| status := 200; statusText := "OK"; body_text := EmptyString;
                   body_json := inr [("access_token", JStr "tok1"); ("expires_in", JNum 0)] |}
                Scenario.openid_document
                [("access_token", JStr "tok1"); ("expires_in", JNum 0)]
                eq_refl ltac:(discriminate) eq_refl ltac:(discriminate)
                ltac:(vm_compute; reflexivity)
                eq_refl eq_refl eq_refl eq_refl eq_refl eq_refl eq_refl eq_refl
                ltac:(vm_compute; reflexivity)) as H.
  destruct (Callback.loader
              (Scenario.env (Scenario.provider (Scenario.granted [("expires_in", JNum 0)]))
                 1700000000000)
              Scenario.callback Scenario.initiated) as [response w'].
  exact H.
Defined.

(** ** Failures inside a loader *)

(** C9 fails on the code: a failure inside the initiation (the discovery
    endpoint is down) is caught, but the payload returned has the single
    property [error]; it carries no [success] property. *)
Lemma auth_error_payload_has_no_success :
  let env := Scenario.env Scenario.provider_down 0 in
  let request := Scenario.request "/customer-account-api/auth" [] None in
  let e := Error "Failed to fetch OpenID configuration: Internal Server Error" in
  fst (Auth.body env request (Scenario.world ∅ ∅)) = Throw e
  /\ fst (Auth.loader env request (Scenario.world ∅ ∅))
     = Data [("error", JStr (message e))]
  /\ fst (Auth.loader env request (Scenario.world ∅ ∅))
     <> Data [("success", JBool false); ("error", JStr (message e))]
  /\ has_prop [("error", JStr (message e))] "success" = false.
Proof.
  vm_compute. repeat split; discriminate.
Qed.

(** What a body can return, by the shape of the body. *)
Lemma returns_only_ret (P : Response -> Prop) (r : Response) :
  P r -> returns_only P (ret r).
Proof. intros HP w r' w' [= <- _]. exact HP. Qed.

Lemma returns_only_throw (P : Response -> Prop) (msg : string) :
  returns_only P (throw msg).
Proof. intros w r w' [=]. Qed.

Lemma returns_only_bind {A : Type} (P : Response -> Prop) (m : M A)
    (k : A -> M Response) :
  (forall a, returns_only P (k a)) -> returns_only P (bind m k).
Proof.
  intros Hk w r w'. unfold bind.
  destruct (m w) as [[a | e] w1]; [apply Hk | intros [=]].
Qed.

Ltac returns_only_steps :=
  cbv zeta;
  repeat first
    [ apply returns_only_throw
    | apply returns_only_bind; intros ?
    | match goal with
      | |- returns_only _ (if ?c then _ else _) => destruct c
      | |- returns_only _ (match ?x with Some _ => _ | None => _ end) => destruct x
      end ].

Lemma auth_body_returns (env : Env) (request : Request) :
  returns_only (fun r => exists location, r = Redirect location []) (Auth.body env request).
Proof.
  unfold Auth.body. returns_only_steps.
  apply returns_only_ret. eexists. reflexivity.
Qed.

Lemma callback_body_returns (env : Env) (request : Request) :
  returns_only
    (fun r => exists cookie,
       r = Redirect "/customer-account-api/order-list" [("Set-Cookie", cookie)])
    (Callback.body env request).
Proof.
  unfold Callback.body. returns_only_steps.
  apply returns_only_ret. eexists. reflexivity.
Qed.

Lemma order_list_body_returns (env : Env) (request : Request) :
  returns_only
    (fun r => exists obj, r = Data obj /\ get_prop obj "success" = JBool true)
    (OrderList.body env request).
Proof.
  unfold OrderList.body. returns_only_steps.
  apply returns_only_ret. eexists. split; reflexivity.
Qed.

(** C9, as the code has it. In each of the three loaders every failure
    inside the body is caught by the handler around it, logged with
    [console.error], and turned into data for the route's component: the
    callback and the order list return [{success:false, error}] with the
    message of the error; the initiation returns [{error}] with the
    message of the error and no [success] property.  A body that does not
    fail has its own response returned.  So every run of the initiation
    ends in a redirect or in [{error}], every run of the callback in the
    redirect to the order list or in [{success:false, error}], and every
    run of the order list in data with [success:true] or in
    [{success:false, error}]. *)
Theorem loaders_catch_every_failure (env : Env) (request : Request) (w : World) :
  (let '(outcome, w1) := Auth.body env request w in
   match outcome with
   | Return response => Auth.loader env request w = (response, w1)
   | Throw e =>
       Auth.loader env request w
       = (Data [("error", JStr (message e))],
          log (EConsoleError "Error generating auth URL:" e) w1)
       /\ has_prop [("error", JStr (message e))] "success" = false
   end)
  /\ (let '(outcome, w1) := Callback.body env request w in
      match outcome with
      | Return response => Callback.loader env request w = (response, w1)
      | Throw e =>
          Callback.loader env request w
          = (Data [("success", JBool false); ("error", JStr (message e))],
             log (EConsoleError "Error in callback:" e) w1)
      end)
  /\ (let '(outcome, w1) := OrderList.body env request w in
      match outcome with
      | Return response => OrderList.loader env request w = (response, w1)
      | Throw e =>
          OrderList.loader env request w
          = (Data [("success", JBool false); ("error", JStr (message e))],
             log (EConsoleError "Error loading access token:" e) w1)
      end)
  /\ (let '(response, _) := Auth.loader env request w in
      (exists location, response = Redirect location [])
      \/ (exists msg, response = Data [("error", JStr msg)]))
  /\ (let '(response, _) := Callback.loader env request w in
      (exists cookie,
         response = Redirect "/customer-account-api/order-list" [("Set-Cookie", cookie)])
      \/ (exists msg, response = Data [("success", JBool false); ("error", JStr msg)]))
  /\ (let '(response, _) := OrderList.loader env request w in
      (exists obj, response = Data obj /\ get_prop obj "success" = JBool true)
      \/ (exists msg, response = Data [("success", JBool false); ("error", JStr msg)])).
Proof.
  pose proof (auth_body_returns env request w) as Hauth.
  pose proof (callback_body_returns env request w) as Hcallback.
  pose proof (order_list_body_returns env request w) as Horder.
  unfold Auth.loader, Callback.loader, OrderList.loader, try_catch.
  destruct (Auth.body env request w) as [[r1 | e1] w1];
    destruct (Callback.body env request w) as [[r2 | e2] w2];
    destruct (OrderList.body env request w) as [[r3 | e3] w3];
    repeat split;
    first [ left; eapply Hauth; reflexivity
          | left; eapply Hcallback; reflexivity
          | left; eapply Horder; reflexivity
          | right; eexists; reflexivity ].
Qed.

(** ** The PKCE material *)

(** Lists three elements at a time, as the base64 encoder reads them. *)
Lemma list_ind3 {A : Type} (P : list A -> Prop) :
  P [] ->
  (forall a, P [a]) ->
  (forall a b, P [a; b]) ->
  (forall a b c l, P l -> P (a :: b :: c :: l)) ->
  forall l, P l.
Proof.
  intros H0 H1 H2 H3.
  assert (H : forall l, P l /\ (forall a, P (a :: l)) /\ (forall a b, P (a :: b :: l))).
  { induction l as [| x l (IH0 & IH1 & IH2)].
    - repeat split; auto.
    - split; [apply IH1 |]. split; [intros a; apply IH2 |].
      intros a b. apply H3. exact IH0. }
  intros l. apply H.
Qed.

Lemma to_base64url_length (bs : Buffer.t) :
  String.length (Buffer.to_base64url bs) = ((4 * length bs + 2) / 3)%nat.
Proof.
  induction bs as [| a | a b | a b c rest IH] using list_ind3; try reflexivity.
  cbn [Buffer.to_base64url String.length length]. rewrite IH.
  replace (4 * S (S (S (length rest))) + 2)%nat
    with (4 * length rest + 2 + 4 * 3)%nat by lia.
  rewrite Nat.div_add by lia. lia.
Qed.

Lemma sextet_base64url (n : Z) : is_base64url_char (Buffer.sextet n) = true.
Proof.
  unfold Buffer.sextet.
  assert (Hall : forallb
                   (fun i => is_base64url_char
                               match String.get i Buffer.alphabet with
                               | Some c => c
                               | None => "A"%char
                               end)
                   (seq 0 64) = true) by (vm_compute; reflexivity).
  rewrite forallb_forall in Hall. apply Hall. apply in_seq.
  change 63 with (Z.ones 6). rewrite Z.land_ones by lia.
  pose proof (Z.mod_pos_bound n (2 ^ 6) ltac:(lia)). lia.
Qed.

Lemma to_base64url_alphabet (bs : Buffer.t) :
  base64url_string (Buffer.to_base64url bs) = true.
Proof.
  induction bs as [| a | a b | a b c rest IH] using list_ind3;
    cbn [Buffer.to_base64url base64url_string];
    rewrite ?sextet_base64url, ?IH; reflexivity.
Qed.

Lemma base64url_char_unreserved (c : ascii) :
  is_base64url_char c = true -> URLSearchParams.unreserved c = true.
Proof.
  unfold is_base64url_char, URLSearchParams.unreserved.
  intros H. repeat (apply orb_prop in H; destruct H as [H | H]); rewrite H;
    rewrite ?orb_true_r; reflexivity.
Qed.

(** A string over the base64url alphabet is serialized as it is. *)
Lemma encode_base64url_string (s : string) :
  base64url_string s = true -> URLSearchParams.encode s = s.
Proof.
  induction s as [| c rest IH]; [reflexivity |].
  cbn [base64url_string URLSearchParams.encode].
  intros H. apply andb_prop in H. destruct H as [Hc Hrest].
  rewrite (base64url_char_unreserved c Hc), (IH Hrest). reflexivity.
Qed.

Lemma blocks_length (n : nat) (h ws : list SHA256.word) :
  length h = 8%nat -> length (SHA256.blocks n h ws) = 8%nat.
Proof.
  revert h ws. induction n as [| n IH]; intros h ws Hh; [exact Hh |].
  cbn [SHA256.blocks]. apply IH. reflexivity.
Qed.

(** A SHA-256 digest has 32 octets. *)
Lemma digest_length (msg : Buffer.t) : length (SHA256.digest msg) = 32%nat.
Proof.
  unfold SHA256.digest. rewrite length_map.
  set (ws := SHA256.words_of_bytes _).
  pose proof (blocks_length (length ws / 16) SHA256.H0 ws eq_refl) as Hlen.
  destruct (SHA256.blocks _ _ _) as [| h0 [| h1 [| h2 [| h3 [| h4 [| h5 [| h6 [| h7 [| ? ?]]]]]]]]];
    try discriminate Hlen.
  reflexivity.
Qed.

(** ** The hash object against the standard *)

Lemma words_of_bytes_app (k : nat) (a b : list Z) :
  length a = (4 * k)%nat ->
  SHA256.words_of_bytes (a ++ b) = SHA256.words_of_bytes a ++ SHA256.words_of_bytes b.
Proof.
  revert a. induction k as [| k IH]; intros a Ha.
  - destruct a; [reflexivity | discriminate].
  - destruct a as [| a0 [| a1 [| a2 [| a3 rest]]]]; cbn [length] in Ha; try lia.
    cbn [app SHA256.words_of_bytes]. rewrite IH by lia. reflexivity.
Qed.

Lemma words_of_bytes_length (k : nat) (a : list Z) :
  length a = (4 * k)%nat -> length (SHA256.words_of_bytes a) = k.
Proof.
  revert a. induction k as [| k IH]; intros a Ha.
  - destruct a; [reflexivity | discriminate].
  - destruct a as [| a0 [| a1 [| a2 [| a3 rest]]]]; cbn [length] in Ha; try lia.
    cbn [SHA256.words_of_bytes length]. rewrite IH by lia. reflexivity.
Qed.

Lemma blocks_app (k m : nat) (h w1 w2 : list SHA256.word) :
  length w1 = (16 * k)%nat ->
  SHA256.blocks (k + m) h (w1 ++ w2) = SHA256.blocks m (SHA256.blocks k h w1) w2.
Proof.
  revert h w1. induction k as [| k IH]; intros h w1 Hlen.
  - destruct w1; [reflexivity | discriminate].
  - cbn [Nat.add SHA256.blocks].
    rewrite firstn_app, skipn_app.
    replace (16 - length w1)%nat with 0%nat by lia.
    cbn [firstn skipn]. rewrite app_nil_r.
    apply IH. rewrite length_skipn. lia.
Qed.

Lemma createHash_holds : holds (crypto.createHash crypto.sha256) [].
Proof.
  exists 0%nat, []. repeat split. cbn. lia.
Qed.

Lemma absorb_holds (h : crypto.Hash) (msg : Buffer.t) (b : byte) :
  holds h msg -> holds (crypto.absorb h b) (msg ++ [b]).
Proof.
  intros (k & full & Hmsg & Hfull & Hbuf & Hchain & Hcount).
  unfold crypto.absorb.
  destruct (Nat.eqb_spec (length (crypto.buffered h ++ [b])) 64) as [Hlen | Hlen].
  - exists (S k), (full ++ crypto.buffered h ++ [b]).
    cbn [crypto.buffered crypto.chaining crypto.absorbed].
    split; [rewrite Hmsg, app_nil_r, app_assoc; reflexivity |].
    split; [rewrite length_app, Hlen; lia |].
    split; [cbn; lia |].
    split; [| rewrite Hcount, length_app; cbn [length]; lia].
    set (block := crypto.buffered h ++ [b]) in *.
    rewrite (map_app _ full).
    rewrite (words_of_bytes_app (16 * k)) by (rewrite length_map; lia).
    replace (S k) with (k + 1)%nat by lia.
    rewrite (blocks_app k 1)
      by (apply words_of_bytes_length; rewrite length_map; lia).
    rewrite <- Hchain. cbn [SHA256.blocks].
    rewrite firstn_all2; [reflexivity |].
    rewrite (words_of_bytes_length 16); [lia |].
    rewrite length_map. exact Hlen.
  - exists k, full.
    cbn [crypto.buffered crypto.chaining crypto.absorbed].
    split; [rewrite Hmsg, app_assoc; reflexivity |].
    split; [exact Hfull |].
    split; [rewrite length_app in *; cbn [length] in *; lia |].
    split; [exact Hchain |].
    rewrite Hcount, length_app. cbn [length]. lia.
Qed.

Lemma update_holds (data : Buffer.t) (h : crypto.Hash) (msg : Buffer.t) :
  holds h msg -> holds (fold_left crypto.absorb data h) (msg ++ data).
Proof.
  revert h msg. induction data as [| b data IH]; intros h msg Hh.
  - rewrite app_nil_r. exact Hh.
  - cbn [fold_left].
    replace (msg ++ b :: data) with ((msg ++ [b]) ++ data)
      by (rewrite <- app_assoc; reflexivity).
    apply IH, absorb_holds, Hh.
Qed.

Lemma be_bytes_length (n : nat) (x : Z) : length (SHA256.be_bytes n x) = n.
Proof. unfold SHA256.be_bytes. rewrite length_map, length_rev, length_seq. reflexivity. Qed.

(** The digest of a hash object is the SHA-256 digest of the octets it
    has been given. *)
Lemma finish_holds (h : crypto.Hash) (msg : Buffer.t) :
  holds h msg -> crypto.finish h = SHA256.digest msg.
Proof.
  intros (k & full & Hmsg & Hfull & Hbuf & Hchain & Hcount).
  unfold crypto.finish, SHA256.digest. f_equal. f_equal.
  assert (Hpad : SHA256.pad (map Buffer.byte_to_Z msg)
                 = map Buffer.byte_to_Z full ++ crypto.last_blocks h).
  { unfold SHA256.pad, crypto.last_blocks.
    rewrite length_map, <- Hcount.
    rewrite Hmsg at 1. rewrite map_app, <- !app_assoc.
    do 3 f_equal.
    rewrite length_app, length_map. cbn [length].
    rewrite Hcount, Hmsg, length_app, Hfull.
    set (r := length (crypto.buffered h)) in *.
    destruct (Nat.leb_spec (r + 1) 56) as [Hr | Hr].
    - replace ((55 - Z.of_nat (64 * k + r)) mod 64) with (55 - Z.of_nat r).
      + do 2 f_equal. lia.
      + apply (Z.mod_unique_pos _ _ (- Z.of_nat k)); lia.
    - replace ((55 - Z.of_nat (64 * k + r)) mod 64) with (119 - Z.of_nat r).
      + do 2 f_equal. lia.
      + apply (Z.mod_unique_pos _ _ (- Z.of_nat k - 1)); lia. }
  rewrite Hpad.
  rewrite (words_of_bytes_app (16 * k)) by (rewrite length_map; lia).
  assert (Hwords : length (SHA256.words_of_bytes (map Buffer.byte_to_Z full))
                   = (16 * k)%nat)
    by (apply words_of_bytes_length; rewrite length_map; lia).
  rewrite length_app, Hwords.
  assert (Hlast : length (crypto.last_blocks h) = 64%nat
                  \/ length (crypto.last_blocks h) = 128%nat).
  { unfold crypto.last_blocks.
    rewrite !length_app, repeat_length, be_bytes_length, length_map. cbn [length].
    destruct (Nat.leb_spec (length (crypto.buffered h) + 1) 56); lia. }
  destruct Hlast as [Hlast | Hlast].
  - rewrite (words_of_bytes_length 16 _ Hlast).
    replace ((16 * k + 16) / 16)%nat with (k + 1)%nat
      by (apply Nat.div_unique_exact; lia).
    rewrite (blocks_app k 1) by exact Hwords.
    rewrite <- Hchain. cbn [Nat.leb SHA256.blocks].
    rewrite firstn_all2; [reflexivity |].
    rewrite (words_of_bytes_length 16 _ Hlast). lia.
  - rewrite (words_of_bytes_length 32 _ Hlast).
    replace ((16 * k + 32) / 16)%nat with (k + 2)%nat
      by (apply Nat.div_unique_exact; lia).
    rewrite (blocks_app k 2) by exact Hwords.
    rewrite <- Hchain. cbn [Nat.leb SHA256.blocks].
    f_equal. rewrite firstn_all2; [reflexivity |].
    rewrite length_skipn, (words_of_bytes_length 32 _ Hlast). lia.
Qed.

(** Hashing piece by piece gives the digest of the standard. *)
Lemma generateCodeChallenge_one_shot (verifier : string) :
  generateCodeChallenge verifier
  = Buffer.to_base64url (SHA256.digest (Buffer.from_string verifier)).
Proof.
  unfold generateCodeChallenge, crypto.digest, crypto.update, crypto.encode.
  destruct (crypto.algorithm _).
  f_equal. apply finish_holds.
  exact (update_holds (Buffer.from_string verifier) _ [] createHash_holds).
Qed.

Lemma byte_to_Z_octet (b : byte) : In (Buffer.byte_to_Z b) octets.
Proof.
  unfold octets, Buffer.byte_to_Z. apply in_map_iff.
  exists (N.to_nat (Byte.to_N b)). split.
  - rewrite <- nat_N_Z, N2Nat.id. reflexivity.
  - apply in_seq. pose proof (Byte.to_N_bounded b). lia.
Qed.

Lemma octet_cases (P : Z -> bool) :
  forallb P octets = true -> forall a : byte, P (Buffer.byte_to_Z a) = true.
Proof.
  intros H a. rewrite forallb_forall in H. apply H, byte_to_Z_octet.
Qed.

Lemma octet_cases2 (P : Z -> Z -> bool) :
  forallb (fun x => forallb (P x) octets) octets = true ->
  forall a b : byte, P (Buffer.byte_to_Z a) (Buffer.byte_to_Z b) = true.
Proof.
  intros H a b. rewrite forallb_forall in H.
  specialize (H _ (byte_to_Z_octet a)). rewrite forallb_forall in H.
  apply H, byte_to_Z_octet.
Qed.

(** ** The encoder against RFC 4648 *)

(** The character the encoder writes for a group of six bits is the one
    of the table.  Each equation is checked on all octets. *)
Lemma sextet_high (a : byte) :
  let x := Buffer.byte_to_Z a in
  Buffer.sextet (Z.shiftr x 2)
  = RFC4648.char
      (RFC4648.value
         [ Z.testbit x 7; Z.testbit x 6; Z.testbit x 5;
           Z.testbit x 4; Z.testbit x 3; Z.testbit x 2 ]).
Proof.
  apply Ascii.eqb_eq.
  exact (octet_cases
           (fun x =>
              Ascii.eqb (Buffer.sextet (Z.shiftr x 2))
                (RFC4648.char
                   (RFC4648.value
                      [ Z.testbit x 7; Z.testbit x 6; Z.testbit x 5;
                        Z.testbit x 4; Z.testbit x 3; Z.testbit x 2 ])))
           ltac:(vm_compute; reflexivity) a).
Qed.

Lemma sextet_across_first (a b : byte) :
  let x := Buffer.byte_to_Z a in
  let y := Buffer.byte_to_Z b in
  Buffer.sextet (Z.lor (Z.shiftl (Z.land x 3) 4) (Z.shiftr y 4))
  = RFC4648.char
      (RFC4648.value
         [ Z.testbit x 1; Z.testbit x 0; Z.testbit y 7;
           Z.testbit y 6; Z.testbit y 5; Z.testbit y 4 ]).
Proof.
  apply Ascii.eqb_eq.
  exact (octet_cases2
           (fun x y =>
              Ascii.eqb (Buffer.sextet (Z.lor (Z.shiftl (Z.land x 3) 4) (Z.shiftr y 4)))
                (RFC4648.char
                   (RFC4648.value
                      [ Z.testbit x 1; Z.testbit x 0; Z.testbit y 7;
                        Z.testbit y 6; Z.testbit y 5; Z.testbit y 4 ])))
           ltac:(vm_compute; reflexivity) a b).
Qed.

Lemma sextet_across_second (b c : byte) :
  let y := Buffer.byte_to_Z b in
  let z := Buffer.byte_to_Z c in
  Buffer.sextet (Z.lor (Z.shiftl (Z.land y 15) 2) (Z.shiftr z 6))
  = RFC4648.char
      (RFC4648.value
         [ Z.testbit y 3; Z.testbit y 2; Z.testbit y 1;
           Z.testbit y 0; Z.testbit z 7; Z.testbit z 6 ]).
Proof.
  apply Ascii.eqb_eq.
  exact (octet_cases2
           (fun y z =>
              Ascii.eqb (Buffer.sextet (Z.lor (Z.shiftl (Z.land y 15) 2) (Z.shiftr z 6)))
                (RFC4648.char
                   (RFC4648.value
                      [ Z.testbit y 3; Z.testbit y 2; Z.testbit y 1;
                        Z.testbit y 0; Z.testbit z 7; Z.testbit z 6 ])))
           ltac:(vm_compute; reflexivity) b c).
Qed.

Lemma sextet_low (c : byte) :
  let z := Buffer.byte_to_Z c in
  Buffer.sextet (Z.land z 63)
  = RFC4648.char
      (RFC4648.value
         [ Z.testbit z 5; Z.testbit z 4; Z.testbit z 3;
           Z.testbit z 2; Z.testbit z 1; Z.testbit z 0 ]).
Proof.
  apply Ascii.eqb_eq.
  exact (octet_cases
           (fun z =>
              Ascii.eqb (Buffer.sextet (Z.land z 63))
                (RFC4648.char
                   (RFC4648.value
                      [ Z.testbit z 5; Z.testbit z 4; Z.testbit z 3;
                        Z.testbit z 2; Z.testbit z 1; Z.testbit z 0 ])))
           ltac:(vm_compute; reflexivity) c).
Qed.

(** The two bits left of one octet, and the four left of two, with the
    zero bits added on their right. *)
Lemma sextet_tail_first (a : byte) :
  let x := Buffer.byte_to_Z a in
  Buffer.sextet (Z.shiftl (Z.land x 3) 4)
  = RFC4648.char
      (RFC4648.value [ Z.testbit x 1; Z.testbit x 0; false; false; false; false ]).
Proof.
  apply Ascii.eqb_eq.
  exact (octet_cases
           (fun x =>
              Ascii.eqb (Buffer.sextet (Z.shiftl (Z.land x 3) 4))
                (RFC4648.char
                   (RFC4648.value
                      [ Z.testbit x 1; Z.testbit x 0; false; false; false; false ])))
           ltac:(vm_compute; reflexivity) a).
Qed.

Lemma sextet_tail_second (b : byte) :
  let y := Buffer.byte_to_Z b in
  Buffer.sextet (Z.shiftl (Z.land y 15) 2)
  = RFC4648.char
      (RFC4648.value
         [ Z.testbit y 3; Z.testbit y 2; Z.testbit y 1; Z.testbit y 0; false; false ]).
Proof.
  apply Ascii.eqb_eq.
  exact (octet_cases
           (fun y =>
              Ascii.eqb (Buffer.sextet (Z.shiftl (Z.land y 15) 2))
                (RFC4648.char
                   (RFC4648.value
                      [ Z.testbit y 3; Z.testbit y 2; Z.testbit y 1; Z.testbit y 0;
                        false; false ])))
           ltac:(vm_compute; reflexivity) b).
Qed.

(** [buf.toString("base64url")] is the encoding of RFC 4648. *)
Lemma to_base64url_RFC4648 (bs : Buffer.t) :
  Buffer.to_base64url bs = RFC4648.base64url bs.
Proof.
  induction bs as [| a | a b | a b c rest IH] using list_ind3.
  - reflexivity.
  - cbn [Buffer.to_base64url]. rewrite sextet_high, sextet_tail_first. reflexivity.
  - cbn [Buffer.to_base64url].
    rewrite sextet_high, sextet_across_first, sextet_tail_second. reflexivity.
  - cbn [Buffer.to_base64url].
    rewrite sextet_high, sextet_across_first, sextet_across_second, sextet_low, IH.
    reflexivity.
Qed.

(** C3. For every string [v], [generateCodeChallenge v], which gives [v]
    to a fresh hash object and reads its digest in the base64url
    encoding, is the base64url encoding of RFC 4648 of the SHA-256 digest
    of FIPS 180-4 of the octets of [v]; it reads nothing but [v], so two
    calls on the same string return the same result.  On the verifier of
    RFC 7636, appendix B, it gives the challenge printed there, and on the
    two longer messages of the SHA-256 test vectors the encoding of the
    digests printed with them. *)
Theorem generateCodeChallenge_spec :
  (forall v : string, generateCodeChallenge v = challenge_spec v)
  /\ (forall v1 v2 : string,
        v1 = v2 -> generateCodeChallenge v1 = generateCodeChallenge v2)
  /\ generateCodeChallenge "dBjftJeZ4CVP-mB92K27uhbUJU1p1r_wW1gFWFOEjXk"
     = "E9Melhoa2OwvFrEMTJguCHaoeK1t8URWbuGJSstw-cM"
  /\ generateCodeChallenge "abcdbcdecdefdefgefghfghighijhijkijkljklmklmnlmnomnopnopq"
     = "JI1qYdIGOLjlwCaTDD5gOaM85Flk_yFn9uzt1BnbBsE"
  /\ generateCodeChallenge
       ("abcdefghbcdefghicdefghijdefghijkefghijklfghijklmghijklmn"
        +:+ "hijklmnoijklmnopjklmnopqklmnopqrlmnopqrsmnopqrstnopqrstu")
     = "z1sWp3ivg4ADbOWeewSSNwskmxHo8HpRr6xFA3r-6dE".
Proof.
  split; [| split; [| split; [| split]]].
  - intros v. rewrite generateCodeChallenge_one_shot. apply to_base64url_RFC4648.
  - intros v1 v2 ->. reflexivity.
  - vm_compute. reflexivity.
  - vm_compute. reflexivity.
  - vm_compute. reflexivity.
Qed.

(** The challenge of RFC 7636, appendix B, computed as the specification
    words it. *)
Lemma generateCodeChallenge_spec_witness :
  challenge_spec "dBjftJeZ4CVP-mB92K27uhbUJU1p1r_wW1gFWFOEjXk"
  = "E9Melhoa2OwvFrEMTJguCHaoeK1t8URWbuGJSstw-cM"
  /\ generateCodeChallenge "dBjftJeZ4CVP-mB92K27uhbUJU1p1r_wW1gFWFOEjXk"
     = generateCodeChallenge "dBjftJeZ4CVP-mB92K27uhbUJU1p1r_wW1gFWFOEjXk".
Proof.
  destruct generateCodeChallenge_spec as (Hspec & Hsame & Hrfc & _).
  split.
  - rewrite <- (Hspec "dBjftJeZ4CVP-mB92K27uhbUJU1p1r_wW1gFWFOEjXk"). exact Hrfc.
  - exact (Hsame _ _ eq_refl).
Defined.

(** X1. [generateCodeVerifier] never fails; the verifier it returns has
    43 characters, all of them letters, digits, hyphens or underscores, so
    that the query serializer writes it unchanged; it uses the next 32
    octets of the random source and touches neither the store nor the
    trace. *)
Theorem generateCodeVerifier_shape (env : Env) (w : World) :
  let '(outcome, w') := generateCodeVerifier env w in
  exists verifier : string,
    outcome = Return verifier
    /\ String.length verifier = 43%nat
    /\ base64url_string verifier = true
    /\ URLSearchParams.encode verifier = verifier
    /\ entropy_used w' = (entropy_used w + 32)%nat
    /\ codeVerifier w' = codeVerifier w
    /\ customerAccessToken w' = customerAccessToken w
    /\ trace w' = trace w.
Proof.
  unfold generateCodeVerifier, bind, randomBytes, ret, crypto.encode.
  eexists. split; [reflexivity |].
  split. { rewrite to_base64url_length, length_map, length_seq. reflexivity. }
  split. { apply to_base64url_alphabet. }
  split. { apply encode_base64url_string, to_base64url_alphabet. }
  repeat split.
Qed.

(** X2. [generateState] never fails; the state it returns has 22
    characters of the same alphabet, is written unchanged by the query
    serializer, and uses the next 16 octets of the random source. *)
Theorem generateState_shape (env : Env) (w : World) :
  let '(outcome, w') := generateState env w in
  exists state : string,
    outcome = Return state
    /\ String.length state = 22%nat
    /\ base64url_string state = true
    /\ URLSearchParams.encode state = state
    /\ entropy_used w' = (entropy_used w + 16)%nat
    /\ codeVerifier w' = codeVerifier w
    /\ customerAccessToken w' = customerAccessToken w
    /\ trace w' = trace w.
Proof.
  unfold generateState, bind, randomBytes, ret, crypto.encode.
  eexists. split; [reflexivity |].
  split. { rewrite to_base64url_length, length_map, length_seq. reflexivity. }
  split. { apply to_base64url_alphabet. }
  split. { apply encode_base64url_string, to_base64url_alphabet. }
  repeat split.
Qed.

(** X3. Whatever the verifier, its challenge has 43 characters, all of
    them letters, digits, hyphens or underscores (no padding), and the
    query serializer writes it unchanged. *)
Theorem generateCodeChallenge_shape (verifier : string) :
  String.length (generateCodeChallenge verifier) = 43%nat
  /\ base64url_string (generateCodeChallenge verifier) = true
  /\ URLSearchParams.encode (generateCodeChallenge verifier)
     = generateCodeChallenge verifier.
Proof.
  rewrite generateCodeChallenge_one_shot.
  split. { rewrite to_base64url_length, digest_length. reflexivity. }
  split. { apply to_base64url_alphabet. }
  apply encode_base64url_string, to_base64url_alphabet.
Qed.

(** ** What each loader does to the store, in every run *)

(** X4. The order-list loader only reads: whatever the session, the
    store and the provider's answers, both tables are afterwards what they
    were; it asks the database for at most one row, never for a write, and
    sends at most one request. *)
Theorem order_list_is_read_only (env : Env) (request : Request) (w : World) :
  let '(_, w') := OrderList.loader env request w in
  codeVerifier w' = codeVerifier w
  /\ customerAccessToken w' = customerAccessToken w
  /\ List.filter is_database_write_event (events_since w w') = []
  /\ (length (List.filter is_database_event (events_since w w')) <= 1)%nat
  /\ (length (List.filter is_fetch_event (events_since w w')) <= 1)%nat.
Proof.
  unfold OrderList.loader, try_catch, OrderList.body.
  destruct (present (getCustomerTokenId env request)); cbn [negb].
  2: { cbn [throw OrderList.handler]. events_of_world. repeat split; cbn; lia. }
  unfold bind at 1. unfold customerAccessToken_findUnique. cbn [log customerAccessToken].
  destruct (customerAccessToken w !! the_string (getCustomerTokenId env request)) as [t |].
  2: { cbn [throw OrderList.handler]. events_of_world. repeat split; cbn; lia. }
  destruct (expired env t).
  { cbn [throw OrderList.handler]. events_of_world. repeat split; cbn; lia. }
  unfold bind at 1. unfold fetch at 1.
  destruct (network env (GET (customer_account_api_url env))) as [e | r].
  { cbn [OrderList.handler]. events_of_world. repeat split; cbn; lia. }
  destruct (ok r); cbn [negb].
  2: { cbn [throw OrderList.handler]. events_of_world. repeat split; cbn; lia. }
  unfold bind, response_json.
  destruct (body_json r) as [e | cfg].
  { cbn [OrderList.handler]. events_of_world. repeat split; cbn; lia. }
  cbn [ret]. events_of_world. repeat split; cbn; lia.
Qed.

(** X5. The initiation never touches the access tokens, and of the
    CodeVerifier table it changes at most one thing: it may add one row,
    under a state that had none.  No row that was there is overwritten or
    removed, whether the initiation redirects or fails. *)
Theorem auth_store_discipline (env : Env) (request : Request) (w : World) :
  let '(_, w') := Auth.loader env request w in
  customerAccessToken w' = customerAccessToken w
  /\ (codeVerifier w' = codeVerifier w
      \/ exists state verifier : string,
           codeVerifier w !! state = None
           /\ codeVerifier w'
              = <[state := {| cv_state := state; cv_verifier := verifier |}]>
                  (codeVerifier w))
  /\ (length (List.filter is_database_event (events_since w w')) <= 1)%nat.
Proof.
  unfold Auth.loader, try_catch, Auth.body.
  unfold bind at 1. unfold fetch at 1.
  destruct (network env (GET (openid_configuration_url env))) as [e | r].
  { cbn [Auth.handler]. events_of_world. repeat split; [left; reflexivity | cbn; lia]. }
  destruct (ok r); cbn [negb].
  2: { cbn [throw Auth.handler]. events_of_world.
       repeat split; [left; reflexivity | cbn; lia]. }
  unfold bind at 1. unfold response_json.
  destruct (body_json r) as [e | cfg].
  { cbn [Auth.handler]. events_of_world. repeat split; [left; reflexivity | cbn; lia]. }
  unfold generateCodeVerifier, generateState, bind, randomBytes, ret, codeVerifier_create.
  cbn [log entropy_used codeVerifier customerAccessToken ids_used trace].
  set (verifier := crypto.encode crypto.base64url
                     (map (entropy env) (seq (entropy_used w) 32))).
  set (state := crypto.encode crypto.base64url
                  (map (entropy env) (seq (entropy_used w + 32) 16))).
  destruct (codeVerifier w !! state) eqn:Hstate.
  { cbn [Auth.handler]. events_of_world. repeat split; [left; reflexivity | cbn; lia]. }
  unfold new_URL.
  destruct (parse_URL env _) as [u |].
  - cbv beta iota. events_of_world.
    repeat split; [right; exists state, verifier; split; [exact Hstate | reflexivity]
                  | cbn; lia].
  - cbn [Auth.handler]. events_of_world.
    repeat split; [right; exists state, verifier; split; [exact Hstate | reflexivity]
                  | cbn; lia].
Qed.

(** A failing step of the callback: the handler's payload, the store as
    it was. *)
Ltac callback_fails :=
  left; eexists; cbn [throw Callback.handler message];
  repeat split; reflexivity.

(** X6. A run of the callback either leaves both tables as they were or
    changes just two rows.  In the first case it returns
    [{success:false, error}].  In the second the CodeVerifier row of the
    request's state, which was in the store, is gone, and one
    CustomerAccessToken row has been added under an id that was not in
    use, with the configured shop domain; the loader then redirects to
    the order list with the cookie that holds that id, or, when the
    cookie cannot be written, returns [{success:false, error}] with the
    cookie's error, the two rows staying changed.  No other verifier and
    no existing token is touched. *)
Theorem callback_store_discipline (env : Env) (request : Request) (w : World) :
  let '(response, w') := Callback.loader env request w in
  (exists msg : string,
     response = Data [("success", JBool false); ("error", JStr msg)]
     /\ codeVerifier w' = codeVerifier w
     /\ customerAccessToken w' = customerAccessToken w)
  \/ (exists (state : string) (record : CodeVerifier) (row : CustomerAccessToken),
        match commitSession env (session_with_token env request (tok_id row)) with
        | inr setCookieHeader =>
            response = Redirect "/customer-account-api/order-list"
                         [("Set-Cookie", setCookieHeader)]
        | inl error =>
            response = Data [("success", JBool false); ("error", JStr (message error))]
        end
        /\ URLSearchParams.get "state" (searchParams (req_url request)) = Some state
        /\ codeVerifier w !! state = Some record
        /\ codeVerifier w' = delete state (codeVerifier w)
        /\ customerAccessToken w !! tok_id row = None
        /\ customerAccessToken w' = <[tok_id row := row]> (customerAccessToken w)
        /\ tok_shop row = SHOP_STOREFRONT_DOMAIN env).
Proof.
  unfold Callback.loader, try_catch, Callback.body.
  destruct (URLSearchParams.get "state" (searchParams (req_url request)))
    as [state |] eqn:Hstate.
  2: { rewrite orb_true_r. callback_fails. }
  destruct (negb (present (URLSearchParams.get "code" (searchParams (req_url request))))
            || negb (present (Some state))).
  { callback_fails. }
  cbn [the_string].
  unfold bind at 1. unfold codeVerifier_findUnique. cbn [log codeVerifier].
  destruct (codeVerifier w !! state) as [record |] eqn:Hfound.
  2: { callback_fails. }
  unfold bind at 1. unfold fetch at 1.
  destruct (network env (GET (openid_configuration_url env))) as [e1 | r1].
  { callback_fails. }
  destruct (ok r1); cbn [negb].
  2: { callback_fails. }
  unfold bind at 1. unfold response_json at 1.
  destruct (body_json r1) as [e2 | cfg].
  { callback_fails. }
  unfold bind at 1. unfold fetch at 1.
  destruct (network env _) as [e3 | r2].
  { callback_fails. }
  destruct (ok r2); cbn [negb].
  2: { callback_fails. }
  unfold bind at 1. unfold response_json at 1.
  destruct (body_json r2) as [e4 | tokenData].
  { callback_fails. }
  unfold bind at 1. unfold customerAccessToken_create.
  cbn [log codeVerifier customerAccessToken ids_used entropy_used trace].
  destruct (get_prop tokenData "access_token") as [| | b | n | secret];
    try callback_fails.
  destruct (calculate_expiration env tokenData) as [[e |] |]; try callback_fails.
  all: destruct (customerAccessToken w !! generate_id env (ids_used w)) eqn:Hfresh;
    [callback_fails |].
  all: unfold bind, codeVerifier_delete, ret;
    cbn [log codeVerifier customerAccessToken ids_used entropy_used trace];
    rewrite Hfound; unfold setCustomerTokenId; cbn [tok_id];
    destruct (commitSession env
                (session_with_token env request (generate_id env (ids_used w))))
      as [err | header] eqn:Hcommit; cbn [Callback.handler];
    right; exists state, record.
  1, 2: exists {| tok_id := generate_id env (ids_used w);
                  tok_shop := SHOP_STOREFRONT_DOMAIN env;
                  tok_accessToken := secret; tok_expiresAt := Some e |}.
  3, 4: exists {| tok_id := generate_id env (ids_used w);
                  tok_shop := SHOP_STOREFRONT_DOMAIN env;
                  tok_accessToken := secret; tok_expiresAt := None |}.
  all: cbn [tok_id tok_shop]; rewrite Hcommit;
    repeat split; try reflexivity; assumption.
Qed.

(** ** The other failures of the initiation *)

(** X7. When the state an initiation generates is already the state of a
    stored row, the initiation fails: it returns an error payload instead
    of a redirect, and the row that was there is still there, with its own
    verifier; the only database event is the refused create. *)
Theorem auth_duplicate_state (env : Env) (request : Request) (w : World)
    (r : FetchResponse) (cfg : JsObject) (existing : CodeVerifier) :
  network env (GET (openid_configuration_url env)) = Responded r ->
  ok r = true ->
  body_json r = inr cfg ->
  let verifier := Buffer.to_base64url (map (entropy env) (seq (entropy_used w) 32)) in
  let state := Buffer.to_base64url (map (entropy env) (seq (entropy_used w + 32) 16)) in
  codeVerifier w !! state = Some existing ->
  let '(response, w') := Auth.loader env request w in
  (exists msg : string, response = Data [("error", JStr msg)])
  /\ codeVerifier w' = codeVerifier w
  /\ codeVerifier w' !! state = Some existing
  /\ List.filter is_database_event (events_since w w')
     = [ECodeVerifierCreate state verifier].
Proof.
  intros Hnet Hok Hjson verifier state Hexisting.
  unfold Auth.loader, try_catch, Auth.body, bind.
  rewrite (fetch_responded _ _ _ _ Hnet), Hok. cbn [negb].
  unfold response_json. rewrite Hjson.
  unfold generateCodeVerifier, generateState, bind, randomBytes, ret, crypto.encode.
  cbn [log entropy_used codeVerifier customerAccessToken ids_used trace].
  fold verifier. fold state.
  unfold codeVerifier_create.
  cbn [log entropy_used codeVerifier customerAccessToken ids_used trace].
  rewrite Hexisting. cbn [Auth.handler].
  events_of_world.
  repeat split; [eexists; reflexivity | exact Hexisting].
Qed.

Lemma auth_duplicate_state_witness :
  let '(response, w') :=
    Auth.loader (Scenario.env (Scenario.provider (Rejected (Error "fetch failed"))) 0)
      (Scenario.request "/customer-account-api/auth" [] None)
      (Scenario.world
         {[ "q9D1Gj9kia7T-B1CZ4yx1g"
            := {| cv_state := "q9D1Gj9kia7T-B1CZ4yx1g"; cv_verifier := "earlier" |} ]} ∅) in
  (exists msg : string, response = Data [("error", JStr msg)])
  /\ codeVerifier w' !! "q9D1Gj9kia7T-B1CZ4yx1g"
     = Some {| cv_state := "q9D1Gj9kia7T-B1CZ4yx1g"; cv_verifier := "earlier" |}.
Proof.
  assert (Hrow0 :
            codeVerifier
              (Scenario.world
                 {[ "q9D1Gj9kia7T-B1CZ4yx1g"
                    := {| cv_state := "q9D1Gj9kia7T-B1CZ4yx1g";
                          cv_verifier := "earlier" |} ]} ∅)
            !! "q9D1Gj9kia7T-B1CZ4yx1g"
            = Some {| cv_state := "q9D1Gj9kia7T-B1CZ4yx1g"; cv_verifier := "earlier" |})
    by (vm_compute; reflexivity).
  pose proof (auth_duplicate_state
                (Scenario.env (Scenario.provider (Rejected (Error "fetch failed"))) 0)
                (Scenario.request "/customer-account-api/auth" [] None)
                (Scenario.world
                   {[ "q9D1Gj9kia7T-B1CZ4yx1g"
                      := {| cv_state := "q9D1Gj9kia7T-B1CZ4yx1g";
                            cv_verifier := "earlier" |} ]} ∅)
                {| status := 200; statusText := "OK"; body_text := EmptyString;
                   body_json := inr Scenario.openid_document |}
                Scenario.openid_document
                {| cv_state := "q9D1Gj9kia7T-B1CZ4yx1g"; cv_verifier := "earlier" |}
                eq_refl eq_refl eq_refl Hrow0) as H.
  destruct (Auth.loader _ _ _) as [response w'].
  destruct H as (Hresponse & _ & Hrow & _).
  split; [exact Hresponse | exact Hrow].
Defined.

(** X8. When the discovery document is served but its
    [authorization_endpoint] is not a URL (or is missing), the initiation
    fails with an error payload and no redirect; the CodeVerifier row of
    the generated state has been stored before the failure and stays in
    the store. *)
Theorem auth_invalid_endpoint_leaves_row (env : Env) (request : Request) (w : World)
    (r : FetchResponse) (cfg : JsObject) :
  network env (GET (openid_configuration_url env)) = Responded r ->
  ok r = true ->
  body_json r = inr cfg ->
  parse_URL env (js_to_string (get_prop cfg "authorization_endpoint")) = None ->
  let verifier := Buffer.to_base64url (map (entropy env) (seq (entropy_used w) 32)) in
  let state := Buffer.to_base64url (map (entropy env) (seq (entropy_used w + 32) 16)) in
  codeVerifier w !! state = None ->
  let '(response, w') := Auth.loader env request w in
  (exists msg : string, response = Data [("error", JStr msg)])
  /\ codeVerifier w' !! state = Some {| cv_state := state; cv_verifier := verifier |}
  /\ codeVerifier w'
     = <[state := {| cv_state := state; cv_verifier := verifier |}]> (codeVerifier w)
  /\ List.filter is_database_event (events_since w w')
     = [ECodeVerifierCreate state verifier].
Proof.
  intros Hnet Hok Hjson Hparse verifier state Hfresh.
  unfold Auth.loader, try_catch, Auth.body, bind.
  rewrite (fetch_responded _ _ _ _ Hnet), Hok. cbn [negb].
  unfold response_json. rewrite Hjson.
  unfold generateCodeVerifier, generateState, bind, randomBytes, ret, crypto.encode.
  cbn [log entropy_used codeVerifier customerAccessToken ids_used trace].
  fold verifier. fold state.
  unfold codeVerifier_create.
  cbn [log entropy_used codeVerifier customerAccessToken ids_used trace].
  rewrite Hfresh. unfold new_URL. rewrite Hparse. cbn [Auth.handler].
  events_of_world. cbn [codeVerifier console_error log].
  repeat split; [eexists; reflexivity | apply lookup_insert_eq].
Qed.

Lemma auth_invalid_endpoint_leaves_row_witness :
  let '(response, w') :=
    Auth.loader
      (Scenario.env (fun _ => Scenario.respond 200 "OK" EmptyString (inr [])) 0)
      (Scenario.request "/customer-account-api/auth" [] None)
      (Scenario.world ∅ ∅) in
  (exists msg : string, response = Data [("error", JStr msg)])
  /\ codeVerifier w' !! "q9D1Gj9kia7T-B1CZ4yx1g"
     = Some {| cv_state := "q9D1Gj9kia7T-B1CZ4yx1g";
               cv_verifier := "CzBVep_E6Q4zWH2ix-wRNluApcrvFDleg6jN8hc8YYY" |}.
Proof.
  pose proof (auth_invalid_endpoint_leaves_row
                (Scenario.env (fun _ => Scenario.respond 200 "OK" EmptyString (inr [])) 0)
                (Scenario.request "/customer-account-api/auth" [] None)
                (Scenario.world ∅ ∅)
                {| status := 200; statusText := "OK"; body_text := EmptyString;
                   body_json := inr [] |}
                [] eq_refl eq_refl eq_refl eq_refl (lookup_empty _)) as H.
  destruct (Auth.loader _ _ _) as [response w'].
  destruct H as (Hresponse & Hrow & _).
  split; [exact Hresponse | exact Hrow].
Defined.

(** ** The other failures of the order list *)

(** X9. Without a token id in the session (none, or an empty one) the
    order-list loader returns the not-authenticated error at once: the
    database is not asked and the provider is not contacted. *)
Theorem order_list_without_session (env : Env) (request : Request) (w : World) :
  present (getCustomerTokenId env request) = false ->
  let '(response, w') := OrderList.loader env request w in
  response
  = Data [ ("success", JBool false);
           ("error",
            JStr "No customer authentication found. Please authenticate first.") ]
  /\ events_since w w'
     = [ EConsoleError "Error loading access token:"
           (Error "No customer authentication found. Please authenticate first.") ].
Proof.
  intros Habsent.
  unfold OrderList.loader, try_catch, OrderList.body. rewrite Habsent.
  cbn [negb throw OrderList.handler message]. events_of_world.
  split; reflexivity.
Qed.

Lemma order_list_without_session_witness :
  let '(response, w') :=
    OrderList.loader (Scenario.env Scenario.provider_down 0)
      (Scenario.request "/customer-account-api/order-list" [] None)
      (Scenario.world ∅ {[ "token-0" := Scenario.stored None ]}) in
  response
  = Data [ ("success", JBool false);
           ("error",
            JStr "No customer authentication found. Please authenticate first.") ]
  /\ events_since (Scenario.world ∅ {[ "token-0" := Scenario.stored None ]}) w'
     = [ EConsoleError "Error loading access token:"
           (Error "No customer authentication found. Please authenticate first.") ].
Proof.
  exact (order_list_without_session (Scenario.env Scenario.provider_down 0)
           (Scenario.request "/customer-account-api/order-list" [] None)
           (Scenario.world ∅ {[ "token-0" := Scenario.stored None ]})
           eq_refl).
Defined.

(** X10. A session whose token id has no row in the store (a dangling
    reference) gets the token-not-found error after the one lookup; the
    provider is not contacted. *)
Theorem order_list_token_not_found (env : Env) (request : Request) (w : World)
    (id : string) :
  getCustomerTokenId env request = Some id ->
  id <> EmptyString ->
  customerAccessToken w !! id = None ->
  let '(response, w') := OrderList.loader env request w in
  response = Data [("success", JBool false); ("error", JStr "Access token not found")]
  /\ events_since w w'
     = [ ETokenFindUnique id;
         EConsoleError "Error loading access token:" (Error "Access token not found") ].
Proof.
  intros Hsession Hid Hnone.
  unfold OrderList.loader, try_catch, OrderList.body.
  rewrite Hsession, (present_Some id Hid). cbn [negb the_string].
  unfold bind, customerAccessToken_findUnique. cbn [log customerAccessToken].
  rewrite Hnone. cbn [throw OrderList.handler message]. events_of_world.
  split; reflexivity.
Qed.

Lemma order_list_token_not_found_witness :
  let '(response, w') :=
    OrderList.loader (Scenario.env Scenario.provider_down 0)
      (Scenario.request "/customer-account-api/order-list" [] (Some "token-9"))
      (Scenario.world ∅ {[ "token-0" := Scenario.stored None ]}) in
  response = Data [("success", JBool false); ("error", JStr "Access token not found")]
  /\ events_since (Scenario.world ∅ {[ "token-0" := Scenario.stored None ]}) w'
     = [ ETokenFindUnique "token-9";
         EConsoleError "Error loading access token:" (Error "Access token not found") ].
Proof.
  assert (Hsession :
            getCustomerTokenId (Scenario.env Scenario.provider_down 0)
              (Scenario.request "/customer-account-api/order-list" [] (Some "token-9"))
            = Some "token-9") by (vm_compute; reflexivity).
  assert (Hnone :
            customerAccessToken
              (Scenario.world ∅ {[ "token-0" := Scenario.stored None ]}) !! "token-9"
            = None) by (vm_compute; reflexivity).
  exact (order_list_token_not_found (Scenario.env Scenario.provider_down 0)
           (Scenario.request "/customer-account-api/order-list" [] (Some "token-9"))
           (Scenario.world ∅ {[ "token-0" := Scenario.stored None ]})
           "token-9" Hsession ltac:(discriminate) Hnone).
Defined.

(** X11. When the token is valid but the provider answers the discovery
    of the API endpoint with a status outside 200-299, the order-list
    loader returns an error whose message ends with the status text; the
    payload holds no access token. *)
Theorem order_list_discovery_failure (env : Env) (request : Request) (w : World)
    (id : string) (t : CustomerAccessToken) (r : FetchResponse) :
  getCustomerTokenId env request = Some id ->
  id <> EmptyString ->
  customerAccessToken w !! id = Some t ->
  expired env t = false ->
  network env (GET (customer_account_api_url env)) = Responded r ->
  ok r = false ->
  let '(response, w') := OrderList.loader env request w in
  response
  = Data [ ("success", JBool false);
           ("error",
            JStr ("Failed to fetch Customer Account API configuration: "
                  +:+ statusText r)) ]
  /\ events_since w w'
     = [ ETokenFindUnique id;
         EFetch (GET (customer_account_api_url env));
         EConsoleError "Error loading access token:"
           (Error ("Failed to fetch Customer Account API configuration: "
                   +:+ statusText r)) ].
Proof.
  intros Hsession Hid Hfound Hvalid Hnet Hok.
  unfold OrderList.loader, try_catch, OrderList.body.
  rewrite Hsession, (present_Some id Hid). cbn [negb the_string].
  unfold bind, customerAccessToken_findUnique. cbn [log customerAccessToken].
  rewrite Hfound, Hvalid.
  rewrite (fetch_responded _ _ _ _ Hnet), Hok.
  cbn [negb throw OrderList.handler message]. events_of_world.
  split; reflexivity.
Qed.

Lemma order_list_discovery_failure_witness :
  let '(response, w') :=
    OrderList.loader (Scenario.env Scenario.provider_down 0)
      (Scenario.request "/customer-account-api/order-list" [] (Some "token-0"))
      (Scenario.world ∅ {[ "token-0" := Scenario.stored None ]}) in
  response
  = Data [ ("success", JBool false);
           ("error",
            JStr "Failed to fetch Customer Account API configuration: Internal Server Error") ]
  /\ events_since (Scenario.world ∅ {[ "token-0" := Scenario.stored None ]}) w'
     = [ ETokenFindUnique "token-0";
         EFetch (GET "https://shop.example.com/.well-known/customer-account-api");
         EConsoleError "Error loading access token:"
           (Error "Failed to fetch Customer Account API configuration: Internal Server Error") ].
Proof.
  assert (Hsession :
            getCustomerTokenId (Scenario.env Scenario.provider_down 0)
              (Scenario.request "/customer-account-api/order-list" [] (Some "token-0"))
            = Some "token-0") by (vm_compute; reflexivity).
  assert (Hfound :
            customerAccessToken
              (Scenario.world ∅ {[ "token-0" := Scenario.stored None ]}) !! "token-0"
            = Some (Scenario.stored None)) by (vm_compute; reflexivity).
  exact (order_list_discovery_failure (Scenario.env Scenario.provider_down 0)
           (Scenario.request "/customer-account-api/order-list" [] (Some "token-0"))
           (Scenario.world ∅ {[ "token-0" := Scenario.stored None ]})
           "token-0" (Scenario.stored None)
           {| status := 500; statusText := "Internal Server Error";
              body_text := EmptyString;
              body_json := inl (Error "Unexpected end of JSON input") |}
           Hsession ltac:(discriminate) Hfound eq_refl eq_refl eq_refl).
Defined.

(** ** The callback, end to end *)

(** X12. A [code] or [state] parameter that is present but empty is
    handled as a missing one: the callback returns the missing-parameter
    error and neither the database nor the provider is asked. *)
Theorem callback_empty_parameter (env : Env) (request : Request) (w : World) :
  URLSearchParams.get "code" (searchParams (req_url request)) = Some EmptyString
  \/ URLSearchParams.get "state" (searchParams (req_url request)) = Some EmptyString ->
  let '(response, w') := Callback.loader env request w in
  response
  = Data [("success", JBool false); ("error", JStr "Missing code or state parameter")]
  /\ events_since w w'
     = [EConsoleError "Error in callback:" (Error "Missing code or state parameter")].
Proof.
  intros H. rewrite callback_not_present.
  - rewrite events_since_console_error. split; reflexivity.
  - destruct H as [-> | ->]; [left | right]; reflexivity.
Qed.

Lemma callback_empty_parameter_witness :
  let '(response, w') :=
    Callback.loader (Scenario.env Scenario.provider_down 0)
      (Scenario.request "/customer-account-api/callback"
         [("code", EmptyString); ("state", "S")] None)
      Scenario.initiated in
  response
  = Data [("success", JBool false); ("error", JStr "Missing code or state parameter")]
  /\ events_since Scenario.initiated w'
     = [EConsoleError "Error in callback:" (Error "Missing code or state parameter")].
Proof.
  exact (callback_empty_parameter (Scenario.env Scenario.provider_down 0)
           (Scenario.request "/customer-account-api/callback"
              [("code", EmptyString); ("state", "S")] None)
           Scenario.initiated (or_introl eq_refl)).
Defined.

(** A granted exchange, run. *)
Lemma callback_run_granted (env : Env) (request : Request) (w : World)
    (code state secret : string) (record : CodeVerifier) (tokenData : JsObject)
    (expiresAt : option Z) :
  exchange_granted env request w code state record tokenData secret ->
  calculate_expiration env tokenData = option_map Some expiresAt ->
  let id := generate_id env (ids_used w) in
  let row := {| tok_id := id; tok_shop := SHOP_STOREFRONT_DOMAIN env;
                tok_accessToken := secret; tok_expiresAt := expiresAt |} in
  exists evs : list Event,
    Callback.loader env request w
    = (callback_answer env request id,
       {| codeVerifier := delete state (codeVerifier w);
          customerAccessToken := <[id := row]> (customerAccessToken w);
          entropy_used := entropy_used w;
          ids_used := S (ids_used w);
          trace := trace w ++ evs |}).
Proof.
  intros (Hcode & Hc & Hstate & Hs & Hfound
          & (r1 & r2 & cfg & Hnet1 & Hok1 & Hjson1 & Hnet2 & Hok2 & Hjson2)
          & Hsecret & Hfresh) Hexp id row.
  eexists.
  rewrite (callback_run_success env request w code state secret record r1 r2 cfg tokenData
             expiresAt Hcode Hc Hstate Hs Hfound Hnet1 Hok1 Hjson1 Hnet2 Hok2 Hjson2
             Hsecret Hexp Hfresh).
  reflexivity.
Qed.

(** X13. When the exchange is granted and the token document gives a
    lifetime of [n] seconds, [n] an integer other than zero, the row that
    is persisted holds the provider's secret, the configured shop domain
    and an expiry of the current time plus [n] seconds (in milliseconds),
    provided that instant is one a [Date] can hold; the verifier row of
    the state is gone.  The loader answers with the redirect that carries
    the session cookie of the new id when the cookie can be written, and
    with [{success:false, error}] holding the cookie's error when it
    cannot; the row is persisted and the verifier gone in both cases. *)
Theorem callback_persists_lifetime (env : Env) (request : Request) (w : World)
    (code state secret : string) (record : CodeVerifier) (tokenData : JsObject)
    (n : Z) :
  exchange_granted env request w code state record tokenData secret ->
  get_prop tokenData "expires_in" = JNum n ->
  n <> 0 ->
  Z.abs (Date_now env + n * 1000) <= 8640000000000000 ->
  let id := generate_id env (ids_used w) in
  let '(response, w') := Callback.loader env request w in
  match commitSession env (session_with_token env request id) with
  | inr setCookieHeader =>
      response = Redirect "/customer-account-api/order-list"
                   [("Set-Cookie", setCookieHeader)]
  | inl error =>
      response = Data [("success", JBool false); ("error", JStr (message error))]
  end
  /\ customerAccessToken w' !! id
     = Some {| tok_id := id; tok_shop := SHOP_STOREFRONT_DOMAIN env;
               tok_accessToken := secret;
               tok_expiresAt := Some (Date_now env + n * 1000) |}
  /\ codeVerifier w' !! state = None.
Proof.
  intros Hgranted Hn Hnz Hrange id.
  destruct (callback_run_granted env request w code state secret record tokenData
              (Some (Date_now env + n * 1000)) Hgranted
              (calculate_expiration_seconds env tokenData n Hn Hnz Hrange))
    as (evs & ->).
  cbn [customerAccessToken codeVerifier].
  split; [| split; [apply lookup_insert_eq | apply lookup_delete_eq]].
  unfold callback_answer. subst id.
  destruct (commitSession env
              (session_with_token env request (generate_id env (ids_used w))));
    reflexivity.
Qed.

(** The scenario's provider grants the exchange of the scenario's callback. *)
Lemma scenario_exchange_granted (fields : JsObject) (now : Z) :
  exchange_granted (Scenario.env (Scenario.provider (Scenario.granted fields)) now)
    Scenario.callback Scenario.initiated "abc" "S" Scenario.pending
    (("access_token", JStr "tok1") :: fields) "tok1".
Proof.
  unfold exchange_granted.
  split; [reflexivity |]. split; [discriminate |].
  split; [reflexivity |]. split; [discriminate |].
  split; [vm_compute; reflexivity |].
  split.
  - exists {| status := 200; statusText := "OK"; body_text := EmptyString;
              body_json := inr Scenario.openid_document |},
           {| status := 200; statusText := "OK"; body_text := EmptyString;
              body_json := inr (("access_token", JStr "tok1") :: fields) |},
           Scenario.openid_document.
    repeat split; reflexivity.
  - split; [reflexivity | vm_compute; reflexivity].
Qed.

Lemma callback_persists_lifetime_witness :
  let '(response, w') :=
    Callback.loader
      (Scenario.env (Scenario.provider (Scenario.granted [("expires_in", JNum 3600)]))
         1700000000000)
      Scenario.callback Scenario.initiated in
  response = Redirect "/customer-account-api/order-list"
               [("Set-Cookie", "__customer_session=token-0")]
  /\ customerAccessToken w' !! "token-0"
     = Some {| tok_id := "token-0"; tok_shop := "shop.example.com";
               tok_accessToken := "tok1"; tok_expiresAt := Some 1700003600000 |}
  /\ codeVerifier w' !! "S" = None.
Proof.
  pose proof (callback_persists_lifetime
                (Scenario.env
                   (Scenario.provider (Scenario.granted [("expires_in", JNum 3600)]))
                   1700000000000)
                Scenario.callback Scenario.initiated "abc" "S" "tok1" Scenario.pending
                [("access_token", JStr "tok1"); ("expires_in", JNum 3600)] 3600
                (scenario_exchange_granted [("expires_in", JNum 3600)] 1700000000000)
                eq_refl ltac:(lia) ltac:(vm_compute; discriminate)) as H.
  cbv zeta in H.
  destruct (Callback.loader _ _ _) as [response w'].
  exact H.
Defined.

(** A callback whose state has no row in the store, run. *)
Lemma callback_run_unknown_state (env : Env) (request : Request) (w : World)
    (code state : string) :
  URLSearchParams.get "code" (searchParams (req_url request)) = Some code ->
  code <> EmptyString ->
  URLSearchParams.get "state" (searchParams (req_url request)) = Some state ->
  state <> EmptyString ->
  codeVerifier w !! state = None ->
  Callback.loader env request w
  = (Data [ ("success", JBool false);
            ("error", JStr "Invalid state parameter or code verifier not found") ],
     console_error "Error in callback:"
       (Error "Invalid state parameter or code verifier not found")
       (log (ECodeVerifierFindUnique state) w)).
Proof.
  intros Hcode Hc Hstate Hs Hnone.
  unfold Callback.loader, try_catch, Callback.body.
  rewrite Hcode, Hstate, (present_Some code Hc), (present_Some state Hs).
  cbn [negb orb the_string].
  unfold bind, codeVerifier_findUnique. cbn [log codeVerifier].
  rewrite Hnone. reflexivity.
Qed.

(** X14. The token a granted callback persists is the token the order
    list hands out.  After the callback, a request whose session holds the
    id the callback put into its cookie, made while the token has not
    expired and the provider serves the API discovery document, gets
    [success:true] with that id, the provider's secret as [accessToken]
    and the shop the callback stored. *)
Theorem callback_then_order_list (env : Env) (request : Request) (w : World)
    (code state secret : string) (record : CodeVerifier) (tokenData : JsObject)
    (expiresAt : option Z)
    (env2 : Env) (request2 : Request) (r : FetchResponse) (cfg : JsObject) :
  exchange_granted env request w code state record tokenData secret ->
  calculate_expiration env tokenData = option_map Some expiresAt ->
  let id := generate_id env (ids_used w) in
  id <> EmptyString ->
  getCustomerTokenId env2 request2 = Some id ->
  (forall e, expiresAt = Some e -> Date_now env2 <= e) ->
  network env2 (GET (customer_account_api_url env2)) = Responded r ->
  ok r = true ->
  body_json r = inr cfg ->
  let '(_, w1) := Callback.loader env request w in
  let '(response, _) := OrderList.loader env2 request2 w1 in
  exists obj : JsObject,
    response = Data obj
    /\ get_prop obj "success" = JBool true
    /\ get_prop obj "tokenId" = JStr id
    /\ get_prop obj "accessToken" = JStr secret
    /\ get_prop obj "shop" = JStr (SHOP_STOREFRONT_DOMAIN env)
    /\ get_prop obj "graphqlApiUrl" = get_prop cfg "graphql_api".
Proof.
  intros Hgranted Hexp id Hid Hsession Hvalid Hnet Hok Hjson.
  destruct (callback_run_granted env request w code state secret record tokenData
              expiresAt Hgranted Hexp) as (evs & ->).
  fold id.
  set (row := {| tok_id := id; tok_shop := SHOP_STOREFRONT_DOMAIN env;
                 tok_accessToken := secret; tok_expiresAt := expiresAt |}).
  set (w1 := {| codeVerifier := _ |}).
  assert (Hfound : customerAccessToken w1 !! id = Some row) by apply lookup_insert_eq.
  assert (Hfresh : expired env2 row = false).
  { apply not_expired_iff. cbn [row tok_expiresAt].
    destruct expiresAt as [e |]; [right | left; reflexivity].
    exists e. split; [reflexivity | apply Hvalid; reflexivity]. }
  rewrite (order_list_run_accepted env2 request2 w1 id row r cfg
             Hsession Hid Hfound Hnet Hok Hjson Hfresh).
  eexists. split; [reflexivity |]. repeat split.
Qed.

(** X15. A state is good for one granted exchange.  When the callback of
    a request has gone through, the same request sent again, whatever the
    provider would answer now, fails with the invalid-state error at the
    lookup: no request is sent and no second token is stored. *)
Theorem callback_replay_is_refused (env : Env) (request : Request) (w : World)
    (code state secret : string) (record : CodeVerifier) (tokenData : JsObject)
    (expiresAt : option Z) (env2 : Env) :
  exchange_granted env request w code state record tokenData secret ->
  calculate_expiration env tokenData = option_map Some expiresAt ->
  let '(_, w1) := Callback.loader env request w in
  let '(response, w2) := Callback.loader env2 request w1 in
  response
  = Data [ ("success", JBool false);
           ("error", JStr "Invalid state parameter or code verifier not found") ]
  /\ customerAccessToken w2 = customerAccessToken w1
  /\ events_since w1 w2
     = [ ECodeVerifierFindUnique state;
         EConsoleError "Error in callback:"
           (Error "Invalid state parameter or code verifier not found") ].
Proof.
  intros Hgranted Hexp.
  destruct (callback_run_granted env request w code state secret record tokenData
              expiresAt Hgranted Hexp) as (evs & ->).
  destruct Hgranted as (Hcode & Hc & Hstate & Hs & _).
  set (w1 := {| codeVerifier := _ |}).
  assert (Hgone : codeVerifier w1 !! state = None) by apply lookup_delete_eq.
  rewrite (callback_run_unknown_state env2 request w1 code state Hcode Hc Hstate Hs Hgone).
  events_of_world. repeat split.
Qed.

Lemma callback_then_order_list_witness :
  let '(_, w1) :=
    Callback.loader
      (Scenario.env (Scenario.provider (Scenario.granted [("expires_in", JNum 3600)]))
         1700000000000)
      Scenario.callback Scenario.initiated in
  let '(response, _) :=
    OrderList.loader
      (Scenario.env (Scenario.provider (Rejected (Error "fetch failed"))) 1700000001000)
      (Scenario.request "/customer-account-api/order-list" [] (Some "token-0"))
      w1 in
  exists obj : JsObject,
    response = Data obj
    /\ get_prop obj "success" = JBool true
    /\ get_prop obj "tokenId" = JStr "token-0"
    /\ get_prop obj "accessToken" = JStr "tok1"
    /\ get_prop obj "shop" = JStr "shop.example.com"
    /\ get_prop obj "graphqlApiUrl"
       = JStr "https://shopify.com/1/account/customer/api/graphql".
Proof.
  assert (Hsession :
            getCustomerTokenId
              (Scenario.env (Scenario.provider (Rejected (Error "fetch failed")))
                 1700000001000)
              (Scenario.request "/customer-account-api/order-list" [] (Some "token-0"))
            = Some "token-0") by (vm_compute; reflexivity).
  pose proof (callback_then_order_list
                (Scenario.env
                   (Scenario.provider (Scenario.granted [("expires_in", JNum 3600)]))
                   1700000000000)
                Scenario.callback Scenario.initiated "abc" "S" "tok1" Scenario.pending
                [("access_token", JStr "tok1"); ("expires_in", JNum 3600)]
                (Some 1700003600000)
                (Scenario.env (Scenario.provider (Rejected (Error "fetch failed")))
                   1700000001000)
                (Scenario.request "/customer-account-api/order-list" [] (Some "token-0"))
                {| status := 200; statusText := "OK"; body_text := EmptyString;
                   body_json :=
                     inr [("graphql_api",
                           JStr "https://shopify.com/1/account/customer/api/graphql")] |}
                [("graphql_api", JStr "https://shopify.com/1/account/customer/api/graphql")]
                (scenario_exchange_granted [("expires_in", JNum 3600)] 1700000000000)
                eq_refl ltac:(discriminate) Hsession
                ltac:(intros e [= <-]; vm_compute; discriminate)
                eq_refl eq_refl eq_refl) as H.
  cbv zeta in H.
  destruct (Callback.loader _ _ _) as [response1 w1].
  destruct (OrderList.loader _ _ w1) as [response w2].
  exact H.
Defined.

Lemma callback_replay_is_refused_witness :
  let '(_, w1) :=
    Callback.loader
      (Scenario.env (Scenario.provider (Scenario.granted [("expires_in", JNum 3600)]))
         1700000000000)
      Scenario.callback Scenario.initiated in
  let '(response, w2) :=
    Callback.loader
      (Scenario.env (Scenario.provider (Scenario.granted [("expires_in", JNum 3600)]))
         1700000001000)
      Scenario.callback w1 in
  response
  = Data [ ("success", JBool false);
           ("error", JStr "Invalid state parameter or code verifier not found") ]
  /\ customerAccessToken w2 = customerAccessToken w1
  /\ events_since w1 w2
     = [ ECodeVerifierFindUnique "S";
         EConsoleError "Error in callback:"
           (Error "Invalid state parameter or code verifier not found") ].
Proof.
  exact (callback_replay_is_refused
           (Scenario.env (Scenario.provider (Scenario.granted [("expires_in", JNum 3600)]))
              1700000000000)
           Scenario.callback Scenario.initiated "abc" "S" "tok1" Scenario.pending
           [("access_token", JStr "tok1"); ("expires_in", JNum 3600)]
           (Some 1700003600000)
           (Scenario.env (Scenario.provider (Scenario.granted [("expires_in", JNum 3600)]))
              1700000001000)
           (scenario_exchange_granted [("expires_in", JNum 3600)] 1700000000000)
           eq_refl).
Defined.

(** ** From the initiation to the exchange *)

(** Once the verifier is found and the discovery document is read, the
    callback sends the token request, whatever comes of it. *)
Lemma callback_sends_exchange (env : Env) (request : Request) (w : World)
    (code state : string) (record : CodeVerifier) (r1 : FetchResponse) (cfg : JsObject) :
  URLSearchParams.get "code" (searchParams (req_url request)) = Some code ->
  code <> EmptyString ->
  URLSearchParams.get "state" (searchParams (req_url request)) = Some state ->
  state <> EmptyString ->
  codeVerifier w !! state = Some record ->
  network env (GET (openid_configuration_url env)) = Responded r1 ->
  ok r1 = true ->
  body_json r1 = inr cfg ->
  exists rest : list Event,
    events_since w (snd (Callback.loader env request w))
    = [ ECodeVerifierFindUnique state;
        EFetch (GET (openid_configuration_url env));
        EFetch (token_request env (get_prop cfg "token_endpoint")
                  (callback_url (req_url request)) code (cv_verifier record)) ]
      ++ rest.
Proof.
  intros Hcode Hc Hstate Hs Hfound Hnet1 Hok1 Hjson1.
  unfold Callback.loader, try_catch, Callback.body.
  rewrite Hcode, Hstate, (present_Some code Hc), (present_Some state Hs).
  cbn [negb orb the_string].
  unfold bind at 1. unfold codeVerifier_findUnique. cbn [log codeVerifier].
  rewrite Hfound.
  unfold bind at 1. rewrite (fetch_responded _ _ _ _ Hnet1), Hok1. cbn [negb].
  unfold bind at 1. unfold response_json at 1. rewrite Hjson1.
  unfold bind at 1. unfold fetch at 1.
  destruct (network env
              (token_request env (get_prop cfg "token_endpoint")
                 (callback_url (req_url request)) code (cv_verifier record)))
    as [e3 | r2].
  { cbn [Callback.handler snd]. eexists. events_of_run. }
  destruct (ok r2); cbn [negb].
  2: { cbn [throw Callback.handler snd]. eexists. events_of_run. }
  unfold bind at 1. unfold response_json at 1.
  destruct (body_json r2) as [e4 | tokenData].
  { cbn [Callback.handler snd]. eexists. events_of_run. }
  unfold bind at 1. unfold customerAccessToken_create.
  cbn [log codeVerifier customerAccessToken ids_used entropy_used trace].
  destruct (get_prop tokenData "access_token") as [| | b | n | secret];
    try (cbn [Callback.handler snd]; eexists; events_of_run).
  destruct (calculate_expiration env tokenData) as [[e |] |];
    try (cbn [Callback.handler snd]; eexists; events_of_run).
  - destruct (customerAccessToken w !! generate_id env (ids_used w)).
    { cbn [Callback.handler snd]. eexists. events_of_run. }
    unfold bind, codeVerifier_delete, ret.
    cbn [log codeVerifier customerAccessToken ids_used entropy_used trace].
    rewrite Hfound. unfold setCustomerTokenId.
    destruct (commitSession env _);
      cbn [Callback.handler snd]; eexists; events_of_run.
  - destruct (customerAccessToken w !! generate_id env (ids_used w)).
    { cbn [Callback.handler snd]. eexists. events_of_run. }
    unfold bind, codeVerifier_delete, ret.
    cbn [log codeVerifier customerAccessToken ids_used entropy_used trace].
    rewrite Hfound. unfold setCustomerTokenId.
    destruct (commitSession env _);
      cbn [Callback.handler snd]; eexists; events_of_run.
Qed.

(** X16. The exchange is bound to the initiation.  After a successful
    initiation, a callback that presents the state of the redirect (with
    any code) finds the verifier and, once it has read the discovery
    document, sends a token request whose [code_verifier] is the verifier
    whose challenge the redirect carried as [code_challenge] with method
    S256; the request goes to the discovered token endpoint with the code
    received and the callback URL of the callback's own host. *)
Theorem initiation_binds_exchange (env : Env) (request : Request) (w : World)
    (r : FetchResponse) (cfg : JsObject) (endpoint : URL)
    (env2 : Env) (request2 : Request) (code : string)
    (r2 : FetchResponse) (cfg2 : JsObject) :
  network env (GET (openid_configuration_url env)) = Responded r ->
  ok r = true ->
  body_json r = inr cfg ->
  parse_URL env (js_to_string (get_prop cfg "authorization_endpoint")) = Some endpoint ->
  let verifier := Buffer.to_base64url (map (entropy env) (seq (entropy_used w) 32)) in
  let state := Buffer.to_base64url (map (entropy env) (seq (entropy_used w + 32) 16)) in
  codeVerifier w !! state = None ->
  URLSearchParams.get "code" (searchParams (req_url request2)) = Some code ->
  code <> EmptyString ->
  URLSearchParams.get "state" (searchParams (req_url request2)) = Some state ->
  network env2 (GET (openid_configuration_url env2)) = Responded r2 ->
  ok r2 = true ->
  body_json r2 = inr cfg2 ->
  let '(response1, w1) := Auth.loader env request w in
  let '(_, w2) := Callback.loader env2 request2 w1 in
  exists (authUrl : URL) (exchange : FetchRequest),
    response1 = Redirect (URL_toString authUrl) []
    /\ URLSearchParams.getAll "state" (searchParams authUrl) = [state]
    /\ URLSearchParams.getAll "code_challenge" (searchParams authUrl)
       = [generateCodeChallenge verifier]
    /\ URLSearchParams.getAll "code_challenge_method" (searchParams authUrl) = ["S256"]
    /\ In (EFetch exchange) (events_since w1 w2)
    /\ fr_url exchange = js_to_string (get_prop cfg2 "token_endpoint")
    /\ fr_method exchange = "POST"
    /\ fr_body exchange
       = Some (URLSearchParams.toString
                 [ ("grant_type", "authorization_code");
                   ("client_id", SHOPIFY_API_KEY env2);
                   ("redirect_uri", callback_url (req_url request2));
                   ("code", code);
                   ("code_verifier", verifier) ]).
Proof.
  intros Hnet Hok Hjson Hparse verifier state Hfresh Hcode Hc Hstate Hnet2 Hok2 Hjson2.
  rewrite (auth_run_redirect env request w r cfg endpoint Hnet Hok Hjson Hparse Hfresh).
  fold verifier. fold state.
  set (w1 := {| codeVerifier := _ |}).
  assert (Hs : state <> EmptyString).
  { intros Hempty.
    pose proof (to_base64url_length (map (entropy env) (seq (entropy_used w + 32) 16)))
      as Hlen.
    fold state in Hlen. rewrite Hempty, length_map, length_seq in Hlen. discriminate. }
  assert (Hfound : codeVerifier w1 !! state
                   = Some {| cv_state := state; cv_verifier := verifier |})
    by apply lookup_insert_eq.
  destruct (callback_sends_exchange env2 request2 w1 code state _ r2 cfg2
              Hcode Hc Hstate Hs Hfound Hnet2 Hok2 Hjson2) as (rest & Hevents).
  destruct (Callback.loader env2 request2 w1) as [response2 w2].
  cbn [snd] in Hevents.
  eexists. eexists. split; [reflexivity |].
  cbn [fold_left authorization_parameters fst snd URL_set_param searchParams].
  rewrite !getAll_set.
  split; [reflexivity |]. split; [reflexivity |]. split; [reflexivity |].
  split.
  { rewrite Hevents. cbn [app]. right. right. left. reflexivity. }
  repeat split.
Qed.

Lemma initiation_binds_exchange_witness :
  let '(response1, w1) :=
    Auth.loader (Scenario.env (Scenario.provider Scenario.refused) 0)
      (Scenario.request "/customer-account-api/auth" [] None)
      (Scenario.world ∅ ∅) in
  let '(_, w2) :=
    Callback.loader (Scenario.env (Scenario.provider Scenario.refused) 0)
      (Scenario.request "/customer-account-api/callback"
         [("code", "abc"); ("state", "q9D1Gj9kia7T-B1CZ4yx1g")] None)
      w1 in
  exists (authUrl : URL) (exchange : FetchRequest),
    response1 = Redirect (URL_toString authUrl) []
    /\ URLSearchParams.getAll "code_challenge" (searchParams authUrl)
       = [generateCodeChallenge "CzBVep_E6Q4zWH2ix-wRNluApcrvFDleg6jN8hc8YYY"]
    /\ In (EFetch exchange) (events_since w1 w2)
    /\ fr_body exchange
       = Some (URLSearchParams.toString
                 [ ("grant_type", "authorization_code");
                   ("client_id", "client-1");
                   ("redirect_uri",
                    "https://storefront.example.com/customer-account-api/callback");
                   ("code", "abc");
                   ("code_verifier", "CzBVep_E6Q4zWH2ix-wRNluApcrvFDleg6jN8hc8YYY") ]).
Proof.
  pose proof (initiation_binds_exchange
                (Scenario.env (Scenario.provider Scenario.refused) 0)
                (Scenario.request "/customer-account-api/auth" [] None)
                (Scenario.world ∅ ∅)
                {| status := 200; statusText := "OK"; body_text := EmptyString;
                   body_json := inr Scenario.openid_document |}
                Scenario.openid_document Scenario.authorize_url
                (Scenario.env (Scenario.provider Scenario.refused) 0)
                (Scenario.request "/customer-account-api/callback"
                   [("code", "abc"); ("state", "q9D1Gj9kia7T-B1CZ4yx1g")] None)
                "abc"
                {| status := 200; statusText := "OK"; body_text := EmptyString;
                   body_json := inr Scenario.openid_document |}
                Scenario.openid_document
                eq_refl eq_refl eq_refl eq_refl (lookup_empty _)
                eq_refl ltac:(discriminate) eq_refl eq_refl eq_refl eq_refl) as H.
  cbv zeta in H.
  destruct (Auth.loader _ _ _) as [response1 w1].
  destruct (Callback.loader _ _ w1) as [response2 w2].
  destruct H as (authUrl & exchange & H1 & _ & H3 & _ & H5 & _ & _ & H8).
  exists authUrl, exchange.
  split; [exact H1 |]. split; [exact H3 |]. split; [exact H5 | exact H8].
Defined.

(** ** What goes over the wire *)

Lemma string_app_assoc (a b c : string) : (a +:+ b) +:+ c = a +:+ (b +:+ c).
Proof.
  induction a as [| x a IH]; [reflexivity |].
  change (String x ((a +:+ b) +:+ c) = String x (a +:+ (b +:+ c))).
  rewrite IH. reflexivity.
Qed.

(** The serializer works character by character. *)
Lemma encode_app (a b : string) :
  URLSearchParams.encode (a +:+ b) = URLSearchParams.encode a +:+ URLSearchParams.encode b.
Proof.
  induction a as [| x a IH]; [reflexivity |].
  change (String x a +:+ b) with (String x (a +:+ b)).
  cbn [URLSearchParams.encode]. rewrite IH.
  destruct (URLSearchParams.unreserved x); [reflexivity |].
  destruct (Ascii.eqb x " "); reflexivity.
Qed.

Lemma encode_callback_url (h : string) :
  URLSearchParams.encode ("https://" +:+ h +:+ "/customer-account-api/callback")
  = "https%3A%2F%2F" +:+ URLSearchParams.encode h
    +:+ "%2Fcustomer-account-api%2Fcallback".
Proof. rewrite !encode_app. reflexivity. Qed.

Lemma generateCodeChallenge_alphabet (verifier : string) :
  base64url_string (generateCodeChallenge verifier) = true.
Proof.
  rewrite generateCodeChallenge_one_shot. apply to_base64url_alphabet.
Qed.

(** Setting a parameter leaves what comes before the query as it was. *)
Lemma before_query_set_param (name value : string) (u : URL) :
  URL_before_query (URL_set_param name value u) = URL_before_query u.
Proof. reflexivity. Qed.

(** The seven [set] calls of the initiation on an empty query. *)
Lemma set_on_bare_endpoint (clientId redirectUri state challenge : string) :
  URLSearchParams.set "code_challenge_method" "S256"
    (URLSearchParams.set "code_challenge" challenge
       (URLSearchParams.set "state" state
          (URLSearchParams.set "scope" "openid email customer-account-api:full"
             (URLSearchParams.set "redirect_uri" redirectUri
                (URLSearchParams.set "response_type" "code"
                   (URLSearchParams.set "client_id" clientId []))))))
  = [ ("client_id", clientId);
      ("response_type", "code");
      ("redirect_uri", redirectUri);
      ("scope", "openid email customer-account-api:full");
      ("state", state);
      ("code_challenge", challenge);
      ("code_challenge_method", "S256") ].
Proof. reflexivity. Qed.

(** The location written for an endpoint without a query, whatever the
    state and the challenge, as long as they are base64url strings. *)
Lemma location_of_bare_endpoint (env : Env) (request : Request) (endpoint : URL)
    (state challenge : string) :
  searchParams endpoint = [] ->
  base64url_string state = true ->
  base64url_string challenge = true ->
  URL_toString
    (fold_left (fun u p => URL_set_param (fst p) (snd p) u)
       (authorization_parameters env request state challenge) endpoint)
  = URL_before_query endpoint
    +:+ "?client_id=" +:+ URLSearchParams.encode (SHOPIFY_API_KEY env)
    +:+ "&response_type=code"
    +:+ "&redirect_uri=https%3A%2F%2F"
    +:+ URLSearchParams.encode (host (req_url request))
    +:+ "%2Fcustomer-account-api%2Fcallback"
    +:+ "&scope=openid+email+customer-account-api%3Afull"
    +:+ "&state=" +:+ state
    +:+ "&code_challenge=" +:+ challenge
    +:+ "&code_challenge_method=S256"
    +:+ hash endpoint.
Proof.
  intros Hquery Hstate Hchallenge.
  unfold URL_toString.
  cbn [fold_left authorization_parameters fst snd].
  rewrite !before_query_set_param.
  cbn [URL_set_param protocol host pathname hash searchParams].
  rewrite Hquery, set_on_bare_endpoint.
  cbn [URLSearchParams.toString].
  rewrite encode_callback_url.
  rewrite (encode_base64url_string state Hstate).
  rewrite (encode_base64url_string challenge Hchallenge).
  rewrite !string_app_assoc.
  reflexivity.
Qed.

(** X17. The location of the redirect, character by character.  For a
    discovered endpoint without a query of its own, a successful
    initiation redirects to the endpoint as the URL serializer writes it
    up to its path (the scheme, then for an endpoint with a host two
    slashes, its credentials if it has any and the host), followed by the
    seven parameters in the order the loader sets them, form-encoded: the
    client id and the request's host as the serializer encodes them, the
    scope with plus signs and an escaped colon, the state and the
    challenge as they are; the endpoint's fragment comes last. *)
Theorem auth_redirect_location_format (env : Env) (request : Request) (w : World)
    (r : FetchResponse) (cfg : JsObject) (endpoint : URL) :
  network env (GET (openid_configuration_url env)) = Responded r ->
  ok r = true ->
  body_json r = inr cfg ->
  parse_URL env (js_to_string (get_prop cfg "authorization_endpoint")) = Some endpoint ->
  searchParams endpoint = [] ->
  let verifier := Buffer.to_base64url (map (entropy env) (seq (entropy_used w) 32)) in
  let state := Buffer.to_base64url (map (entropy env) (seq (entropy_used w + 32) 16)) in
  codeVerifier w !! state = None ->
  let '(response, _) := Auth.loader env request w in
  response
  = Redirect
      (URL_before_query endpoint
       +:+ "?client_id=" +:+ URLSearchParams.encode (SHOPIFY_API_KEY env)
       +:+ "&response_type=code"
       +:+ "&redirect_uri=https%3A%2F%2F"
       +:+ URLSearchParams.encode (host (req_url request))
       +:+ "%2Fcustomer-account-api%2Fcallback"
       +:+ "&scope=openid+email+customer-account-api%3Afull"
       +:+ "&state=" +:+ state
       +:+ "&code_challenge=" +:+ generateCodeChallenge verifier
       +:+ "&code_challenge_method=S256"
       +:+ hash endpoint)
      [].
Proof.
  intros Hnet Hok Hjson Hparse Hquery verifier state Hfresh.
  rewrite (auth_run_redirect env request w r cfg endpoint Hnet Hok Hjson Hparse Hfresh).
  fold verifier. fold state.
  rewrite (location_of_bare_endpoint env request endpoint state
             (generateCodeChallenge verifier) Hquery
             (to_base64url_alphabet _) (generateCodeChallenge_alphabet verifier)).
  reflexivity.
Qed.

Lemma auth_redirect_location_format_witness :
  let '(response, _) :=
    Auth.loader (Scenario.env (Scenario.provider (Rejected (Error "fetch failed"))) 0)
      (Scenario.request "/customer-account-api/auth" [] None)
      (Scenario.world ∅ ∅) in
  response
  = Redirect
      ("https://shopify.com/authentication/1/oauth/authorize"
       +:+ "?client_id=client-1&response_type=code"
       +:+ "&redirect_uri=https%3A%2F%2Fstorefront.example.com%2Fcustomer-account-api%2Fcallback"
       +:+ "&scope=openid+email+customer-account-api%3Afull"
       +:+ "&state=q9D1Gj9kia7T-B1CZ4yx1g"
       +:+ "&code_challenge=F-83crhCIQCO17sRSfkFanE5VeZRT-XclLYfcgKs150"
       +:+ "&code_challenge_method=S256")
      [].
Proof.
  pose proof (auth_redirect_location_format
                (Scenario.env (Scenario.provider (Rejected (Error "fetch failed"))) 0)
                (Scenario.request "/customer-account-api/auth" [] None)
                (Scenario.world ∅ ∅)
                {| status := 200; statusText := "OK"; body_text := EmptyString;
                   body_json := inr Scenario.openid_document |}
                Scenario.openid_document Scenario.authorize_url
                eq_refl eq_refl eq_refl eq_refl eq_refl (lookup_empty _)) as H.
  cbv zeta in H.
  destruct (Auth.loader _ _ _) as [response w'].
  rewrite H. vm_compute. reflexivity.
Defined.

(** X18. The token request, character by character.  Once the verifier
    is found and the discovery document read, the callback sends one POST
    to the discovered token endpoint, with the form content type and the
    body [grant_type=authorization_code&client_id=..&redirect_uri=..
    &code=..&code_verifier=..] in this order, each value form-encoded. *)
Theorem callback_token_request_format (env : Env) (request : Request) (w : World)
    (code state : string) (record : CodeVerifier) (r1 : FetchResponse) (cfg : JsObject) :
  URLSearchParams.get "code" (searchParams (req_url request)) = Some code ->
  code <> EmptyString ->
  URLSearchParams.get "state" (searchParams (req_url request)) = Some state ->
  state <> EmptyString ->
  codeVerifier w !! state = Some record ->
  network env (GET (openid_configuration_url env)) = Responded r1 ->
  ok r1 = true ->
  body_json r1 = inr cfg ->
  let '(_, w') := Callback.loader env request w in
  exists (exchange : FetchRequest) (rest : list Event),
    events_since w w'
    = [ ECodeVerifierFindUnique state;
        EFetch (GET (openid_configuration_url env));
        EFetch exchange ] ++ rest
    /\ fr_url exchange = js_to_string (get_prop cfg "token_endpoint")
    /\ fr_method exchange = "POST"
    /\ fr_headers exchange = [("Content-Type", "application/x-www-form-urlencoded")]
    /\ fr_body exchange
       = Some ("grant_type=authorization_code"
               +:+ "&client_id=" +:+ URLSearchParams.encode (SHOPIFY_API_KEY env)
               +:+ "&redirect_uri=https%3A%2F%2F"
               +:+ URLSearchParams.encode (host (req_url request))
               +:+ "%2Fcustomer-account-api%2Fcallback"
               +:+ "&code=" +:+ URLSearchParams.encode code
               +:+ "&code_verifier=" +:+ URLSearchParams.encode (cv_verifier record)).
Proof.
  intros Hcode Hc Hstate Hs Hfound Hnet1 Hok1 Hjson1.
  destruct (callback_sends_exchange env request w code state record r1 cfg
              Hcode Hc Hstate Hs Hfound Hnet1 Hok1 Hjson1) as (rest & Hevents).
  destruct (Callback.loader env request w) as [response w'].
  cbn [snd] in Hevents.
  eexists. exists rest. split; [exact Hevents |].
  do 3 (split; [reflexivity |]).
  cbn [token_request fr_body URLSearchParams.toString]. unfold callback_url.
  rewrite encode_callback_url, !string_app_assoc. reflexivity.
Qed.

Lemma callback_token_request_format_witness :
  let '(_, w') :=
    Callback.loader (Scenario.env (Scenario.provider Scenario.refused) 0)
      Scenario.callback Scenario.initiated in
  exists (exchange : FetchRequest) (rest : list Event),
    events_since Scenario.initiated w'
    = [ ECodeVerifierFindUnique "S";
        EFetch (GET "https://shop.example.com/.well-known/openid-configuration");
        EFetch exchange ] ++ rest
    /\ fr_url exchange = "https://shopify.com/authentication/1/oauth/token"
    /\ fr_body exchange
       = Some ("grant_type=authorization_code&client_id=client-1"
               +:+ "&redirect_uri=https%3A%2F%2Fstorefront.example.com%2Fcustomer-account-api%2Fcallback"
               +:+ "&code=abc&code_verifier=V").
Proof.
  assert (Hfound : codeVerifier Scenario.initiated !! "S" = Some Scenario.pending)
    by (vm_compute; reflexivity).
  pose proof (callback_token_request_format
                (Scenario.env (Scenario.provider Scenario.refused) 0)
                Scenario.callback Scenario.initiated "abc" "S" Scenario.pending
                {| status := 200; statusText := "OK"; body_text := EmptyString;
                   body_json := inr Scenario.openid_document |}
                Scenario.openid_document
                eq_refl ltac:(discriminate) eq_refl ltac:(discriminate) Hfound
                eq_refl eq_refl eq_refl) as H.
  destruct (Callback.loader _ _ _) as [response w'].
  destruct H as (exchange & rest & Hevents & Hurl & _ & _ & Hbody).
  exists exchange, rest.
  split; [exact Hevents |]. split; [exact Hurl | exact Hbody].
Defined.

(** ** The order-list component *)

(** The query is the text between the backquotes of the source: 20 lines,
    the first one empty. *)
Example query_text :
  String.length CustomerAccountApiOrderList.query = 513%nat
  /\ String.get 0 CustomerAccountApiOrderList.query = Some (ascii_of_nat 10)
  /\ substring 17 7 CustomerAccountApiOrderList.query = "query {".
Proof. vm_compute. repeat split. Qed.

(** The query is, octet for octet, the text of the source. *)
Example query_digest :
  Buffer.to_hex (SHA256.digest (Buffer.from_string CustomerAccountApiOrderList.query))
  = "4832baeaa6d2e33a2d0a57a2213eb84fb721d6606d52e1b5d713488f0b9d43a3".
Proof. vm_compute. reflexivity. Qed.

(** The [try] and [catch] blocks send nothing themselves. *)
Lemma attempt_sends_nothing (browser : Browser) (data : JsObject) (st : OrderListState) :
  List.filter is_browser_fetch (snd (CustomerAccountApiOrderList.attempt browser data st))
  = [].
Proof.
  unfold CustomerAccountApiOrderList.attempt, CustomerAccountApiOrderList.failed.
  repeat case_match; reflexivity.
Qed.

(** The [try] and [catch] blocks set at most one of the two results and
    leave the loading flag alone. *)
Lemma attempt_sets_one (browser : Browser) (data : JsObject) (st : OrderListState) :
  customerData st = None ->
  customerApiError st = None ->
  let st' := fst (CustomerAccountApiOrderList.attempt browser data st) in
  (customerData st' = None \/ customerApiError st' = None)
  /\ isLoadingCustomerData st' = isLoadingCustomerData st.
Proof.
  intros Hdata Herror.
  unfold CustomerAccountApiOrderList.attempt, CustomerAccountApiOrderList.failed.
  repeat case_match; cbn; auto.
Qed.

Lemma order_list_data_props (env : Env) (t : CustomerAccessToken) (g : JsVal) :
  get_prop (order_list_data env t g) "success" = JBool true
  /\ get_prop (order_list_data env t g) "accessToken" = JStr (tok_accessToken t)
  /\ get_prop (order_list_data env t g) "graphqlApiUrl" = g.
Proof. repeat split. Qed.

(** The effect on the payload of a failed loader: nothing. *)
Lemma effect_on_failure (browser : Browser) (msg : string) (st : OrderListState) :
  CustomerAccountApiOrderList.effect browser
    [("success", JBool false); ("error", JStr msg)] st
  = (st, []).
Proof. reflexivity. Qed.

(** X19. Where the access token goes.  Whatever the order-list loader
    returns, the component's effect on it sends at most one request from
    the browser, and only for a token that is in the store for the
    session's id and has not expired: a POST to the [graphql_api] URL of
    the discovery document, whose [Authorization] header is the stored
    access token itself, with no prefix, and whose body is the JSON text of
    the query.  On every failure of the loader the browser sends
    nothing. *)
Theorem order_list_page_sends_token_once (env : Env) (request : Request) (w : World)
    (browser : Browser) (st : OrderListState) :
  let '(response, _) := OrderList.loader env request w in
  exists data : JsObject,
    response = Data data
    /\ let '(_, events) := CustomerAccountApiOrderList.effect browser data st in
       events = []
       \/ exists (t : CustomerAccessToken) (r : FetchResponse) (cfg : JsObject)
                 (rest : list BrowserEvent),
            customerAccessToken w !! the_string (getCustomerTokenId env request) = Some t
            /\ expired env t = false
            /\ network env (GET (customer_account_api_url env)) = Responded r
            /\ body_json r = inr cfg
            /\ events
               = BFetch
                   {| fr_url := js_to_string (get_prop cfg "graphql_api");
                      fr_method := "POST";
                      fr_headers :=
                        [ ("Content-Type", "application/json");
                          ("Authorization", tok_accessToken t) ];
                      fr_body :=
                        Some (JSON_stringify browser
                                (JsonObj
                                   [("query",
                                     JsonStr CustomerAccountApiOrderList.query)])) |}
                 :: rest
            /\ List.filter is_browser_fetch rest = [].
Proof.
  unfold OrderList.loader, try_catch, OrderList.body.
  destruct (present (getCustomerTokenId env request)); cbn [negb].
  2: { eexists. split; [reflexivity |]. rewrite effect_on_failure. left. reflexivity. }
  unfold bind at 1. unfold customerAccessToken_findUnique. cbn [log customerAccessToken].
  destruct (customerAccessToken w !! the_string (getCustomerTokenId env request))
    as [t |] eqn:Hfound.
  2: { eexists. split; [reflexivity |]. rewrite effect_on_failure. left. reflexivity. }
  destruct (expired env t) eqn:Hvalid.
  { eexists. split; [reflexivity |]. rewrite effect_on_failure. left. reflexivity. }
  unfold bind at 1. unfold fetch at 1.
  destruct (network env (GET (customer_account_api_url env))) as [e | r] eqn:Hnet.
  { eexists. split; [reflexivity |]. rewrite effect_on_failure. left. reflexivity. }
  destruct (ok r); cbn [negb].
  2: { eexists. split; [reflexivity |]. rewrite effect_on_failure. left. reflexivity. }
  unfold bind, response_json.
  destruct (body_json r) as [e | cfg] eqn:Hjson.
  { eexists. split; [reflexivity |]. rewrite effect_on_failure. left. reflexivity. }
  eexists. split; [reflexivity |].
  unfold CustomerAccountApiOrderList.effect.
  destruct (order_list_data_props env t (get_prop cfg "graphql_api")) as (-> & Hsecret & _).
  rewrite Hsecret. cbn [truthy andb].
  destruct (String.eqb (tok_accessToken t) EmptyString); cbn [negb].
  { left. reflexivity. }
  unfold CustomerAccountApiOrderList.queryCustomerApi.
  pose proof (attempt_sends_nothing browser
                (order_list_data env t (get_prop cfg "graphql_api"))
                (CustomerAccountApiOrderList.setIsLoadingCustomerData true st)) as Hquiet.
  destruct (CustomerAccountApiOrderList.attempt _ _ _) as [st' events].
  right. exists t, r, cfg, events.
  repeat split; assumption.
Qed.

(** X20. One run of the effect from the component's initial state, for
    any data and any answer of the API: afterwards the loading flag is
    off, at most one of [customerData] and [customerApiError] is set, and
    at most one request has been sent. *)
Theorem effect_outcome (browser : Browser) (data : JsObject) :
  let '(st', events) :=
    CustomerAccountApiOrderList.effect browser data CustomerAccountApiOrderList.initial in
  isLoadingCustomerData st' = false
  /\ (customerData st' = None \/ customerApiError st' = None)
  /\ (length (List.filter is_browser_fetch events) <= 1)%nat.
Proof.
  unfold CustomerAccountApiOrderList.effect.
  destruct (truthy (get_prop data "success") && truthy (get_prop data "accessToken")).
  2: { cbn. auto. }
  unfold CustomerAccountApiOrderList.queryCustomerApi.
  set (st := CustomerAccountApiOrderList.setIsLoadingCustomerData true _).
  pose proof (attempt_sends_nothing browser data st) as Hquiet.
  pose proof (attempt_sets_one browser data st eq_refl eq_refl) as [Hone _].
  destruct (CustomerAccountApiOrderList.attempt browser data st) as [st' events].
  cbn [fst snd] in *.
  split; [reflexivity |]. split; [exact Hone |].
  cbn [List.filter is_browser_fetch length]. rewrite Hquiet. cbn. lia.
Qed.

(** The effect when the loader handed over a token, as the query. *)
Lemma effect_runs_query (browser : Browser) (data : JsObject) (st : OrderListState) :
  truthy (get_prop data "success") = true ->
  truthy (get_prop data "accessToken") = true ->
  CustomerAccountApiOrderList.effect browser data st
  = CustomerAccountApiOrderList.queryCustomerApi browser data
      (CustomerAccountApiOrderList.setIsLoadingCustomerData true st).
Proof.
  intros Hsuccess Htoken. unfold CustomerAccountApiOrderList.effect.
  rewrite Hsuccess, Htoken. reflexivity.
Qed.

(** X21. When the API answers with a success status and a document whose
    [data.customer] is truthy, the effect stores that customer, logs it,
    sets no error and ends with the loading flag off. *)
Theorem effect_shows_customer (browser : Browser) (data : JsObject)
    (r : ApiResponse) (apiResult customer : Json) :
  truthy (get_prop data "success") = true ->
  truthy (get_prop data "accessToken") = true ->
  browser_fetch browser (CustomerAccountApiOrderList.api_request browser data)
  = ApiResponded r ->
  api_ok r = true ->
  api_json r = inr apiResult ->
  CustomerAccountApiOrderList.optional_customer apiResult = Some customer ->
  json_truthy (Some customer) = true ->
  CustomerAccountApiOrderList.effect browser data CustomerAccountApiOrderList.initial
  = ({| customerData := Some customer; customerApiError := None;
        isLoadingCustomerData := false |},
     [ BFetch (CustomerAccountApiOrderList.api_request browser data);
       BConsoleLog customer ]).
Proof.
  intros Hsuccess Htoken Hfetch Hok Hjson Hcustomer Htruthy.
  rewrite (effect_runs_query _ _ _ Hsuccess Htoken).
  unfold CustomerAccountApiOrderList.queryCustomerApi, CustomerAccountApiOrderList.attempt.
  rewrite Hfetch, Hok, Hjson.
  destruct apiResult; try discriminate Hcustomer;
    rewrite Hcustomer, Htruthy; reflexivity.
Qed.

Lemma effect_shows_customer_witness :
  CustomerAccountApiOrderList.effect
    (Page.browser (Page.answered 200 EmptyString
                     (JsonObj [("data", JsonObj [("customer", Page.customer)])])))
    Page.data CustomerAccountApiOrderList.initial
  = ({| customerData := Some Page.customer; customerApiError := None;
        isLoadingCustomerData := false |},
     [ BFetch (CustomerAccountApiOrderList.api_request
                 (Page.browser
                    (Page.answered 200 EmptyString
                       (JsonObj [("data", JsonObj [("customer", Page.customer)])])))
                 Page.data);
       BConsoleLog Page.customer ]).
Proof.
  exact (effect_shows_customer
           (Page.browser (Page.answered 200 EmptyString
                            (JsonObj [("data", JsonObj [("customer", Page.customer)])])))
           Page.data
           {| api_status := 200; api_text := EmptyString;
              api_json := inr (JsonObj [("data", JsonObj [("customer", Page.customer)])]) |}
           (JsonObj [("data", JsonObj [("customer", Page.customer)])]) Page.customer
           eq_refl eq_refl eq_refl eq_refl eq_refl eq_refl eq_refl).
Defined.

(** X22. When the API answers with a success status and a document
    without a truthy [data.customer] but with truthy [errors], the effect
    sets the error to the indented JSON text of [errors] and stores no
    customer. *)
Theorem effect_shows_graphql_errors (browser : Browser) (data : JsObject)
    (r : ApiResponse) (apiResult errors : Json) :
  truthy (get_prop data "success") = true ->
  truthy (get_prop data "accessToken") = true ->
  browser_fetch browser (CustomerAccountApiOrderList.api_request browser data)
  = ApiResponded r ->
  api_ok r = true ->
  api_json r = inr apiResult ->
  json_truthy (CustomerAccountApiOrderList.optional_customer apiResult) = false ->
  json_member apiResult "errors" = Some errors ->
  json_truthy (Some errors) = true ->
  CustomerAccountApiOrderList.effect browser data CustomerAccountApiOrderList.initial
  = ({| customerData := None;
        customerApiError := Some (JSON_stringify_indented browser errors);
        isLoadingCustomerData := false |},
     [BFetch (CustomerAccountApiOrderList.api_request browser data)]).
Proof.
  intros Hsuccess Htoken Hfetch Hok Hjson Hcustomer Herrors Htruthy.
  rewrite (effect_runs_query _ _ _ Hsuccess Htoken).
  unfold CustomerAccountApiOrderList.queryCustomerApi, CustomerAccountApiOrderList.attempt.
  rewrite Hfetch, Hok, Hjson.
  destruct apiResult; try discriminate Herrors.
  rewrite Hcustomer, Herrors, Htruthy. reflexivity.
Qed.

Lemma effect_shows_graphql_errors_witness :
  CustomerAccountApiOrderList.effect
    (Page.browser
       (Page.answered 200 EmptyString
          (JsonObj [("data", JsonNull);
                    ("errors", JsonArr [JsonObj [("message", JsonStr "Unauthorized")]])])))
    Page.data CustomerAccountApiOrderList.initial
  = ({| customerData := None; customerApiError := Some "[..]";
        isLoadingCustomerData := false |},
     [BFetch (CustomerAccountApiOrderList.api_request
                (Page.browser
                   (Page.answered 200 EmptyString
                      (JsonObj [("data", JsonNull);
                                ("errors",
                                 JsonArr [JsonObj [("message", JsonStr "Unauthorized")]])])))
                Page.data)]).
Proof.
  exact (effect_shows_graphql_errors
           (Page.browser
              (Page.answered 200 EmptyString
                 (JsonObj [("data", JsonNull);
                           ("errors",
                            JsonArr [JsonObj [("message", JsonStr "Unauthorized")]])])))
           Page.data
           {| api_status := 200; api_text := EmptyString;
              api_json :=
                inr (JsonObj [("data", JsonNull);
                              ("errors",
                               JsonArr [JsonObj [("message", JsonStr "Unauthorized")]])]) |}
           (JsonObj [("data", JsonNull);
                     ("errors", JsonArr [JsonObj [("message", JsonStr "Unauthorized")]])])
           (JsonArr [JsonObj [("message", JsonStr "Unauthorized")]])
           eq_refl eq_refl eq_refl eq_refl eq_refl eq_refl eq_refl eq_refl).
Defined.

(** X23. When the API answers with a success status and a document that
    has neither a truthy [data.customer] nor truthy [errors] (an empty
    object, say, or [data.customer] null), the effect sets nothing: no
    customer, no error, the loading flag off. *)
Theorem effect_stays_silent (browser : Browser) (data : JsObject)
    (r : ApiResponse) (apiResult : Json) :
  truthy (get_prop data "success") = true ->
  truthy (get_prop data "accessToken") = true ->
  browser_fetch browser (CustomerAccountApiOrderList.api_request browser data)
  = ApiResponded r ->
  api_ok r = true ->
  api_json r = inr apiResult ->
  apiResult <> JsonNull ->
  json_truthy (CustomerAccountApiOrderList.optional_customer apiResult) = false ->
  json_truthy (json_member apiResult "errors") = false ->
  CustomerAccountApiOrderList.effect browser data CustomerAccountApiOrderList.initial
  = (CustomerAccountApiOrderList.initial,
     [BFetch (CustomerAccountApiOrderList.api_request browser data)]).
Proof.
  intros Hsuccess Htoken Hfetch Hok Hjson Hnull Hcustomer Herrors.
  rewrite (effect_runs_query _ _ _ Hsuccess Htoken).
  unfold CustomerAccountApiOrderList.queryCustomerApi, CustomerAccountApiOrderList.attempt.
  rewrite Hfetch, Hok, Hjson.
  destruct apiResult; try contradiction; rewrite Hcustomer, Herrors; reflexivity.
Qed.

Lemma effect_stays_silent_witness :
  CustomerAccountApiOrderList.effect
    (Page.browser
       (Page.answered 200 EmptyString (JsonObj [("data", JsonObj [("customer", JsonNull)])])))
    Page.data CustomerAccountApiOrderList.initial
  = (CustomerAccountApiOrderList.initial,
     [BFetch (CustomerAccountApiOrderList.api_request
                (Page.browser
                   (Page.answered 200 EmptyString
                      (JsonObj [("data", JsonObj [("customer", JsonNull)])])))
                Page.data)]).
Proof.
  exact (effect_stays_silent
           (Page.browser
              (Page.answered 200 EmptyString
                 (JsonObj [("data", JsonObj [("customer", JsonNull)])])))
           Page.data
           {| api_status := 200; api_text := EmptyString;
              api_json := inr (JsonObj [("data", JsonObj [("customer", JsonNull)])]) |}
           (JsonObj [("data", JsonObj [("customer", JsonNull)])])
           eq_refl eq_refl eq_refl eq_refl eq_refl ltac:(discriminate) eq_refl eq_refl).
Defined.

(** X24. When the API answers with a status outside 200-299, the effect
    sets the error to "API request failed: ", the status code, " - " and
    the text of the body; no customer is stored and the body is not read
    as JSON. *)
Theorem effect_reports_http_failure (browser : Browser) (data : JsObject)
    (r : ApiResponse) :
  truthy (get_prop data "success") = true ->
  truthy (get_prop data "accessToken") = true ->
  browser_fetch browser (CustomerAccountApiOrderList.api_request browser data)
  = ApiResponded r ->
  api_ok r = false ->
  CustomerAccountApiOrderList.effect browser data CustomerAccountApiOrderList.initial
  = ({| customerData := None;
        customerApiError :=
          Some ("API request failed: " +:+ pretty (api_status r) +:+ " - " +:+ api_text r);
        isLoadingCustomerData := false |},
     [BFetch (CustomerAccountApiOrderList.api_request browser data)]).
Proof.
  intros Hsuccess Htoken Hfetch Hok.
  rewrite (effect_runs_query _ _ _ Hsuccess Htoken).
  unfold CustomerAccountApiOrderList.queryCustomerApi, CustomerAccountApiOrderList.attempt.
  rewrite Hfetch, Hok. reflexivity.
Qed.

Lemma effect_reports_http_failure_witness :
  CustomerAccountApiOrderList.effect
    (Page.browser (Page.answered 401 "Unauthorized" JsonNull))
    Page.data CustomerAccountApiOrderList.initial
  = ({| customerData := None;
        customerApiError := Some "API request failed: 401 - Unauthorized";
        isLoadingCustomerData := false |},
     [BFetch (CustomerAccountApiOrderList.api_request
                (Page.browser (Page.answered 401 "Unauthorized" JsonNull)) Page.data)]).
Proof.
  pose proof (effect_reports_http_failure
                (Page.browser (Page.answered 401 "Unauthorized" JsonNull))
                Page.data
                {| api_status := 401; api_text := "Unauthorized"; api_json := inr JsonNull |}
                eq_refl eq_refl eq_refl eq_refl) as H.
  rewrite H. vm_compute. reflexivity.
Defined.

(** X25. When the request is rejected, or the body of a success answer
    is not JSON, the error thrown is caught: the effect sets the error to
    "Failed to query Customer Account API: " followed by the error's
    message, logs the error, stores no customer and ends with the loading
    flag off. *)
Theorem effect_catches_errors (browser : Browser) (data : JsObject) (e : JsError) :
  truthy (get_prop data "success") = true ->
  truthy (get_prop data "accessToken") = true ->
  browser_fetch browser (CustomerAccountApiOrderList.api_request browser data)
  = ApiRejected e
  \/ (exists r : ApiResponse,
        browser_fetch browser (CustomerAccountApiOrderList.api_request browser data)
        = ApiResponded r
        /\ api_ok r = true
        /\ api_json r = inl e) ->
  CustomerAccountApiOrderList.effect browser data CustomerAccountApiOrderList.initial
  = ({| customerData := None;
        customerApiError :=
          Some ("Failed to query Customer Account API: " +:+ message e);
        isLoadingCustomerData := false |},
     [ BFetch (CustomerAccountApiOrderList.api_request browser data);
       BConsoleError "Customer API query error:" e ]).
Proof.
  intros Hsuccess Htoken Hthrown.
  rewrite (effect_runs_query _ _ _ Hsuccess Htoken).
  unfold CustomerAccountApiOrderList.queryCustomerApi, CustomerAccountApiOrderList.attempt.
  destruct Hthrown as [-> | (r & -> & -> & ->)]; reflexivity.
Qed.

Lemma effect_catches_errors_witness :
  CustomerAccountApiOrderList.effect
    (Page.browser (ApiRejected (Error "Failed to fetch")))
    Page.data CustomerAccountApiOrderList.initial
  = ({| customerData := None;
        customerApiError :=
          Some "Failed to query Customer Account API: Failed to fetch";
        isLoadingCustomerData := false |},
     [ BFetch (CustomerAccountApiOrderList.api_request
                 (Page.browser (ApiRejected (Error "Failed to fetch"))) Page.data);
       BConsoleError "Customer API query error:" (Error "Failed to fetch") ]).
Proof.
  exact (effect_catches_errors
           (Page.browser (ApiRejected (Error "Failed to fetch")))
           Page.data (Error "Failed to fetch")
           eq_refl eq_refl (or_introl eq_refl)).
Defined.

(** ** The encoding of the random octets loses nothing *)

Lemma byte_to_Z_inj (a b : byte) : Buffer.byte_to_Z a = Buffer.byte_to_Z b -> a = b.
Proof.
  unfold Buffer.byte_to_Z. intros H. apply N2Z.inj in H.
  pose proof (Byte.of_to_N a) as Ha. rewrite H, Byte.of_to_N in Ha.
  injection Ha as ->. reflexivity.
Qed.

(** The 64 characters of the alphabet are distinct. *)
Lemma sextet_inj (n m : Z) :
  Buffer.sextet n = Buffer.sextet m -> Z.land n 63 = Z.land m 63.
Proof.
  assert (Hall : forallb
                   (fun i => forallb
                               (fun j => implb (Ascii.eqb (Buffer.sextet (Z.of_nat i))
                                                  (Buffer.sextet (Z.of_nat j)))
                                           (Nat.eqb i j))
                               (seq 0 64))
                   (seq 0 64) = true) by (vm_compute; reflexivity).
  assert (Hrange : forall k, (Z.to_nat (Z.land k 63) < 64)%nat
                             /\ Buffer.sextet (Z.of_nat (Z.to_nat (Z.land k 63)))
                                = Buffer.sextet k).
  { intros k. change 63 with (Z.ones 6). rewrite Z.land_ones by lia.
    pose proof (Z.mod_pos_bound k (2 ^ 6) ltac:(lia)) as Hk.
    split; [lia |]. unfold Buffer.sextet. rewrite Z2Nat.id by lia.
    change 63 with (Z.ones 6). rewrite !Z.land_ones by lia.
    rewrite Z.mod_mod by lia. reflexivity. }
  intros Heq.
  destruct (Hrange n) as [Hn Hsn]. destruct (Hrange m) as [Hm Hsm].
  rewrite forallb_forall in Hall.
  specialize (Hall (Z.to_nat (Z.land n 63)) ltac:(apply in_seq; lia)).
  rewrite forallb_forall in Hall.
  specialize (Hall (Z.to_nat (Z.land m 63)) ltac:(apply in_seq; lia)).
  rewrite Hsn, Hsm, Heq, Ascii.eqb_refl in Hall. cbn [implb] in Hall.
  apply Nat.eqb_eq in Hall.
  assert (0 <= Z.land n 63) by (apply Z.land_nonneg; lia).
  assert (0 <= Z.land m 63) by (apply Z.land_nonneg; lia).
  lia.
Qed.

(** The octets can be read back from the 6-bit groups.  Each equation is
    checked on all octets. *)
Lemma first_octet_back (a b : byte) :
  let x := Buffer.byte_to_Z a in
  let y := Buffer.byte_to_Z b in
  Z.lor (Z.shiftl (Z.land (Z.shiftr x 2) 63) 2)
        (Z.shiftr (Z.land (Z.lor (Z.shiftl (Z.land x 3) 4) (Z.shiftr y 4)) 63) 4)
  = x.
Proof.
  apply Z.eqb_eq.
  exact (octet_cases2
           (fun x y =>
              Z.lor (Z.shiftl (Z.land (Z.shiftr x 2) 63) 2)
                    (Z.shiftr (Z.land (Z.lor (Z.shiftl (Z.land x 3) 4) (Z.shiftr y 4)) 63) 4)
              =? x)
           ltac:(vm_compute; reflexivity) a b).
Qed.

Lemma first_octet_back_alone (a : byte) :
  let x := Buffer.byte_to_Z a in
  Z.lor (Z.shiftl (Z.land (Z.shiftr x 2) 63) 2)
        (Z.shiftr (Z.land (Z.shiftl (Z.land x 3) 4) 63) 4)
  = x.
Proof.
  apply Z.eqb_eq.
  exact (octet_cases
           (fun x =>
              Z.lor (Z.shiftl (Z.land (Z.shiftr x 2) 63) 2)
                    (Z.shiftr (Z.land (Z.shiftl (Z.land x 3) 4) 63) 4)
              =? x)
           ltac:(vm_compute; reflexivity) a).
Qed.

Lemma second_octet_high (a b : byte) :
  let x := Buffer.byte_to_Z a in
  let y := Buffer.byte_to_Z b in
  Z.land (Z.land (Z.lor (Z.shiftl (Z.land x 3) 4) (Z.shiftr y 4)) 63) 15 = Z.shiftr y 4.
Proof.
  apply Z.eqb_eq.
  exact (octet_cases2
           (fun x y =>
              Z.land (Z.land (Z.lor (Z.shiftl (Z.land x 3) 4) (Z.shiftr y 4)) 63) 15
              =? Z.shiftr y 4)
           ltac:(vm_compute; reflexivity) a b).
Qed.

Lemma second_octet_low (b c : byte) :
  let y := Buffer.byte_to_Z b in
  let z := Buffer.byte_to_Z c in
  Z.shiftr (Z.land (Z.lor (Z.shiftl (Z.land y 15) 2) (Z.shiftr z 6)) 63) 2 = Z.land y 15.
Proof.
  apply Z.eqb_eq.
  exact (octet_cases2
           (fun y z =>
              Z.shiftr (Z.land (Z.lor (Z.shiftl (Z.land y 15) 2) (Z.shiftr z 6)) 63) 2
              =? Z.land y 15)
           ltac:(vm_compute; reflexivity) b c).
Qed.

Lemma second_octet_low_alone (b : byte) :
  let y := Buffer.byte_to_Z b in
  Z.shiftr (Z.land (Z.shiftl (Z.land y 15) 2) 63) 2 = Z.land y 15.
Proof.
  apply Z.eqb_eq.
  exact (octet_cases
           (fun y => Z.shiftr (Z.land (Z.shiftl (Z.land y 15) 2) 63) 2 =? Z.land y 15)
           ltac:(vm_compute; reflexivity) b).
Qed.

Lemma second_octet_back (b : byte) :
  let y := Buffer.byte_to_Z b in
  Z.lor (Z.shiftl (Z.shiftr y 4) 4) (Z.land y 15) = y.
Proof.
  apply Z.eqb_eq.
  exact (octet_cases (fun y => Z.lor (Z.shiftl (Z.shiftr y 4) 4) (Z.land y 15) =? y)
           ltac:(vm_compute; reflexivity) b).
Qed.

Lemma third_octet_high (b c : byte) :
  let y := Buffer.byte_to_Z b in
  let z := Buffer.byte_to_Z c in
  Z.land (Z.land (Z.lor (Z.shiftl (Z.land y 15) 2) (Z.shiftr z 6)) 63) 3 = Z.shiftr z 6.
Proof.
  apply Z.eqb_eq.
  exact (octet_cases2
           (fun y z =>
              Z.land (Z.land (Z.lor (Z.shiftl (Z.land y 15) 2) (Z.shiftr z 6)) 63) 3
              =? Z.shiftr z 6)
           ltac:(vm_compute; reflexivity) b c).
Qed.

Lemma third_octet_back (c : byte) :
  let z := Buffer.byte_to_Z c in
  Z.lor (Z.shiftl (Z.shiftr z 6) 6) (Z.land (Z.land z 63) 63) = z.
Proof.
  apply Z.eqb_eq.
  exact (octet_cases
           (fun z => Z.lor (Z.shiftl (Z.shiftr z 6) 6) (Z.land (Z.land z 63) 63) =? z)
           ltac:(vm_compute; reflexivity) c).
Qed.

Lemma first_octet_inj (a b a' b' : byte) :
  Z.land (Z.shiftr (Buffer.byte_to_Z a) 2) 63
  = Z.land (Z.shiftr (Buffer.byte_to_Z a') 2) 63 ->
  Z.land (Z.lor (Z.shiftl (Z.land (Buffer.byte_to_Z a) 3) 4)
                (Z.shiftr (Buffer.byte_to_Z b) 4)) 63
  = Z.land (Z.lor (Z.shiftl (Z.land (Buffer.byte_to_Z a') 3) 4)
                  (Z.shiftr (Buffer.byte_to_Z b') 4)) 63 ->
  a = a'.
Proof.
  intros H1 H2. apply byte_to_Z_inj.
  pose proof (first_octet_back a b) as Ha. pose proof (first_octet_back a' b') as Ha'.
  cbv zeta in Ha, Ha'. rewrite <- Ha, <- Ha', H1, H2. reflexivity.
Qed.

Lemma second_octet_inj (b b' : byte) :
  Z.shiftr (Buffer.byte_to_Z b) 4 = Z.shiftr (Buffer.byte_to_Z b') 4 ->
  Z.land (Buffer.byte_to_Z b) 15 = Z.land (Buffer.byte_to_Z b') 15 ->
  b = b'.
Proof.
  intros Hhigh Hlow. apply byte_to_Z_inj.
  pose proof (second_octet_back b) as Hb. pose proof (second_octet_back b') as Hb'.
  cbv zeta in Hb, Hb'. rewrite <- Hb, <- Hb', Hhigh, Hlow. reflexivity.
Qed.

Lemma third_octet_inj (c c' : byte) :
  Z.shiftr (Buffer.byte_to_Z c) 6 = Z.shiftr (Buffer.byte_to_Z c') 6 ->
  Z.land (Z.land (Buffer.byte_to_Z c) 63) 63 = Z.land (Z.land (Buffer.byte_to_Z c') 63) 63 ->
  c = c'.
Proof.
  intros Hhigh Hlow. apply byte_to_Z_inj.
  pose proof (third_octet_back c) as Hc. pose proof (third_octet_back c') as Hc'.
  cbv zeta in Hc, Hc'. rewrite <- Hc, <- Hc', Hhigh, Hlow. reflexivity.
Qed.

(** Two buffers with the same base64url text are the same buffer. *)
Lemma to_base64url_inj (bs bs' : Buffer.t) :
  Buffer.to_base64url bs = Buffer.to_base64url bs' -> bs = bs'.
Proof.
  revert bs'.
  induction bs as [| a | a b | a b c rest IH] using list_ind3; intros bs' H;
    destruct bs' as [| a' [| b' [| c' rest']]];
    cbn [Buffer.to_base64url] in H; try discriminate H; try reflexivity.
  - injection H as H1 H2. apply sextet_inj in H1, H2.
    f_equal. apply byte_to_Z_inj.
    pose proof (first_octet_back_alone a) as Ha.
    pose proof (first_octet_back_alone a') as Ha'.
    cbv zeta in Ha, Ha'. rewrite <- Ha, <- Ha', H1, H2. reflexivity.
  - injection H as H1 H2 H3. apply sextet_inj in H1, H2, H3.
    rewrite (first_octet_inj a b a' b' H1 H2). f_equal. f_equal.
    apply second_octet_inj.
    + pose proof (second_octet_high a b) as Hb.
      pose proof (second_octet_high a' b') as Hb'.
      cbv zeta in Hb, Hb'. rewrite <- Hb, <- Hb', H2. reflexivity.
    + pose proof (second_octet_low_alone b) as Hb.
      pose proof (second_octet_low_alone b') as Hb'.
      cbv zeta in Hb, Hb'. rewrite <- Hb, <- Hb', H3. reflexivity.
  - injection H as H1 H2 H3 H4 Hrest. apply sextet_inj in H1, H2, H3, H4.
    rewrite (first_octet_inj a b a' b' H1 H2), (IH rest' Hrest). f_equal. f_equal.
    + apply second_octet_inj.
      * pose proof (second_octet_high a b) as Hb.
        pose proof (second_octet_high a' b') as Hb'.
        cbv zeta in Hb, Hb'. rewrite <- Hb, <- Hb', H2. reflexivity.
      * pose proof (second_octet_low b c) as Hb.
        pose proof (second_octet_low b' c') as Hb'.
        cbv zeta in Hb, Hb'. rewrite <- Hb, <- Hb', H3. reflexivity.
    + f_equal. apply third_octet_inj.
      * pose proof (third_octet_high b c) as Hc.
        pose proof (third_octet_high b' c') as Hc'.
        cbv zeta in Hc, Hc'. rewrite <- Hc, <- Hc', H3. reflexivity.
      * exact H4.
Qed.

(** X26. The state and the verifier lose nothing of the random octets
    they are made from: two calls of [generateState] return the same state
    only if they drew the same 16 octets, and two calls of
    [generateCodeVerifier] return the same verifier only if they drew the
    same 32 octets. *)
Theorem pkce_material_injective (env1 env2 : Env) (w1 w2 : World) :
  (fst (generateState env1 w1) = fst (generateState env2 w2) ->
   map (entropy env1) (seq (entropy_used w1) 16)
   = map (entropy env2) (seq (entropy_used w2) 16))
  /\ (fst (generateCodeVerifier env1 w1) = fst (generateCodeVerifier env2 w2) ->
      map (entropy env1) (seq (entropy_used w1) 32)
      = map (entropy env2) (seq (entropy_used w2) 32)).
Proof.
  unfold generateState, generateCodeVerifier, bind, randomBytes, ret, crypto.encode.
  cbn [fst].
  split; intros H; apply to_base64url_inj;
    exact (f_equal (fun o => match o with
                             | Return s => s
                             | Throw _ => EmptyString
                             end) H).
Qed.

Lemma pkce_material_injective_witness :
  map (entropy (Scenario.env Scenario.provider_down 0)) (seq 32 16)
  = map (entropy (Scenario.env Scenario.provider_down 1)) (seq 32 16).
Proof.
  destruct (pkce_material_injective
              (Scenario.env Scenario.provider_down 0)
              (Scenario.env Scenario.provider_down 1)
              {| codeVerifier := ∅; customerAccessToken := ∅; entropy_used := 32;
                 ids_used := 0; trace := [] |}
              {| codeVerifier := ∅; customerAccessToken := ∅; entropy_used := 32;
                 ids_used := 0; trace := [] |}) as [Hstate _].
  apply Hstate. vm_compute. reflexivity.
Defined.
